(** * memsim: a shallow embedding of the LPDDR5 controllers and the
      request schedulers, and the properties of the specification
      checked against them.

    Sources embedded here:
    - [core/types.hpp], [core/timing.hpp], [core/statistics.hpp]
    - [interface/scheduler.hpp], [scheduler/fifo.hpp],
      [scheduler/fr_fcfs.hpp], [scheduler/fr_fcfs_grp.hpp]
    - [technology/lpddr5/lpddr5_controller.hpp],
      [src/technology/lpddr5_controller.cpp]

    Conventions.
    - Unsigned machine integers are [Z] with the wrap-around written out
      ([u8], [u16], [u32], [u64]).
    - A [std::vector] is a [list] read with stdpp's lookup; an index out
      of range is undefined behaviour in the source and is the [None] of
      the option monad here.
    - The schedulers keep [Request*].  A queue slot of the embedding
      holds what a read through the queued pointer returns, and where
      the source compares pointers the slot position stands for the
      pointer.  For the scheduler classes, whose caller owns the
      requests, the slot holds the request as it was stored.
      [CycleAccurateLPDDR5Controller::submit] queues the address of its
      own by-value parameter, which does not outlive the call: [submit]
      of the embedding leaves the stamped request in the slot (the
      storage not yet written over), the concrete runs through [submit]
      and [tick] are runs with that storage intact, and the general
      properties of [tick] are stated for every content of the slots
      and do not say that [tick] returns.
    - A completion callback is an opaque handle; calling it is recorded
      as an event of the trace an operation returns.  The commands put
      on the DRAM command bus are recorded in the same trace. *)

From Stdlib Require Import ZArith Lia.
From stdpp Require Import base tactics option list numbers sorting.

Local Open Scope Z_scope.

(** ** Fixed-width unsigned integers *)

Definition u8 (x : Z) : Z := x mod 2 ^ 8.
Definition u16 (x : Z) : Z := x mod 2 ^ 16.
Definition u32 (x : Z) : Z := x mod 2 ^ 32.
Definition u64 (x : Z) : Z := x mod 2 ^ 64.

(** [std::numeric_limits<uint64_t>::max()] *)
Definition UINT64_MAX : Z := 2 ^ 64 - 1.

(** An [int] operand converted to [uint64_t] for a binary operator
    (the usual arithmetic conversions): [-1] becomes all ones. *)
Definition int_to_u64 (x : Z) : Z := u64 x.

(** ** core/types.hpp *)

Inductive Fidelity := BEHAVIORAL | TRANSACTIONAL | CYCLE_ACCURATE.

Inductive Technology :=
  IDEAL | DDR5 | LPDDR5 | LPDDR5X | LPDDR6 | HBM3 | HBM3E | HBM4 | GDDR6 | GDDR7.

Inductive RequestType := READ | WRITE.

Inductive Priority := LOW | NORMAL | HIGH | REALTIME.

Inductive BankState :=
  IDLE | ACTIVATING | ACTIVE | READING | WRITING | PRECHARGING | REFRESHING.

Inductive AddressMapping :=
  ROW_BANK_COLUMN | ROW_COLUMN_BANK | BANK_ROW_COLUMN | CUSTOM.

#[global] Instance RequestType_eq_dec : EqDecision RequestType.
Proof. solve_decision. Defined.

#[global] Instance BankState_eq_dec : EqDecision BankState.
Proof. solve_decision. Defined.

(** The handle of a [CompletionCallback]; [None] is the empty
    [std::function] ([nullptr]). *)
Definition CallbackId := nat.

Module Request.

Record t := mk {
  id : Z;                      (* RequestId = uint64_t *)
  address : Z;                 (* Address = uint64_t *)
  size : Z;                    (* uint32_t *)
  type : RequestType;
  priority : Priority;
  submit_cycle : Z;            (* Cycle = uint64_t *)
  callback : option CallbackId;
  channel : Z;                 (* uint8_t *)
  rank : Z;                    (* uint8_t *)
  bank_group : Z;              (* uint8_t *)
  bank : Z;                    (* uint8_t *)
  row : Z;                     (* Row = uint32_t *)
  column : Z                   (* Column = uint16_t *)
}.

(** The member initialisers of [struct Request]. *)
Definition default : t :=
  mk 0 0 0 READ NORMAL 0 None 0 0 0 0 0 0.

Definition set_id (v : Z) (r : t) : t :=
  mk v (address r) (size r) (type r) (priority r) (submit_cycle r)
     (callback r) (channel r) (rank r) (bank_group r) (bank r) (row r)
     (column r).

Definition set_submit_cycle (v : Z) (r : t) : t :=
  mk (id r) (address r) (size r) (type r) (priority r) v
     (callback r) (channel r) (rank r) (bank_group r) (bank r) (row r)
     (column r).

(** The four fields [decode_address] assigns. *)
Definition set_decoded (ch bk rw col : Z) (r : t) : t :=
  mk (id r) (address r) (size r) (type r) (priority r) (submit_cycle r)
     (callback r) ch (rank r) (bank_group r) bk rw col.

End Request.

(** What an operation of a controller does to the outside: a command on
    the DRAM command bus, or a call of a completion callback. *)
Inductive Command := ACT | RD | WR | PRE | REF.

Inductive Event :=
| Issue (cmd : Command) (bank_index : nat)
| Completion (cb : CallbackId) (latency : Z).

(** ** core/timing.hpp *)

Module TimingParams.

(** The integer members; the three [double] page factors are read by
    no code of the repository and are left out. *)
Record t := mk {
  tRCD : Z; tRP : Z; tRAS : Z; tRC : Z; tCL : Z; tWL : Z; tWR : Z; tRTP : Z;
  tRRD_L : Z; tRRD_S : Z; tCCD_L : Z; tCCD_S : Z; tFAW : Z;
  tWTR_L : Z; tWTR_S : Z; tRTW : Z;
  tBurst : Z;
  tRFC : Z; tRFCpb : Z; tRFCsb : Z; tREFI : Z;
  tCKE : Z; tXP : Z; tXS : Z;
  tMRD : Z; tMOD : Z;
  fixed_read_latency : Z; fixed_write_latency : Z;
  mean_read_latency : Z; mean_write_latency : Z; latency_stddev : Z
}.

Definition default : t :=
  mk 14 14 28 42 14 8 24 6
     6 4 6 4 24
     10 4 14
     8
     280 90 90 3900
     5 6 216
     8 15
     100 100
     80 90 20.

(** Every member is a [uint32_t]. *)
Definition in_range (p : t) : Prop :=
  Forall (fun v => 0 <= v < 2 ^ 32)
    [tRCD p; tRP p; tRAS p; tRC p; tCL p; tWL p; tWR p; tRTP p;
     tRRD_L p; tRRD_S p; tCCD_L p; tCCD_S p; tFAW p;
     tWTR_L p; tWTR_S p; tRTW p; tBurst p;
     tRFC p; tRFCpb p; tRFCsb p; tREFI p; tCKE p; tXP p; tXS p;
     tMRD p; tMOD p; fixed_read_latency p; fixed_write_latency p;
     mean_read_latency p; mean_write_latency p; latency_stddev p].

End TimingParams.

Module timing_presets.

Import TimingParams.

(** [timing_presets::lpddr5_6400()] *)
Definition lpddr5_6400 : TimingParams.t :=
  mk 18 18 42 60 17 8 34 12
     8 4 8 4 32
     16 8 18
     8
     280 90 90 3900
     5 6 216
     8 15
     100 100
     80 90 20.

End timing_presets.

Module OrganizationParams.

Record t := mk {
  num_channels : Z;            (* uint8_t *)
  ranks_per_channel : Z;       (* uint8_t *)
  bank_groups_per_rank : Z;    (* uint8_t *)
  banks_per_bank_group : Z;    (* uint8_t *)
  rows_per_bank : Z;           (* uint32_t *)
  columns_per_row : Z;         (* uint32_t *)
  device_width : Z;            (* uint8_t *)
  devices_per_rank : Z;        (* uint8_t *)
  burst_length : Z             (* uint32_t *)
}.

Definition default : t := mk 1 1 4 4 65536 1024 16 1 16.

(** [uint8_t banks_per_rank() const]: the product is computed in [int]
    and converted to the [uint8_t] return type. *)
Definition banks_per_rank (o : t) : Z :=
  u8 (bank_groups_per_rank o * banks_per_bank_group o).

Definition total_banks (o : t) : Z :=
  u8 (num_channels o * ranks_per_channel o * banks_per_rank o).

Definition in_range (o : t) : Prop :=
  0 <= num_channels o < 2 ^ 8 /\
  0 <= ranks_per_channel o < 2 ^ 8 /\
  0 <= bank_groups_per_rank o < 2 ^ 8 /\
  0 <= banks_per_bank_group o < 2 ^ 8 /\
  0 <= rows_per_bank o < 2 ^ 32 /\
  0 <= columns_per_row o < 2 ^ 32 /\
  0 <= device_width o < 2 ^ 8 /\
  0 <= devices_per_rank o < 2 ^ 8 /\
  0 <= burst_length o < 2 ^ 32.

End OrganizationParams.

Module ControllerConfig.

Record t := mk {
  technology : Technology;
  fidelity : Fidelity;
  speed_mt_s : Z;              (* uint32_t *)
  queue_depth : Z;             (* uint32_t *)
  timing : TimingParams.t;
  organization : OrganizationParams.t;
  address_mapping : AddressMapping;
  enable_tracing : bool;
  enable_statistics : bool;
  enable_invariants : bool
}.

Definition default : t :=
  mk IDEAL BEHAVIORAL 6400 32 TimingParams.default
     OrganizationParams.default ROW_BANK_COLUMN false true false.

Definition in_range (c : t) : Prop :=
  0 <= speed_mt_s c < 2 ^ 32 /\
  0 <= queue_depth c < 2 ^ 32 /\
  TimingParams.in_range (timing c) /\
  OrganizationParams.in_range (organization c).

End ControllerConfig.

(** ** core/statistics.hpp *)

Module Statistics.

Record t := mk {
  reads : Z; writes : Z;
  page_hits : Z; page_empty : Z; page_conflicts : Z;
  total_read_latency : Z; total_write_latency : Z;
  min_latency : Z; max_latency : Z;
  busy_cycles : Z; idle_cycles : Z; stall_cycles : Z;
  refreshes : Z; refresh_cycles : Z;
  read_to_write_turnarounds : Z; write_to_read_turnarounds : Z;
  active_cycles : Z; precharge_cycles : Z; powerdown_cycles : Z
}.

(** The member initialisers: every counter zero, [min_latency] at the
    largest [uint64_t]. *)
Definition initial : t :=
  mk 0 0 0 0 0 0 0 UINT64_MAX 0 0 0 0 0 0 0 0 0 0 0.

(** [reset()] assigns every member its initial value. *)
Definition reset (s : t) : t := initial.

Definition total_requests (s : t) : Z := u64 (reads s + writes s).

(** The nine members that [record_request] and the controllers write;
    the other ten are carried over. *)
Definition with_counters (s : t) (r w ph pe pc trl twl mn mx : Z) : t :=
  mk r w ph pe pc trl twl mn mx
     (busy_cycles s) (idle_cycles s) (stall_cycles s)
     (refreshes s) (refresh_cycles s)
     (read_to_write_turnarounds s) (write_to_read_turnarounds s)
     (active_cycles s) (precharge_cycles s) (powerdown_cycles s).

(** [reads++; total_read_latency += latency;] *)
Definition count_read (latency : Z) (s : t) : t :=
  with_counters s (u64 (reads s + 1)) (writes s)
    (page_hits s) (page_empty s) (page_conflicts s)
    (u64 (total_read_latency s + latency)) (total_write_latency s)
    (min_latency s) (max_latency s).

(** [writes++; total_write_latency += latency;] *)
Definition count_write (latency : Z) (s : t) : t :=
  with_counters s (reads s) (u64 (writes s + 1))
    (page_hits s) (page_empty s) (page_conflicts s)
    (total_read_latency s) (u64 (total_write_latency s + latency))
    (min_latency s) (max_latency s).

(** [page_hits++] *)
Definition incr_page_hits (s : t) : t :=
  with_counters s (reads s) (writes s)
    (u64 (page_hits s + 1)) (page_empty s) (page_conflicts s)
    (total_read_latency s) (total_write_latency s)
    (min_latency s) (max_latency s).

(** [page_empty++] *)
Definition incr_page_empty (s : t) : t :=
  with_counters s (reads s) (writes s)
    (page_hits s) (u64 (page_empty s + 1)) (page_conflicts s)
    (total_read_latency s) (total_write_latency s)
    (min_latency s) (max_latency s).

(** [page_conflicts++] *)
Definition incr_page_conflicts (s : t) : t :=
  with_counters s (reads s) (writes s)
    (page_hits s) (page_empty s) (u64 (page_conflicts s + 1))
    (total_read_latency s) (total_write_latency s)
    (min_latency s) (max_latency s).

(** [min_latency = min(min_latency, latency);
     max_latency = max(max_latency, latency);] *)
Definition track_latency (latency : Z) (s : t) : t :=
  with_counters s (reads s) (writes s)
    (page_hits s) (page_empty s) (page_conflicts s)
    (total_read_latency s) (total_write_latency s)
    (Z.min (min_latency s) latency) (Z.max (max_latency s) latency).

(** [void record_request(RequestType, Cycle, bool page_hit,
    bool page_conflict)] *)
Definition record_request (ty : RequestType) (latency : Z)
    (page_hit page_conflict : bool) (s : t) : t :=
  let s1 := match ty with
            | READ => count_read latency s
            | WRITE => count_write latency s
            end in
  let s2 := if page_hit then incr_page_hits s1
            else if page_conflict then incr_page_conflicts s1
            else incr_page_empty s1 in
  track_latency latency s2.

(** [void merge(const Statistics& other)] *)
Definition merge (s other : t) : t :=
  mk (u64 (reads s + reads other))
     (u64 (writes s + writes other))
     (u64 (page_hits s + page_hits other))
     (u64 (page_empty s + page_empty other))
     (u64 (page_conflicts s + page_conflicts other))
     (u64 (total_read_latency s + total_read_latency other))
     (u64 (total_write_latency s + total_write_latency other))
     (Z.min (min_latency s) (min_latency other))
     (Z.max (max_latency s) (max_latency other))
     (u64 (busy_cycles s + busy_cycles other))
     (u64 (idle_cycles s + idle_cycles other))
     (u64 (stall_cycles s + stall_cycles other))
     (u64 (refreshes s + refreshes other))
     (u64 (refresh_cycles s + refresh_cycles other))
     (u64 (read_to_write_turnarounds s + read_to_write_turnarounds other))
     (u64 (write_to_read_turnarounds s + write_to_read_turnarounds other))
     (u64 (active_cycles s + active_cycles other))
     (u64 (precharge_cycles s + precharge_cycles other))
     (u64 (powerdown_cycles s + powerdown_cycles other)).

(** Every member holds a [uint64_t]. *)
Definition in_range (s : t) : Prop :=
  Forall (fun v => 0 <= v < 2 ^ 64)
    [reads s; writes s; page_hits s; page_empty s; page_conflicts s;
     total_read_latency s; total_write_latency s;
     min_latency s; max_latency s;
     busy_cycles s; idle_cycles s; stall_cycles s;
     refreshes s; refresh_cycles s;
     read_to_write_turnarounds s; write_to_read_turnarounds s;
     active_cycles s; precharge_cycles s; powerdown_cycles s].

End Statistics.

(** ** interface/scheduler.hpp *)

Inductive SchedulerPolicy :=
  FIFO | FR_FCFS | FR_FCFS_GRP | GRP_FR_FCFS | GRP_FR_FCFS_WM | QOS_AWARE.

Inductive BufferType := SHARED | BANKWISE | READ_WRITE.

Module SchedulerConfig.

Record t := mk {
  policy : SchedulerPolicy;
  buffer_type : BufferType;
  buffer_size : Z;             (* uint32_t *)
  read_buffer_size : Z;        (* uint32_t *)
  write_buffer_size : Z;       (* uint32_t *)
  high_watermark : Z;          (* uint32_t *)
  low_watermark : Z;           (* uint32_t *)
  num_banks : Z                (* uint8_t *)
}.

Definition default : t := mk FR_FCFS BANKWISE 32 16 16 8 4 16.

End SchedulerConfig.

(** ** The per-bank request lists shared by the three schedulers

    [std::vector<std::list<Request* >> buffers_] with
    [std::vector<unsigned> buffer_depths_] and [size_t total_occupancy_]:
    the three classes repeat the same [has_space], [store], [remove],
    [has_pending] and [has_any_pending] bodies over them. *)

Module BankBuffers.

Record t := mk {
  buffers_ : list (list Request.t);
  buffer_depths_ : list Z;     (* unsigned *)
  total_occupancy_ : Z         (* size_t *)
}.

(** [buffers_(config.num_banks), buffer_depths_(config.num_banks, 0)] *)
Definition create (num_banks : Z) : t :=
  mk (replicate (Z.to_nat num_banks) [])
     (replicate (Z.to_nat num_banks) 0)
     0.

(** [total_occupancy_ + count <= config_.buffer_size], in [size_t]. *)
Definition has_space (buffer_size : Z) (b : t) (count : Z) : bool :=
  u64 (total_occupancy_ b + count) <=? buffer_size.

(** [buffers_[bank].push_back(&request); buffer_depths_[bank]++;
     total_occupancy_++;] *)
Definition store (b : t) (request : Request.t) : option t :=
  let bank := Z.to_nat (Request.bank request) in
  buffer ← buffers_ b !! bank;
  depth ← buffer_depths_ b !! bank;
  Some (mk (<[bank := buffer ++ [request]]> (buffers_ b))
           (<[bank := u32 (depth + 1)]> (buffer_depths_ b))
           (u64 (total_occupancy_ b + 1))).

(** The iterator loop of [remove]: erase the first element whose id is
    [rid]; [None] when the loop runs off the end. *)
Fixpoint erase_id (rid : Z) (buffer : list Request.t)
    : option (list Request.t) :=
  match buffer with
  | [] => None
  | r :: rest =>
      if Request.id r =? rid then Some rest
      else cons r <$> erase_id rid rest
  end.

Definition remove (b : t) (request : Request.t) : option t :=
  let bank := Z.to_nat (Request.bank request) in
  buffer ← buffers_ b !! bank;
  match erase_id (Request.id request) buffer with
  | Some buffer' =>
      depth ← buffer_depths_ b !! bank;
      Some (mk (<[bank := buffer']> (buffers_ b))
               (<[bank := u32 (depth - 1)]> (buffer_depths_ b))
               (u64 (total_occupancy_ b - 1)))
  | None => Some b
  end.

Definition occupancy (b : t) : Z := total_occupancy_ b.

(** [buffers_[bank].size() >= 2] *)
Definition has_pending (b : t) (bank : Z) (type : RequestType)
    : option bool :=
  buffer ← buffers_ b !! Z.to_nat bank;
  Some (bool_decide (2 <= length buffer)%nat).

(** [total_occupancy_ > 0] *)
Definition has_any_pending (b : t) : bool := 0 <? total_occupancy_ b.

End BankBuffers.

(** ** scheduler/fifo.hpp *)

Module FifoScheduler.

Record t := mk {
  config_ : SchedulerConfig.t;
  buf_ : BankBuffers.t;
  requests_selected_ : Z       (* uint64_t *)
}.

Definition create (config : SchedulerConfig.t) : t :=
  mk config (BankBuffers.create (SchedulerConfig.num_banks config)) 0.

Definition has_space (s : t) (count : Z) : bool :=
  BankBuffers.has_space (SchedulerConfig.buffer_size (config_ s)) (buf_ s) count.

Definition store (s : t) (request : Request.t) : option t :=
  b ← BankBuffers.store (buf_ s) request;
  Some (mk (config_ s) b (requests_selected_ s)).

Definition remove (s : t) (request : Request.t) : option t :=
  b ← BankBuffers.remove (buf_ s) request;
  Some (mk (config_ s) b (requests_selected_ s)).

Definition occupancy (s : t) : Z := BankBuffers.occupancy (buf_ s).

(** The result is the selected request ([None] for [nullptr]) and the
    scheduler with its selection counter advanced. *)
Definition get_next (s : t) (bank : Z) (open_row : option Z)
    (last_cmd : RequestType) : option (option Request.t * t) :=
  buffer ← BankBuffers.buffers_ (buf_ s) !! Z.to_nat bank;
  match buffer with
  | [] => Some (None, s)
  | front :: _ =>
      Some (Some front,
            mk (config_ s) (buf_ s) (u64 (requests_selected_ s + 1)))
  end.

Definition has_row_hit (s : t) (bank row : Z) (type : RequestType) : bool :=
  false.

Definition has_pending (s : t) (bank : Z) (type : RequestType)
    : option bool :=
  BankBuffers.has_pending (buf_ s) bank type.

Definition has_any_pending (s : t) : bool :=
  BankBuffers.has_any_pending (buf_ s).

End FifoScheduler.

(** ** scheduler/fr_fcfs.hpp *)

Module FrFcfsScheduler.

Record t := mk {
  config_ : SchedulerConfig.t;
  buf_ : BankBuffers.t;
  requests_selected_ : Z;      (* uint64_t *)
  row_hits_ : Z                (* uint64_t *)
}.

Definition create (config : SchedulerConfig.t) : t :=
  mk config (BankBuffers.create (SchedulerConfig.num_banks config)) 0 0.

Definition with_buf (s : t) (b : BankBuffers.t) : t :=
  mk (config_ s) b (requests_selected_ s) (row_hits_ s).

Definition has_space (s : t) (count : Z) : bool :=
  BankBuffers.has_space (SchedulerConfig.buffer_size (config_ s)) (buf_ s) count.

Definition store (s : t) (request : Request.t) : option t :=
  with_buf s <$> BankBuffers.store (buf_ s) request.

Definition remove (s : t) (request : Request.t) : option t :=
  with_buf s <$> BankBuffers.remove (buf_ s) request.

Definition occupancy (s : t) : Z := BankBuffers.occupancy (buf_ s).

(** [for (auto* req : buffer) if (req->row == *open_row) return req;] *)
Fixpoint find_row_hit (open_row : Z) (buffer : list Request.t)
    : option Request.t :=
  match buffer with
  | [] => None
  | req :: rest =>
      if Request.row req =? open_row then Some req
      else find_row_hit open_row rest
  end.

(** The result is the selected request ([None] for [nullptr]) and the
    scheduler with the counters the [const_cast]s advance. *)
Definition get_next (s : t) (bank : Z) (open_row : option Z)
    (last_cmd : RequestType) : option (option Request.t * t) :=
  buffer ← BankBuffers.buffers_ (buf_ s) !! Z.to_nat bank;
  match buffer with
  | [] => Some (None, s)
  | front :: _ =>
      match open_row ≫= (fun row => find_row_hit row buffer) with
      | Some req =>
          Some (Some req,
                mk (config_ s) (buf_ s)
                   (u64 (requests_selected_ s + 1)) (u64 (row_hits_ s + 1)))
      | None =>
          Some (Some front,
                mk (config_ s) (buf_ s)
                   (u64 (requests_selected_ s + 1)) (row_hits_ s))
      end
  end.

(** The counting loop of [has_row_hit]: true once a second request for
    [row] is met. *)
Fixpoint has_row_hit_from (hit_count : Z) (row : Z)
    (buffer : list Request.t) : bool :=
  match buffer with
  | [] => false
  | req :: rest =>
      if Request.row req =? row then
        if 2 <=? hit_count + 1 then true
        else has_row_hit_from (hit_count + 1) row rest
      else has_row_hit_from hit_count row rest
  end.

Definition has_row_hit (s : t) (bank row : Z) (type : RequestType)
    : option bool :=
  buffer ← BankBuffers.buffers_ (buf_ s) !! Z.to_nat bank;
  Some (has_row_hit_from 0 row buffer).

Definition has_pending (s : t) (bank : Z) (type : RequestType)
    : option bool :=
  BankBuffers.has_pending (buf_ s) bank type.

Definition has_any_pending (s : t) : bool :=
  BankBuffers.has_any_pending (buf_ s).

End FrFcfsScheduler.

(** ** scheduler/fr_fcfs_grp.hpp *)

Module FrFcfsGrpScheduler.

(** A [Request*] into a bank's list: the position of the slot it points
    into, with the pointee.  Two pointers are equal when the positions
    are. *)
Definition Ptr : Type := nat * Request.t.

Definition pointers (buffer : list Request.t) : list Ptr := imap pair buffer.

Record t := mk {
  config_ : SchedulerConfig.t;
  buf_ : BankBuffers.t;
  last_command_ : RequestType;
  requests_selected_ : Z;      (* uint64_t *)
  row_hits_ : Z;               (* uint64_t *)
  grouping_decisions_ : Z      (* uint64_t *)
}.

Definition create (config : SchedulerConfig.t) : t :=
  mk config (BankBuffers.create (SchedulerConfig.num_banks config))
     READ 0 0 0.

Definition has_space (s : t) (count : Z) : bool :=
  BankBuffers.has_space (SchedulerConfig.buffer_size (config_ s)) (buf_ s) count.

Definition store (s : t) (request : Request.t) : option t :=
  b ← BankBuffers.store (buf_ s) request;
  Some (mk (config_ s) b (last_command_ s) (requests_selected_ s)
           (row_hits_ s) (grouping_decisions_ s)).

(** [remove] first records the type of the removed request in
    [last_command_], whether or not the request is found. *)
Definition remove (s : t) (request : Request.t) : option t :=
  b ← BankBuffers.remove (buf_ s) request;
  Some (mk (config_ s) b (Request.type request) (requests_selected_ s)
           (row_hits_ s) (grouping_decisions_ s)).

Definition occupancy (s : t) : Z := BankBuffers.occupancy (buf_ s).

(** [has_address_hazard(candidates, target)]: walk the candidates up to
    the target itself; one with the target's address is a hazard. *)
Fixpoint has_address_hazard (candidates : list Ptr) (target : Ptr) : bool :=
  match candidates with
  | [] => false
  | req :: rest =>
      if bool_decide (req.1 = target.1) then false
      else if Request.address req.2 =? Request.address target.2 then true
      else has_address_hazard rest target
  end.

(** Step 2 and 3 of [get_next]: the first row hit of the type of
    [last_command_] that has no address hazard among [row_hits]. *)
Fixpoint find_grouped (row_hits : list Ptr) (last : RequestType)
    (todo : list Ptr) : option Ptr :=
  match todo with
  | [] => None
  | req :: rest =>
      if bool_decide (Request.type req.2 = last)
         && negb (has_address_hazard row_hits req)
      then Some req
      else find_grouped row_hits last rest
  end.

(** The result is the selected pointer ([None] for [nullptr]) and the
    scheduler with the counters the [const_cast]s advance.  The
    [last_cmd] argument is unused: the grouping follows the member
    [last_command_]. *)
Definition get_next (s : t) (bank : Z) (open_row : option Z)
    (last_cmd : RequestType) : option (option Ptr * t) :=
  buffer ← BankBuffers.buffers_ (buf_ s) !! Z.to_nat bank;
  match buffer with
  | [] => Some (None, s)
  | front :: _ =>
      let row_hits :=
        match open_row with
        | Some row =>
            filter (fun p : Ptr => Request.row p.2 = row) (pointers buffer)
        | None => []
        end in
      match row_hits with
      | first_hit :: _ =>
          match find_grouped row_hits (last_command_ s) row_hits with
          | Some req =>
              Some (Some req,
                    mk (config_ s) (buf_ s) (last_command_ s)
                       (u64 (requests_selected_ s + 1))
                       (u64 (row_hits_ s + 1))
                       (u64 (grouping_decisions_ s + 1)))
          | None =>
              Some (Some first_hit,
                    mk (config_ s) (buf_ s) (last_command_ s)
                       (u64 (requests_selected_ s + 1))
                       (u64 (row_hits_ s + 1))
                       (grouping_decisions_ s))
          end
      | [] =>
          Some (Some (0%nat, front),
                mk (config_ s) (buf_ s) (last_command_ s)
                   (u64 (requests_selected_ s + 1))
                   (row_hits_ s) (grouping_decisions_ s))
      end
  end.

Definition has_row_hit (s : t) (bank row : Z) (type : RequestType)
    : option bool :=
  buffer ← BankBuffers.buffers_ (buf_ s) !! Z.to_nat bank;
  Some (FrFcfsScheduler.has_row_hit_from 0 row buffer).

Definition has_pending (s : t) (bank : Z) (type : RequestType)
    : option bool :=
  BankBuffers.has_pending (buf_ s) bank type.

Definition has_any_pending (s : t) : bool :=
  BankBuffers.has_any_pending (buf_ s).

End FrFcfsGrpScheduler.

(** ** technology/lpddr5/lpddr5_controller.hpp *)

(** [IMemoryController::Violation]; the two strings are left out, no
    code of the repository appends a violation. *)
Record Violation := mkViolation {
  violation_cycle : Z;
  violation_channel : Z;
  violation_bank : Z
}.

Module LPDDR5Bank.

Record t := mk {
  state : BankState;
  open_row : Z;                (* Row *)
  state_until : Z;             (* Cycle *)
  next_act : Z;                (* Cycle *)
  next_rd : Z;                 (* Cycle *)
  next_wr : Z;                 (* Cycle *)
  next_pre : Z                 (* Cycle *)
}.

(** [LPDDR5Bank{}] *)
Definition default : t := mk IDLE 0 0 0 0 0 0.

Definition is_ready_for (b : t) (type : RequestType) (now : Z) : bool :=
  if bool_decide (state b <> ACTIVE) then false
  else match type with
       | READ => next_rd b <=? now
       | WRITE => next_wr b <=? now
       end.

End LPDDR5Bank.

Module BehavioralLPDDR5Controller.

Record t := mk {
  config_ : ControllerConfig.t;
  current_cycle_ : Z;          (* Cycle *)
  next_id_ : Z;                (* RequestId *)
  stats_ : Statistics.t;
  tracing_ : bool;
  violations_ : list Violation
}.

Definition create (config : ControllerConfig.t) : t :=
  mk config 0 1 Statistics.initial false [].

(** The result is the trace of the call, the returned
    [std::optional<RequestId>] and the controller afterwards. *)
Definition submit (c : t) (request : Request.t)
    : list Event * option Z * t :=
  let request := Request.set_id (next_id_ c) request in
  let latency :=
    match Request.type request with
    | READ => TimingParams.fixed_read_latency (ControllerConfig.timing (config_ c))
    | WRITE => TimingParams.fixed_write_latency (ControllerConfig.timing (config_ c))
    end in
  let stats :=
    match Request.type request with
    | READ => Statistics.count_read latency (stats_ c)
    | WRITE => Statistics.count_write latency (stats_ c)
    end in
  let trace :=
    match Request.callback request with
    | Some cb => [Completion cb latency]
    | None => []
    end in
  (trace, Some (Request.id request),
   mk (config_ c) (current_cycle_ c) (u64 (next_id_ c + 1)) stats
      (tracing_ c) (violations_ c)).

Definition can_accept (c : t) : bool := true.
Definition has_pending (c : t) : bool := false.
Definition pending_count (c : t) : Z := 0.

(** [void tick() override { current_cycle_++; }] *)
Definition tick (c : t) : list Event * t :=
  ([], mk (config_ c) (u64 (current_cycle_ c + 1)) (next_id_ c) (stats_ c)
          (tracing_ c) (violations_ c)).

(** [IMemoryController::tick(Cycle n)]: [n] calls of [tick()]. *)
Fixpoint tick_n (n : nat) (c : t) : list Event * t :=
  match n with
  | O => ([], c)
  | S n' =>
      let '(tr1, c1) := tick c in
      let '(tr2, c2) := tick_n n' c1 in
      (tr1 ++ tr2, c2)
  end.

(** [void drain() override {}] *)
Definition drain (c : t) : list Event * t := ([], c).

Definition reset (c : t) : t :=
  mk (config_ c) 0 (next_id_ c) (Statistics.reset (stats_ c))
     (tracing_ c) (violations_ c).

Definition cycle (c : t) : Z := current_cycle_ c.

End BehavioralLPDDR5Controller.

Module TransactionalLPDDR5Controller.

(** [struct PendingRequest] *)
Record PendingRequest := mk_pending {
  request : Request.t;
  complete_cycle : Z           (* Cycle *)
}.

(** [pending_] is a [std::queue]: [push] appends at the end of the
    list, [front] and [pop] work on its head.  The random engine
    [rng_] and the distribution [latency_dist_] are left out: they are
    read by [estimate_latency] only, whose result is an argument of
    [submit] here. *)
Record t := mk {
  config_ : ControllerConfig.t;
  current_cycle_ : Z;          (* Cycle *)
  next_id_ : Z;                (* RequestId *)
  pending_ : list PendingRequest;
  stats_ : Statistics.t;
  tracing_ : bool;
  violations_ : list Violation
}.

Definition create (config : ControllerConfig.t) : t :=
  mk config 0 1 [] Statistics.initial false [].

(** [submit], with [latency] the [Cycle] that the call of
    [estimate_latency] returns: the returned
    [std::optional<RequestId>] and the controller afterwards. *)
Definition submit (c : t) (request : Request.t) (latency : Z)
    : option Z * t :=
  if ControllerConfig.queue_depth (config_ c)
       <=? Z.of_nat (length (pending_ c))
  then (None, c)
  else
    let request :=
      Request.set_submit_cycle (current_cycle_ c)
        (Request.set_id (next_id_ c) request) in
    (Some (Request.id request),
     mk (config_ c) (current_cycle_ c) (u64 (next_id_ c + 1))
        (pending_ c ++ [mk_pending request (u64 (current_cycle_ c + latency))])
        (stats_ c) (tracing_ c) (violations_ c)).

Definition can_accept (c : t) : bool :=
  Z.of_nat (length (pending_ c))
    <? ControllerConfig.queue_depth (config_ c).

Definition has_pending (c : t) : bool :=
  match pending_ c with [] => false | _ => true end.

Definition pending_count (c : t) : Z := Z.of_nat (length (pending_ c)).

(** The loop of [tick] at cycle [now]: the callbacks called, the queue
    and the statistics afterwards. *)
Fixpoint complete_ready (now : Z) (pending : list PendingRequest)
    (stats : Statistics.t)
    : list Event * list PendingRequest * Statistics.t :=
  match pending with
  | [] => ([], [], stats)
  | pr :: rest =>
      if complete_cycle pr <=? now then
        let latency := u64 (now - Request.submit_cycle (request pr)) in
        let stats :=
          match Request.type (request pr) with
          | READ => Statistics.count_read latency stats
          | WRITE => Statistics.count_write latency stats
          end in
        let trace :=
          match Request.callback (request pr) with
          | Some cb => [Completion cb latency]
          | None => []
          end in
        let '(tr, pending', stats') := complete_ready now rest stats in
        (trace ++ tr, pending', stats')
      else ([], pending, stats)
  end.

Definition tick (c : t) : list Event * t :=
  let now := u64 (current_cycle_ c + 1) in
  let '(tr, pending, stats) := complete_ready now (pending_ c) (stats_ c) in
  (tr, mk (config_ c) now (next_id_ c) pending stats
          (tracing_ c) (violations_ c)).

(** [IMemoryController::tick(Cycle n)]: [n] calls of [tick()]. *)
Fixpoint tick_n (n : nat) (c : t) : list Event * t :=
  match n with
  | O => ([], c)
  | S n' =>
      let '(tr1, c1) := tick c in
      let '(tr2, c2) := tick_n n' c1 in
      (tr1 ++ tr2, c2)
  end.

(** [drain]: [tick] while the queue holds a request, at most [fuel]
    times; [None] when the fuel does not suffice. *)
Fixpoint drain (fuel : nat) (c : t) : option (list Event * t) :=
  match pending_ c with
  | [] => Some ([], c)
  | _ :: _ =>
      match fuel with
      | O => None
      | S fuel' =>
          let '(tr1, c1) := tick c in
          '(tr2, c2) ← drain fuel' c1;
          Some (tr1 ++ tr2, c2)
      end
  end.

Definition reset (c : t) : t :=
  mk (config_ c) 0 (next_id_ c) [] (Statistics.reset (stats_ c))
     (tracing_ c) (violations_ c).

Definition cycle (c : t) : Z := current_cycle_ c.

Definition set_cycle (c : t) (v : Z) : t :=
  mk (config_ c) v (next_id_ c) (pending_ c) (stats_ c)
     (tracing_ c) (violations_ c).

End TransactionalLPDDR5Controller.

Module CycleAccurateLPDDR5Controller.

(** [refresh_] is left out: the constructor never creates a refresh
    manager and no member function reads the pointer. *)
Record t := mk {
  config_ : ControllerConfig.t;
  current_cycle_ : Z;          (* Cycle *)
  next_id_ : Z;                (* RequestId *)
  banks_ : list LPDDR5Bank.t;
  scheduler_ : FrFcfsScheduler.t;
  last_command_ : RequestType;
  last_read_cycle_ : Z;        (* Cycle *)
  last_write_cycle_ : Z;       (* Cycle *)
  stats_ : Statistics.t;
  tracing_ : bool;
  check_invariants_ : bool;
  violations_ : list Violation
}.

Definition timing (c : t) : TimingParams.t :=
  ControllerConfig.timing (config_ c).

(** The number of banks the constructor allocates:
    [num_channels * banks_per_rank()], an [int] product. *)
Definition bank_count (config : ControllerConfig.t) : Z :=
  OrganizationParams.num_channels (ControllerConfig.organization config)
  * OrganizationParams.banks_per_rank (ControllerConfig.organization config).

(** The constructor.  The scheduler is always an [FrFcfsScheduler] with
    [buffer_size = queue_depth] and
    [num_banks = static_cast<uint8_t>(banks_.size())]. *)
Definition create (config : ControllerConfig.t) : t :=
  let sched_config :=
    SchedulerConfig.mk FR_FCFS BANKWISE
      (ControllerConfig.queue_depth config) 16 16 8 4
      (u8 (bank_count config)) in
  mk config 0 1
     (replicate (Z.to_nat (bank_count config)) LPDDR5Bank.default)
     (FrFcfsScheduler.create sched_config)
     READ 0 0 Statistics.initial false false [].

(** The mask [n - 1] of [addr & (n - 1)] for a [uint8_t] [n]: the
    subtraction is done in [int] and the result converted to
    [uint64_t]. *)
Definition mask_below (n : Z) : Z := int_to_u64 (n - 1).

(** [decode_address]: column in bits 0..9, bank above it, the row in the
    16 bits from bit 14, the channel from bit 30.  [rank] and
    [bank_group] are not assigned. *)
Definition decode_address (c : t) (request : Request.t) : Request.t :=
  let org := ControllerConfig.organization (config_ c) in
  let addr := Request.address request in
  let column := u16 (Z.land addr (Z.shiftl 1 10 - 1)) in
  let addr := Z.shiftr addr 10 in
  let bank :=
    u8 (Z.land addr (mask_below (OrganizationParams.banks_per_rank org))) in
  let addr := Z.shiftr addr 4 in
  let row := u32 (Z.land addr (Z.shiftl 1 16 - 1)) in
  let addr := Z.shiftr addr 16 in
  let channel :=
    u8 (Z.land addr (mask_below (OrganizationParams.num_channels org))) in
  Request.set_decoded channel bank row column request.

Definition with_scheduler (c : t) (s : FrFcfsScheduler.t) : t :=
  mk (config_ c) (current_cycle_ c) (next_id_ c) (banks_ c) s
     (last_command_ c) (last_read_cycle_ c) (last_write_cycle_ c)
     (stats_ c) (tracing_ c) (check_invariants_ c) (violations_ c).

Definition with_banks (c : t) (bs : list LPDDR5Bank.t) : t :=
  mk (config_ c) (current_cycle_ c) (next_id_ c) bs (scheduler_ c)
     (last_command_ c) (last_read_cycle_ c) (last_write_cycle_ c)
     (stats_ c) (tracing_ c) (check_invariants_ c) (violations_ c).

Definition with_stats (c : t) (st : Statistics.t) : t :=
  mk (config_ c) (current_cycle_ c) (next_id_ c) (banks_ c) (scheduler_ c)
     (last_command_ c) (last_read_cycle_ c) (last_write_cycle_ c)
     st (tracing_ c) (check_invariants_ c) (violations_ c).

(** The parameter of [submit] as it is when [store] is called: the id,
    the submit cycle and the decoded address filled in.  The scheduler
    is handed its address, not a copy. *)
Definition stamp (c : t) (request : Request.t) : Request.t :=
  decode_address c
    (Request.set_submit_cycle (current_cycle_ c)
       (Request.set_id (next_id_ c) request)).

(** [submit].  The result is the returned [std::optional<RequestId>]
    and the controller afterwards. *)
Definition submit (c : t) (request : Request.t) : option (option Z * t) :=
  if negb (FrFcfsScheduler.has_space (scheduler_ c) 1) then Some (None, c)
  else
    let request := stamp c request in
    s ← FrFcfsScheduler.store (scheduler_ c) request;
    Some (Some (Request.id request),
          mk (config_ c) (current_cycle_ c) (u64 (next_id_ c + 1)) (banks_ c)
             s (last_command_ c) (last_read_cycle_ c) (last_write_cycle_ c)
             (stats_ c) (tracing_ c) (check_invariants_ c) (violations_ c)).

Definition can_accept (c : t) : bool :=
  FrFcfsScheduler.has_space (scheduler_ c) 1.

Definition has_pending (c : t) : bool :=
  FrFcfsScheduler.has_any_pending (scheduler_ c).

Definition pending_count (c : t) : Z :=
  FrFcfsScheduler.occupancy (scheduler_ c).

(** The body of the loop of [update_bank_states]. *)
Definition update_bank (now : Z) (b : LPDDR5Bank.t) : LPDDR5Bank.t :=
  let 'LPDDR5Bank.mk st orow until nact nrd nwr npre := b in
  if until <=? now then
    match st with
    | ACTIVATING => LPDDR5Bank.mk ACTIVE orow until nact nrd nwr npre
    | PRECHARGING => LPDDR5Bank.mk IDLE 0 until nact nrd nwr npre
    | READING | WRITING => LPDDR5Bank.mk ACTIVE orow until nact nrd nwr npre
    | REFRESHING => LPDDR5Bank.mk IDLE orow until nact nrd nwr npre
    | IDLE | ACTIVE => b
    end
  else b.

Definition update_bank_states (c : t) : t :=
  with_banks c (update_bank (current_cycle_ c) <$> banks_ c).

(** The bank after an ACT for [req] at cycle [now]. *)
Definition activate (tp : TimingParams.t) (now : Z) (req : Request.t)
    (b : LPDDR5Bank.t) : LPDDR5Bank.t :=
  LPDDR5Bank.mk ACTIVATING (Request.row req)
    (u64 (now + TimingParams.tRCD tp))
    (u64 (now + TimingParams.tRC tp))
    (u64 (now + TimingParams.tRCD tp))
    (u64 (now + TimingParams.tRCD tp))
    (LPDDR5Bank.next_pre b).

(** The bank after a RD at cycle [now]. *)
Definition start_read (tp : TimingParams.t) (now : Z) (b : LPDDR5Bank.t)
    : LPDDR5Bank.t :=
  LPDDR5Bank.mk READING (LPDDR5Bank.open_row b)
    (u64 (now + TimingParams.tBurst tp))
    (LPDDR5Bank.next_act b)
    (u64 (now + TimingParams.tCCD_S tp))
    (u64 (now + TimingParams.tRTW tp))
    (LPDDR5Bank.next_pre b).

(** The bank after a WR at cycle [now]. *)
Definition start_write (tp : TimingParams.t) (now : Z) (b : LPDDR5Bank.t)
    : LPDDR5Bank.t :=
  LPDDR5Bank.mk WRITING (LPDDR5Bank.open_row b)
    (u64 (now + TimingParams.tBurst tp))
    (LPDDR5Bank.next_act b)
    (u64 (now + TimingParams.tWTR_S tp))
    (u64 (now + TimingParams.tCCD_S tp))
    (LPDDR5Bank.next_pre b).

(** The bank after a PRE at cycle [now]. *)
Definition precharge (tp : TimingParams.t) (now : Z) (b : LPDDR5Bank.t)
    : LPDDR5Bank.t :=
  LPDDR5Bank.mk PRECHARGING (LPDDR5Bank.open_row b)
    (u64 (now + TimingParams.tRP tp))
    (u64 (now + TimingParams.tRP tp))
    (LPDDR5Bank.next_rd b) (LPDDR5Bank.next_wr b) (LPDDR5Bank.next_pre b).

(** The row-hit branch of [issue_commands] once the bank is ready:
    count the hit, start the burst, record the request, call the
    callback and take the request out of the scheduler. *)
Definition issue_cas (i : nat) (bank : LPDDR5Bank.t) (req : Request.t)
    (c : t) : option (list Event * t) :=
  let now := current_cycle_ c in
  let stats1 := Statistics.incr_page_hits (stats_ c) in
  let bank' :=
    match Request.type req with
    | READ => start_read (timing c) now bank
    | WRITE => start_write (timing c) now bank
    end in
  let latency :=
    u64 (u64 (now - Request.submit_cycle req) + TimingParams.tBurst (timing c)) in
  let stats2 := Statistics.record_request (Request.type req) latency true false stats1 in
  let completion :=
    match Request.callback req with
    | Some cb => [Completion cb latency]
    | None => []
    end in
  s ← FrFcfsScheduler.remove (scheduler_ c) req;
  Some (Issue (match Request.type req with READ => RD | WRITE => WR end) i
          :: completion,
        mk (config_ c) now (next_id_ c) (<[i := bank']> (banks_ c)) s
           (Request.type req)
           (match Request.type req with
            | READ => now | WRITE => last_read_cycle_ c end)
           (match Request.type req with
            | READ => last_write_cycle_ c | WRITE => now end)
           stats2 (tracing_ c) (check_invariants_ c) (violations_ c)).

(** One iteration of the loop of [issue_commands], for the bank at
    index [i]. *)
Definition issue_bank (i : nat) (c : t) : option (list Event * t) :=
  bank ← banks_ c !! i;
  let bank_idx := u8 (Z.of_nat i) in
  let row_opt :=
    if bool_decide (LPDDR5Bank.state bank = ACTIVE)
    then Some (LPDDR5Bank.open_row bank) else None in
  '(next, s) ← FrFcfsScheduler.get_next (scheduler_ c) bank_idx row_opt
                 (last_command_ c);
  let c := with_scheduler c s in
  let now := current_cycle_ c in
  match next with
  | None => Some ([], c)
  | Some req =>
      if bool_decide (LPDDR5Bank.state bank = IDLE) then
        if LPDDR5Bank.next_act bank <=? now then
          Some ([Issue ACT i],
                with_banks c (<[i := activate (timing c) now req bank]> (banks_ c)))
        else Some ([], c)
      else if bool_decide (LPDDR5Bank.state bank = ACTIVE) then
        if LPDDR5Bank.open_row bank =? Request.row req then
          if LPDDR5Bank.is_ready_for bank (Request.type req) now
          then issue_cas i bank req c
          else Some ([], c)
        else
          let c := with_stats c (Statistics.incr_page_conflicts (stats_ c)) in
          if LPDDR5Bank.next_pre bank <=? now then
            Some ([Issue PRE i],
                  with_banks c (<[i := precharge (timing c) now bank]> (banks_ c)))
          else Some ([], c)
      else Some ([], c)
  end.

(** [for (size_t i = 0; i < banks_.size(); ++i)], over the indices
    still to visit. *)
Fixpoint issue_loop (indices : list nat) (c : t) : option (list Event * t) :=
  match indices with
  | [] => Some ([], c)
  | i :: rest =>
      '(tr1, c1) ← issue_bank i c;
      '(tr2, c2) ← issue_loop rest c1;
      Some (tr1 ++ tr2, c2)
  end.

Definition issue_commands (c : t) : option (list Event * t) :=
  issue_loop (seq 0 (length (banks_ c))) c.

(** [complete_transfers] and [check_timing_invariants] have empty
    bodies. *)
Definition complete_transfers (c : t) : t := c.
Definition check_timing_invariants (c : t) : t := c.

Definition tick (c : t) : option (list Event * t) :=
  let c := mk (config_ c) (u64 (current_cycle_ c + 1)) (next_id_ c) (banks_ c)
              (scheduler_ c) (last_command_ c) (last_read_cycle_ c)
              (last_write_cycle_ c) (stats_ c) (tracing_ c)
              (check_invariants_ c) (violations_ c) in
  let c := update_bank_states c in
  '(tr, c) ← issue_commands c;
  let c := complete_transfers c in
  Some (tr, if check_invariants_ c then check_timing_invariants c else c).

(** [IMemoryController::tick(Cycle n)]: [n] calls of [tick()]. *)
Fixpoint tick_n (n : nat) (c : t) : option (list Event * t) :=
  match n with
  | O => Some ([], c)
  | S n' =>
      '(tr1, c1) ← tick c;
      '(tr2, c2) ← tick_n n' c1;
      Some (tr1 ++ tr2, c2)
  end.

(** [reset()]: the cycle, the id counter, the banks, the statistics and
    the violations; the body assigns nothing else. *)
Definition reset (c : t) : t :=
  mk (config_ c) 0 1 ((fun _ => LPDDR5Bank.default) <$> banks_ c) (scheduler_ c)
     (last_command_ c) (last_read_cycle_ c) (last_write_cycle_ c)
     (Statistics.reset (stats_ c)) (tracing_ c) (check_invariants_ c) [].

Definition cycle (c : t) : Z := current_cycle_ c.

Definition set_cycle (c : t) (v : Z) : t :=
  mk (config_ c) v (next_id_ c) (banks_ c) (scheduler_ c)
     (last_command_ c) (last_read_cycle_ c) (last_write_cycle_ c)
     (stats_ c) (tracing_ c) (check_invariants_ c) (violations_ c).

(** [bank_state(channel, bank)] *)
Definition bank_state (c : t) (channel bank : Z) : BankState :=
  let idx :=
    channel * OrganizationParams.banks_per_rank
                (ControllerConfig.organization (config_ c)) + bank in
  match banks_ c !! Z.to_nat idx with
  | Some b => LPDDR5Bank.state b
  | None => IDLE
  end.

(** [is_row_open(channel, bank, row)] *)
Definition is_row_open (c : t) (channel bank row : Z) : bool :=
  let idx :=
    channel * OrganizationParams.banks_per_rank
                (ControllerConfig.organization (config_ c)) + bank in
  match banks_ c !! Z.to_nat idx with
  | Some b =>
      bool_decide (LPDDR5Bank.state b = ACTIVE)
      && (LPDDR5Bank.open_row b =? row)
  | None => false
  end.

(** [open_row(channel, bank)]: the query, [None] for [std::nullopt]. *)
Definition open_row (c : t) (channel bank : Z) : option Z :=
  let idx :=
    channel * OrganizationParams.banks_per_rank
                (ControllerConfig.organization (config_ c)) + bank in
  match banks_ c !! Z.to_nat idx with
  | Some b =>
      if bool_decide (LPDDR5Bank.state b = ACTIVE)
      then Some (LPDDR5Bank.open_row b) else None
  | None => None
  end.

End CycleAccurateLPDDR5Controller.

(** * Specification vocabulary *)

(** [r] is the first request of [q], in arrival order, whose row is
    [row]. *)
Definition first_with_row (row : Z) (q : list Request.t) (r : Request.t)
    : Prop :=
  exists older newer,
    q = older ++ r :: newer /\
    Request.row r = row /\
    Forall (fun x => Request.row x <> row) older.

(** [r] is the oldest request of [q]. *)
Definition oldest (q : list Request.t) (r : Request.t) : Prop :=
  head q = Some r.

(** * Sample data for the concrete runs *)

Module Sample.

(** A request for bank 0 as a test of a scheduler builds it: the
    decoded row is given next to the address. *)
Definition request (id address row : Z) (type : RequestType) : Request.t :=
  Request.mk id address 64 type NORMAL 0 None 0 0 0 0 row 0.

(** A scheduler configuration with a single bank. *)
Definition one_bank : SchedulerConfig.t :=
  SchedulerConfig.mk FR_FCFS BANKWISE 32 16 16 8 4 1.

(** The schedulers after [store] of the requests of [q], in order. *)
Definition fifo_holding (q : list Request.t) : FifoScheduler.t :=
  let start := FifoScheduler.create one_bank in
  default start
    (foldl (fun s r => s ≫= fun s => FifoScheduler.store s r) (Some start) q).

Definition fr_fcfs_holding (q : list Request.t) : FrFcfsScheduler.t :=
  let start := FrFcfsScheduler.create one_bank in
  default start
    (foldl (fun s r => s ≫= fun s => FrFcfsScheduler.store s r) (Some start) q).

Definition grp_holding (q : list Request.t) : FrFcfsGrpScheduler.t :=
  let start := FrFcfsGrpScheduler.create one_bank in
  default start
    (foldl (fun s r => s ≫= fun s => FrFcfsGrpScheduler.store s r) (Some start) q).

(** The LPDDR5-6400 configuration of the example programs: one channel,
    sixteen banks, a queue of 32. *)
Definition lpddr5_config (fidelity : Fidelity) : ControllerConfig.t :=
  ControllerConfig.mk LPDDR5 fidelity 6400 32 timing_presets.lpddr5_6400
    OrganizationParams.default ROW_BANK_COLUMN false true false.

(** [IMemoryController::read] and [write]: the request they build. *)
Definition read_request (address size : Z) (cb : option CallbackId)
    : Request.t :=
  Request.mk 0 address size READ NORMAL 0 cb 0 0 0 0 0 0.

Definition write_request (address size : Z) (cb : option CallbackId)
    : Request.t :=
  Request.mk 0 address size WRITE NORMAL 0 cb 0 0 0 0 0 0.

(** The same controller over banks of 1024 rows. *)
Definition small_rows_config : ControllerConfig.t :=
  ControllerConfig.mk LPDDR5 CYCLE_ACCURATE 6400 32 timing_presets.lpddr5_6400
    (OrganizationParams.mk 1 1 4 4 1024 1024 16 1 16)
    ROW_BANK_COLUMN false true false.

(** The LPDDR5-6400 controller with a read of address 0 (bank 0) queued,
    and with a read of address 1024 (bank 1) queued after it. *)
Definition one_queued : CycleAccurateLPDDR5Controller.t :=
  let start :=
    CycleAccurateLPDDR5Controller.create (lpddr5_config CYCLE_ACCURATE) in
  default start
    (snd <$> CycleAccurateLPDDR5Controller.submit start (read_request 0 64 None)).

Definition two_queued : CycleAccurateLPDDR5Controller.t :=
  default one_queued
    (snd <$> CycleAccurateLPDDR5Controller.submit one_queued
               (read_request 1024 64 None)).

(** One tick after [two_queued]. *)
Definition two_activated : CycleAccurateLPDDR5Controller.t :=
  default two_queued (snd <$> CycleAccurateLPDDR5Controller.tick two_queued).

(** The LPDDR5-6400 controller at cycle 18, put together field by field
    and not through [submit]: bank 0 was activated on row 0 in cycle 1
    (ACTIVATING until 19, [next_act = 61], [next_rd = next_wr = 19],
    [next_pre = 0]) and the scheduler was handed, by [store], a READ of
    row 0 of bank 0 that is still alive. *)
Definition read_ready : CycleAccurateLPDDR5Controller.t :=
  let start :=
    CycleAccurateLPDDR5Controller.create (lpddr5_config CYCLE_ACCURATE) in
  CycleAccurateLPDDR5Controller.mk (lpddr5_config CYCLE_ACCURATE) 18 2
    (<[0%nat := LPDDR5Bank.mk ACTIVATING 0 19 61 19 19 0]>
       (CycleAccurateLPDDR5Controller.banks_ start))
    (default (CycleAccurateLPDDR5Controller.scheduler_ start)
       (FrFcfsScheduler.store (CycleAccurateLPDDR5Controller.scheduler_ start)
          (Request.mk 1 0 64 READ NORMAL 0 (Some 7%nat) 0 0 0 0 0 0)))
    READ 0 0 Statistics.initial false false [].

End Sample.

(** Pointers in the order of the slots they point to. *)
Definition by_slot : relation FrFcfsGrpScheduler.Ptr :=
  fun a b => (a.1 < b.1)%nat.

(** The request [p] points to is in [buffer] at the position of [p], and
    no request queued before it has its address. *)
Definition no_older_same_address (buffer : list Request.t)
    (p : FrFcfsGrpScheduler.Ptr) : Prop :=
  buffer !! p.1 = Some p.2 /\
  forall j x,
    (j < p.1)%nat -> buffer !! j = Some x ->
    Request.address x <> Request.address p.2.

(** Requests of the queue with one address have one row, as they have
    when the rows are decoded from the addresses. *)
Definition rows_follow_addresses (buffer : list Request.t) : Prop :=
  forall x y,
    x ∈ buffer -> y ∈ buffer ->
    Request.address x = Request.address y -> Request.row x = Request.row y.

(** C5 as the specification words it: whatever the queue of the bank,
    the request [get_next] returns has no older request of its address
    in the queue. *)
Definition grp_never_returns_blocked : Prop :=
  forall (s : FrFcfsGrpScheduler.t) (bank : Z) (open_row : option Z)
         (last_cmd : RequestType) (buffer : list Request.t)
         (p : FrFcfsGrpScheduler.Ptr) (s' : FrFcfsGrpScheduler.t),
    BankBuffers.buffers_ (FrFcfsGrpScheduler.buf_ s) !! Z.to_nat bank
      = Some buffer ->
    FrFcfsGrpScheduler.get_next s bank open_row last_cmd = Some (Some p, s') ->
    no_older_same_address buffer p.

(** ** Reading a trace *)

Definition command_of (e : Event) : option (Command * nat) :=
  match e with
  | Issue cmd i => Some (cmd, i)
  | Completion _ _ => None
  end.

(** The commands of a trace, with the bank each one went to. *)
Definition commands (tr : list Event) : list (Command * nat) :=
  omap command_of tr.

(** The commands of a trace that went to bank [i]. *)
Definition commands_on (i : nat) (tr : list Event) : list Command :=
  (filter (fun cb : Command * nat => cb.2 = i) (commands tr)).*1.

(** ** The states of the cycle-accurate controller *)

(** The states a caller can bring a controller built from [config]
    into. *)
Inductive reachable (config : ControllerConfig.t)
    : CycleAccurateLPDDR5Controller.t -> Prop :=
| reachable_create :
    reachable config (CycleAccurateLPDDR5Controller.create config)
| reachable_submit c request ret c' :
    reachable config c ->
    CycleAccurateLPDDR5Controller.submit c request = Some (ret, c') ->
    reachable config c'
| reachable_tick c tr c' :
    reachable config c ->
    CycleAccurateLPDDR5Controller.tick c = Some (tr, c') ->
    reachable config c'
| reachable_reset c :
    reachable config c ->
    reachable config (CycleAccurateLPDDR5Controller.reset c)
| reachable_set_cycle c v :
    reachable config c -> 0 <= v < 2 ^ 64 ->
    reachable config (CycleAccurateLPDDR5Controller.set_cycle c v).

(** A configuration under which the constructor builds as many request
    lists as banks: the bank count is positive and fits the [uint8_t]
    of [SchedulerConfig::num_banks]. *)
Definition config_ok (config : ControllerConfig.t) : Prop :=
  0 < CycleAccurateLPDDR5Controller.bank_count config < 2 ^ 8 /\
  0 <= ControllerConfig.queue_depth config < 2 ^ 32.

(** A scheduler over [n] banks and a buffer of [depth] slots in order:
    one request list and one depth per bank, every queued request in the
    list of its decoded bank, and the occupancy counter equal to the
    number of queued requests, within [depth]. *)
Record sched_wf (n : nat) (depth : Z) (s : FrFcfsScheduler.t) : Prop :=
  mk_sched_wf {
  wf_buffers :
    length (BankBuffers.buffers_ (FrFcfsScheduler.buf_ s)) = n;
  wf_depths :
    length (BankBuffers.buffer_depths_ (FrFcfsScheduler.buf_ s)) = n;
  wf_bank_of :
    forall i q r,
      BankBuffers.buffers_ (FrFcfsScheduler.buf_ s) !! i = Some q ->
      r ∈ q -> Request.bank r = Z.of_nat i;
  wf_occupancy :
    BankBuffers.total_occupancy_ (FrFcfsScheduler.buf_ s)
    = Z.of_nat (length (concat (BankBuffers.buffers_ (FrFcfsScheduler.buf_ s))));
  wf_buffer_size :
    SchedulerConfig.buffer_size (FrFcfsScheduler.config_ s) = depth;
  wf_within_depth :
    BankBuffers.total_occupancy_ (FrFcfsScheduler.buf_ s) <= depth
}.

(** What the constructor establishes under [config_ok] and [submit],
    [tick], [reset] and [set_cycle] keep. *)
Record wf (c : CycleAccurateLPDDR5Controller.t) : Prop := mk_wf {
  wf_config : config_ok (CycleAccurateLPDDR5Controller.config_ c);
  wf_banks :
    Z.of_nat (length (CycleAccurateLPDDR5Controller.banks_ c))
    = CycleAccurateLPDDR5Controller.bank_count
        (CycleAccurateLPDDR5Controller.config_ c);
  wf_sched :
    sched_wf (length (CycleAccurateLPDDR5Controller.banks_ c))
      (ControllerConfig.queue_depth (CycleAccurateLPDDR5Controller.config_ c))
      (CycleAccurateLPDDR5Controller.scheduler_ c)
}.

(** The requests the scheduler of [c] holds. *)
Definition queued (c : CycleAccurateLPDDR5Controller.t) : list Request.t :=
  concat (BankBuffers.buffers_
            (FrFcfsScheduler.buf_ (CycleAccurateLPDDR5Controller.scheduler_ c))).

(** Every queued request has an id below the id counter. *)
Definition ids_below (c : CycleAccurateLPDDR5Controller.t) : Prop :=
  forall r, r ∈ queued c ->
    0 <= Request.id r < CycleAccurateLPDDR5Controller.next_id_ c.

(** ** The claims that fail, as the specification words them *)

(** C1: a call of [tick] puts at most one command on the command bus,
    over all banks. *)
Definition one_command_per_tick : Prop :=
  forall config c tr c',
    reachable config c ->
    CycleAccurateLPDDR5Controller.tick c = Some (tr, c') ->
    (length (commands tr) <= 1)%nat.

(** C8: a request whose address decodes to a row above [rows_per_bank],
    or to a bank or a channel out of range, is not accepted. *)
Definition invalid_address_rejected : Prop :=
  forall config c request ret c',
    reachable config c ->
    CycleAccurateLPDDR5Controller.submit c request = Some (ret, c') ->
    let org := ControllerConfig.organization config in
    let decoded := CycleAccurateLPDDR5Controller.decode_address c request in
    OrganizationParams.rows_per_bank org < Request.row decoded \/
    OrganizationParams.banks_per_rank org <= Request.bank decoded \/
    OrganizationParams.num_channels org <= Request.channel decoded ->
    ret = None.

(** The controller at the head of [issue_commands] within [tick]: the
    cycle advanced, the banks whose deadline has come moved on. *)
Definition entering_issue (c : CycleAccurateLPDDR5Controller.t)
    : CycleAccurateLPDDR5Controller.t :=
  CycleAccurateLPDDR5Controller.update_bank_states
    (CycleAccurateLPDDR5Controller.mk
       (CycleAccurateLPDDR5Controller.config_ c)
       (u64 (CycleAccurateLPDDR5Controller.current_cycle_ c + 1))
       (CycleAccurateLPDDR5Controller.next_id_ c)
       (CycleAccurateLPDDR5Controller.banks_ c)
       (CycleAccurateLPDDR5Controller.scheduler_ c)
       (CycleAccurateLPDDR5Controller.last_command_ c)
       (CycleAccurateLPDDR5Controller.last_read_cycle_ c)
       (CycleAccurateLPDDR5Controller.last_write_cycle_ c)
       (CycleAccurateLPDDR5Controller.stats_ c)
       (CycleAccurateLPDDR5Controller.tracing_ c)
       (CycleAccurateLPDDR5Controller.check_invariants_ c)
       (CycleAccurateLPDDR5Controller.violations_ c)).

(** Case analysis on membership in an explicit list. *)
Ltac list_cases H :=
  repeat (apply elem_of_cons in H as [->|H]);
  try (by apply elem_of_nil in H).

(** ** Vocabulary for the further properties *)

(** Serving a bank of the FIFO scheduler as a controller does: ask for
    the next request and remove it, [n] times or until the scheduler
    has none.  The result is the requests in the order served. *)
Fixpoint fifo_serve (n : nat) (s : FifoScheduler.t) (bank : Z)
    (open_row : option Z) (last_cmd : RequestType)
    : option (list Request.t * FifoScheduler.t) :=
  match n with
  | O => Some ([], s)
  | S n' =>
      '(next, s1) ← FifoScheduler.get_next s bank open_row last_cmd;
      match next with
      | None => Some ([], s1)
      | Some r =>
          s2 ← FifoScheduler.remove s1 r;
          '(served, s3) ← fifo_serve n' s2 bank open_row last_cmd;
          Some (r :: served, s3)
      end
  end.

(** The number of requests of [q] for [row]. *)
Definition row_count (row : Z) (q : list Request.t) : nat :=
  length (filter (fun r => Request.row r = row) q).

(** [c] points to a queued request for [row] of type [last] with no
    older queued request for [row] at its address: what the grouping
    step of [FrFcfsGrpScheduler::get_next] looks for. *)
Definition grouped_candidate (buffer : list Request.t) (row : Z)
    (last : RequestType) (c : FrFcfsGrpScheduler.Ptr) : Prop :=
  buffer !! c.1 = Some c.2 /\
  Request.row c.2 = row /\
  Request.type c.2 = last /\
  forall j x,
    (j < c.1)%nat -> buffer !! j = Some x -> Request.row x = row ->
    Request.address x <> Request.address c.2.

(** [c] points to the oldest queued request for [row]. *)
Definition first_row_hit (buffer : list Request.t) (row : Z)
    (c : FrFcfsGrpScheduler.Ptr) : Prop :=
  buffer !! c.1 = Some c.2 /\
  Request.row c.2 = row /\
  forall j x, (j < c.1)%nat -> buffer !! j = Some x -> Request.row x <> row.

(** One call of [Statistics::record_request]: the type, the latency and
    the two page flags. *)
Definition Record := (RequestType * Z * bool * bool)%type.

(** The statistics after the calls of [record_request] of [l], in
    order. *)
Definition record_all (l : list Record) (s : Statistics.t) : Statistics.t :=
  foldl (fun s '(ty, latency, page_hit, page_conflict) =>
           Statistics.record_request ty latency page_hit page_conflict s)
        s l.

Definition record_latency (x : Record) : Z := x.1.1.2.

#[global] Instance Command_eq_dec : EqDecision Command.
Proof. solve_decision. Defined.

(** The column commands (RD and WR) of a trace, and the completion
    callbacks it calls. *)
Definition cas_count (tr : list Event) : nat :=
  length (filter (fun cb : Command * nat => cb.1 = RD \/ cb.1 = WR)
            (commands tr)).

Definition completions (tr : list Event) : list (CallbackId * Z) :=
  omap (fun e => match e with
                 | Completion cb latency => Some (cb, latency)
                 | Issue _ _ => None
                 end) tr.

(** The request lists of the scheduler of a controller. *)
Definition buffers_of (c : CycleAccurateLPDDR5Controller.t)
    : list (list Request.t) :=
  BankBuffers.buffers_
    (FrFcfsScheduler.buf_ (CycleAccurateLPDDR5Controller.scheduler_ c)).

(** ** Vocabulary for the behavioural controller *)

(** Submitting the requests of a list one after the other to the
    behavioural controller: the trace of the calls, the ids returned
    and the controller afterwards. *)
Fixpoint behavioral_submit_all (c : BehavioralLPDDR5Controller.t)
    (requests : list Request.t)
    : list Event * list (option Z) * BehavioralLPDDR5Controller.t :=
  match requests with
  | [] => ([], [], c)
  | request :: rest =>
      let '(tr1, ret, c1) := BehavioralLPDDR5Controller.submit c request in
      let '(tr2, rets, c2) := behavioral_submit_all c1 rest in
      (tr1 ++ tr2, ret :: rets, c2)
  end.

(** The number of requests of type [ty] in a list. *)
Definition count_type (ty : RequestType) (l : list Request.t) : nat :=
  length (filter (fun r => Request.type r = ty) l).

(** The fixed latency of a request of type [ty]. *)
Definition fixed_latency (tp : TimingParams.t) (ty : RequestType) : Z :=
  match ty with
  | READ => TimingParams.fixed_read_latency tp
  | WRITE => TimingParams.fixed_write_latency tp
  end.

(** ** Vocabulary for the transactional controller *)

(** The callback event of a request completed at cycle [now], if it
    carries a callback. *)
Definition completion_at (now : Z)
    (pr : TransactionalLPDDR5Controller.PendingRequest) : option Event :=
  (fun cb =>
     Completion cb
       (u64 (now - Request.submit_cycle
                     (TransactionalLPDDR5Controller.request pr))))
  <$> Request.callback (TransactionalLPDDR5Controller.request pr).

(** The sum of the latencies, at cycle [now], of the requests of type
    [ty] in a list. *)
Definition latency_sum (ty : RequestType) (now : Z)
    (l : list TransactionalLPDDR5Controller.PendingRequest) : Z :=
  foldr (fun pr acc =>
           if bool_decide
                (Request.type (TransactionalLPDDR5Controller.request pr) = ty)
           then u64 (now - Request.submit_cycle
                             (TransactionalLPDDR5Controller.request pr)) + acc
           else acc) 0 l.

(** The latest completion cycle of a queue, 0 for an empty queue. *)
Definition latest_complete
    (l : list TransactionalLPDDR5Controller.PendingRequest) : Z :=
  foldr Z.max 0 (TransactionalLPDDR5Controller.complete_cycle <$> l).

(** The callbacks a trace calls, in order. *)
Definition callbacks (tr : list Event) : list CallbackId :=
  fst <$> completions tr.

(** ** The queued pointers and the storage behind them

    [CycleAccurateLPDDR5Controller::submit] takes its request by value
    and hands the scheduler the address of that parameter; the
    parameter is gone when [submit] returns, and the queued pointer
    keeps pointing at its storage.  What [tick] later reads through the
    pointer is whatever that storage holds by then.  A queue slot of
    the embedding is what such a read returns; [submit] of the
    embedding leaves the stamped request in it, which is the storage
    not yet written over.  The properties of [tick] below are therefore
    stated for every controller state, that is for whatever the slots
    hold, and none of them says that [tick] returns. *)

(** The storage behind the queued pointers written over: every slot
    (bank [i], position [k]) reads as [f i k] of what it read before.
    The pointers, and so the lengths of the lists and the counters, are
    as they were. *)
Definition overwrite (f : nat -> nat -> Request.t -> Request.t)
    (c : CycleAccurateLPDDR5Controller.t) : CycleAccurateLPDDR5Controller.t :=
  let s := CycleAccurateLPDDR5Controller.scheduler_ c in
  let b := FrFcfsScheduler.buf_ s in
  CycleAccurateLPDDR5Controller.with_scheduler c
    (FrFcfsScheduler.with_buf s
       (BankBuffers.mk (imap (fun i => imap (f i)) (BankBuffers.buffers_ b))
          (BankBuffers.buffer_depths_ b) (BankBuffers.total_occupancy_ b))).

(** The part of the invariant that does not look through the pointers:
    one list and one depth per bank, the occupancy counter equal to the
    number of queued pointers and within the buffer size, which is the
    queue depth. *)
Record sched_shape (n : nat) (depth : Z) (s : FrFcfsScheduler.t) : Prop :=
  mk_sched_shape {
  shape_buffers :
    length (BankBuffers.buffers_ (FrFcfsScheduler.buf_ s)) = n;
  shape_depths :
    length (BankBuffers.buffer_depths_ (FrFcfsScheduler.buf_ s)) = n;
  shape_occupancy :
    BankBuffers.total_occupancy_ (FrFcfsScheduler.buf_ s)
    = Z.of_nat (length (concat (BankBuffers.buffers_ (FrFcfsScheduler.buf_ s))));
  shape_buffer_size :
    SchedulerConfig.buffer_size (FrFcfsScheduler.config_ s) = depth;
  shape_within_depth :
    BankBuffers.total_occupancy_ (FrFcfsScheduler.buf_ s) <= depth
}.

(** A controller over 1 to 255 banks with a queue depth that fits
    [uint32_t], as many banks as its configuration asks for, and a
    scheduler of that shape. *)
Record well_shaped (c : CycleAccurateLPDDR5Controller.t) : Prop :=
  mk_well_shaped {
  shape_config : config_ok (CycleAccurateLPDDR5Controller.config_ c);
  shape_banks :
    Z.of_nat (length (CycleAccurateLPDDR5Controller.banks_ c))
    = CycleAccurateLPDDR5Controller.bank_count
        (CycleAccurateLPDDR5Controller.config_ c);
  shape_sched :
    sched_shape (length (CycleAccurateLPDDR5Controller.banks_ c))
      (ControllerConfig.queue_depth (CycleAccurateLPDDR5Controller.config_ c))
      (CycleAccurateLPDDR5Controller.scheduler_ c)
}.

(** What holds of a command [cmd] issued at cycle [now] to a bank found
    as [b] and left as [b']: the gate the bank passed and the state and
    timers the command latches, row by row of [issue_commands].  The
    row an ACT opens is read through a queued pointer and is left
    open here. *)
Definition bank_rule (tp : TimingParams.t) (now : Z) (cmd : Command)
    (b b' : LPDDR5Bank.t) : Prop :=
  match cmd with
  | ACT =>
      LPDDR5Bank.state b = IDLE /\ LPDDR5Bank.next_act b <= now /\
      exists row,
        b' = LPDDR5Bank.mk ACTIVATING row
               (u64 (now + TimingParams.tRCD tp))
               (u64 (now + TimingParams.tRC tp))
               (u64 (now + TimingParams.tRCD tp))
               (u64 (now + TimingParams.tRCD tp))
               (LPDDR5Bank.next_pre b)
  | RD =>
      LPDDR5Bank.state b = ACTIVE /\ LPDDR5Bank.next_rd b <= now /\
      b' = LPDDR5Bank.mk READING (LPDDR5Bank.open_row b)
             (u64 (now + TimingParams.tBurst tp))
             (LPDDR5Bank.next_act b)
             (u64 (now + TimingParams.tCCD_S tp))
             (u64 (now + TimingParams.tRTW tp))
             (LPDDR5Bank.next_pre b)
  | WR =>
      LPDDR5Bank.state b = ACTIVE /\ LPDDR5Bank.next_wr b <= now /\
      b' = LPDDR5Bank.mk WRITING (LPDDR5Bank.open_row b)
             (u64 (now + TimingParams.tBurst tp))
             (LPDDR5Bank.next_act b)
             (u64 (now + TimingParams.tWTR_S tp))
             (u64 (now + TimingParams.tCCD_S tp))
             (LPDDR5Bank.next_pre b)
  | PRE =>
      LPDDR5Bank.state b = ACTIVE /\ LPDDR5Bank.next_pre b <= now /\
      b' = LPDDR5Bank.mk PRECHARGING (LPDDR5Bank.open_row b)
             (u64 (now + TimingParams.tRP tp))
             (u64 (now + TimingParams.tRP tp))
             (LPDDR5Bank.next_rd b) (LPDDR5Bank.next_wr b)
             (LPDDR5Bank.next_pre b)
  | REF => False
  end.

(** A caller's steps between two resets: a [submit], a [tick], or the
    storage behind the queued pointers being written over. *)
Inductive Op :=
| Submit (request : Request.t)
| Tick
| Overwrite (f : nat -> nat -> Request.t -> Request.t).

(** Running the steps of a list in order: the ids the accepted
    [submit]s returned, in order, and the controller afterwards. *)
Fixpoint run (ops : list Op) (c : CycleAccurateLPDDR5Controller.t)
    : option (list Z * CycleAccurateLPDDR5Controller.t) :=
  match ops with
  | [] => Some ([], c)
  | Submit request :: rest =>
      '(ret, c1) ← CycleAccurateLPDDR5Controller.submit c request;
      '(ids, c2) ← run rest c1;
      Some (match ret with Some id => id :: ids | None => ids end, c2)
  | Tick :: rest =>
      '(_, c1) ← CycleAccurateLPDDR5Controller.tick c;
      run rest c1
  | Overwrite f :: rest => run rest (overwrite f c)
  end.

(** * Properties *)

(** ** The request lists of the schedulers *)

Section scheduler_queues.

Implicit Types (q buffer : list Request.t) (r req : Request.t).

Lemma find_row_hit_first row q r :
  FrFcfsScheduler.find_row_hit row q = Some r -> first_with_row row q r.
Proof.
  induction q as [|x q IH]; simpl; [discriminate|].
  destruct (Z.eqb_spec (Request.row x) row) as [Heq|Hne].
  - intros [= ->]. exists [], q. by repeat split.
  - intros Hfind. destruct (IH Hfind) as (older & newer & -> & Hrow & Hall).
    exists (x :: older), newer. repeat split; [done|]. by constructor.
Qed.

Lemma find_row_hit_none row q :
  FrFcfsScheduler.find_row_hit row q = None <->
  Forall (fun x => Request.row x <> row) q.
Proof.
  induction q as [|x q IH]; simpl.
  - split; [constructor|done].
  - destruct (Z.eqb_spec (Request.row x) row) as [Heq|Hne].
    + split; [done|]. by inversion 1.
    + rewrite IH. split; [by constructor|by inversion 1].
Qed.

End scheduler_queues.

(** C4.  For a bank whose queue is not empty, [FrFcfsScheduler::get_next]
    returns a request: with [open_row] set and some queued request for
    that row, the first such request in arrival order; with no request
    for that row, or with [open_row] not set, the oldest request of the
    queue.  The queue itself is left as it was. *)
Theorem fr_fcfs_get_next_first_ready
    (s : FrFcfsScheduler.t) (bank : Z) (open_row : option Z)
    (last_cmd : RequestType) (q : list Request.t) :
  BankBuffers.buffers_ (FrFcfsScheduler.buf_ s) !! Z.to_nat bank = Some q ->
  q <> [] ->
  exists r s',
    FrFcfsScheduler.get_next s bank open_row last_cmd = Some (Some r, s') /\
    FrFcfsScheduler.buf_ s' = FrFcfsScheduler.buf_ s /\
    match open_row with
    | Some row =>
        ((exists x, x ∈ q /\ Request.row x = row) -> first_with_row row q r) /\
        ((forall x, x ∈ q -> Request.row x <> row) -> oldest q r)
    | None => oldest q r
    end.
Proof.
  intros Hq Hne. unfold FrFcfsScheduler.get_next. rewrite Hq.
  destruct q as [|front rest]; [done|].
  destruct open_row as [row|]; cbn -[FrFcfsScheduler.find_row_hit].
  - destruct (FrFcfsScheduler.find_row_hit row (front :: rest)) as [hit|] eqn:Hfind.
    + eexists _, _. split; [done|]. split; [done|].
      split; [intros _; by apply find_row_hit_first|].
      intros Hall. apply find_row_hit_first in Hfind as (older & newer & Heq & Hrow & _).
      exfalso. apply (Hall hit); [|done]. rewrite Heq. apply elem_of_app. right. by left.
    + eexists _, _. split; [done|]. split; [done|].
      split; [|done]. intros (x & Hx & Hrow).
      apply find_row_hit_none in Hfind. rewrite list.Forall_forall in Hfind.
      by destruct (Hfind x Hx).
  - eexists _, _. by repeat split.
Qed.

(** C10.  In the three schedulers [has_pending(bank, type)] is
    [buffers_[bank].size() >= 2] whatever the request type: true exactly
    when the bank's queue holds two requests or more. *)
Theorem has_pending_needs_two
    (fifo : FifoScheduler.t) (fr : FrFcfsScheduler.t)
    (grp : FrFcfsGrpScheduler.t) (bank : Z) (type : RequestType)
    (qf qr qg : list Request.t) :
  BankBuffers.buffers_ (FifoScheduler.buf_ fifo) !! Z.to_nat bank = Some qf ->
  BankBuffers.buffers_ (FrFcfsScheduler.buf_ fr) !! Z.to_nat bank = Some qr ->
  BankBuffers.buffers_ (FrFcfsGrpScheduler.buf_ grp) !! Z.to_nat bank = Some qg ->
  FifoScheduler.has_pending fifo bank type
    = Some (bool_decide (2 <= length qf)%nat) /\
  FrFcfsScheduler.has_pending fr bank type
    = Some (bool_decide (2 <= length qr)%nat) /\
  FrFcfsGrpScheduler.has_pending grp bank type
    = Some (bool_decide (2 <= length qg)%nat).
Proof.
  intros Hf Hr Hg.
  unfold FifoScheduler.has_pending, FrFcfsScheduler.has_pending,
    FrFcfsGrpScheduler.has_pending, BankBuffers.has_pending.
  by rewrite Hf, Hr, Hg.
Qed.

Lemma fr_fcfs_get_next_first_ready_witness :
  exists r s',
    FrFcfsScheduler.get_next
      (Sample.fr_fcfs_holding
         [Sample.request 1 0 7 READ; Sample.request 2 64 9 WRITE;
          Sample.request 3 128 9 READ])
      0 (Some 9) READ = Some (Some r, s') /\
    Request.id r = 2.
Proof.
  destruct (fr_fcfs_get_next_first_ready
              (Sample.fr_fcfs_holding
                 [Sample.request 1 0 7 READ; Sample.request 2 64 9 WRITE;
                  Sample.request 3 128 9 READ])
              0 (Some 9) READ
              [Sample.request 1 0 7 READ; Sample.request 2 64 9 WRITE;
               Sample.request 3 128 9 READ])
    as (r & s' & Hnext & _ & _); [reflexivity|done|].
  exists r, s'. split; [exact Hnext|].
  vm_compute in Hnext. by injection Hnext as <- _.
Defined.

Lemma has_pending_needs_two_witness :
  FifoScheduler.has_pending
    (Sample.fifo_holding [Sample.request 1 0 7 READ]) 0 READ = Some false /\
  FrFcfsScheduler.has_pending
    (Sample.fr_fcfs_holding [Sample.request 1 0 7 READ]) 0 READ = Some false /\
  FrFcfsGrpScheduler.has_pending
    (Sample.grp_holding [Sample.request 1 0 7 READ; Sample.request 2 64 7 READ])
    0 READ = Some true.
Proof.
  destruct (has_pending_needs_two
              (Sample.fifo_holding [Sample.request 1 0 7 READ])
              (Sample.fr_fcfs_holding [Sample.request 1 0 7 READ])
              (Sample.grp_holding
                 [Sample.request 1 0 7 READ; Sample.request 2 64 7 READ])
              0 READ
              [Sample.request 1 0 7 READ] [Sample.request 1 0 7 READ]
              [Sample.request 1 0 7 READ; Sample.request 2 64 7 READ])
    as (Hf & Hr & Hg); [reflexivity..|].
  split; [|split].
  - exact Hf.
  - exact Hr.
  - exact Hg.
Defined.

(** ** The behavioral controller *)

Section behavioral.

Import BehavioralLPDDR5Controller.

(** Any number of ticks of the behavioral controller calls no callback
    and moves nothing but the cycle counter. *)
Lemma behavioral_tick_n_inert n c :
  (tick_n n c).1 = [] /\
  stats_ (tick_n n c).2 = stats_ c /\
  next_id_ (tick_n n c).2 = next_id_ c /\
  config_ (tick_n n c).2 = config_ c.
Proof.
  revert c. induction n as [|n IH]; intros c; [done|].
  simpl. specialize (IH (tick c).2). simpl in IH.
  destruct (tick_n n _) as [tr2 c2]. simpl in *.
  destruct IH as (-> & -> & -> & ->). done.
Qed.

End behavioral.

(** C6.  [BehavioralLPDDR5Controller::submit] accepts every request and,
    before it returns, calls the request's completion callback exactly
    once, with [fixed_read_latency] for a READ and [fixed_write_latency]
    for a WRITE (a request that carries no callback has none to call);
    it leaves the cycle counter alone.  [tick], [tick(n)] and [drain]
    call no callback and change no statistics. *)
Theorem behavioral_submit_completes_inline
    (c : BehavioralLPDDR5Controller.t) (request : Request.t) (n : nat) :
  let tp := ControllerConfig.timing (BehavioralLPDDR5Controller.config_ c) in
  let latency :=
    match Request.type request with
    | READ => TimingParams.fixed_read_latency tp
    | WRITE => TimingParams.fixed_write_latency tp
    end in
  (exists c',
     BehavioralLPDDR5Controller.submit c request =
       (match Request.callback request with
        | Some cb => [Completion cb latency]
        | None => []
        end,
        Some (BehavioralLPDDR5Controller.next_id_ c), c') /\
     BehavioralLPDDR5Controller.current_cycle_ c' =
       BehavioralLPDDR5Controller.current_cycle_ c) /\
  (BehavioralLPDDR5Controller.tick c).1 = [] /\
  BehavioralLPDDR5Controller.stats_ (BehavioralLPDDR5Controller.tick c).2 =
    BehavioralLPDDR5Controller.stats_ c /\
  (BehavioralLPDDR5Controller.tick_n n c).1 = [] /\
  BehavioralLPDDR5Controller.stats_ (BehavioralLPDDR5Controller.tick_n n c).2 =
    BehavioralLPDDR5Controller.stats_ c /\
  BehavioralLPDDR5Controller.drain c = ([], c).
Proof.
  intros tp latency. split; [|split; [|split; [|split; [|split]]]].
  - eexists. unfold BehavioralLPDDR5Controller.submit. simpl.
    split; [reflexivity|done].
  - done.
  - done.
  - apply behavioral_tick_n_inert.
  - apply behavioral_tick_n_inert.
  - done.
Qed.

(** Scenario S1 of the specification: one read with a callback on the
    behavioral controller with [fixed_read_latency = 80]. *)
Example behavioral_single_read :
  let config :=
    ControllerConfig.mk LPDDR5 BEHAVIORAL 6400 32
      (TimingParams.mk 18 18 42 60 17 8 34 12 8 4 8 4 32 16 8 18 8
         280 90 90 3900 5 6 216 8 15 80 100 80 90 20)
      OrganizationParams.default ROW_BANK_COLUMN false true false in
  let '(trace, ret, c) :=
    BehavioralLPDDR5Controller.submit
      (BehavioralLPDDR5Controller.create config)
      (Sample.read_request 0 64 (Some 5%nat)) in
  trace = [Completion 5%nat 80] /\ ret = Some 1 /\
  Statistics.reads (BehavioralLPDDR5Controller.stats_ c) = 1 /\
  Statistics.total_read_latency (BehavioralLPDDR5Controller.stats_ c) = 80.
Proof. by vm_compute. Qed.

(** ** The grouping scheduler *)

Section grouping.

Import FrFcfsGrpScheduler.

Implicit Types (buffer : list Request.t) (p c : Ptr) (l : list Ptr).

Lemma pointers_from_sorted k buffer :
  StronglySorted by_slot (imap (fun i x => ((k + i)%nat, x)) buffer).
Proof.
  revert k. induction buffer as [|x buffer IH]; intros k; [constructor|].
  rewrite imap_cons. apply StronglySorted_cons. split.
  - apply list.Forall_forall. intros p Hp.
    apply elem_of_lookup_imap in Hp as (i & y & -> & _).
    unfold by_slot. simpl. lia.
  - erewrite imap_ext; [apply (IH (S k))|].
    intros i y _. simpl. f_equal. lia.
Qed.

Lemma pointers_sorted buffer : StronglySorted by_slot (pointers buffer).
Proof. apply (pointers_from_sorted 0). Qed.

Lemma filter_sorted (P : Ptr -> Prop) `{!forall a, Decision (P a)} l :
  StronglySorted by_slot l -> StronglySorted by_slot (filter P l).
Proof.
  induction l as [|c l IH]; [done|].
  rewrite StronglySorted_cons. intros [Hc Hl].
  rewrite filter_cons. destruct (decide (P c)) as [HPc|HPc]; [|by apply IH].
  apply StronglySorted_cons. split; [|by apply IH].
  apply list.Forall_forall. intros p Hp.
  apply list_elem_of_filter in Hp as [_ Hp].
  rewrite list.Forall_forall in Hc. by apply Hc.
Qed.

Lemma elem_of_pointers buffer p :
  p ∈ pointers buffer <-> buffer !! p.1 = Some p.2.
Proof.
  unfold pointers. rewrite elem_of_lookup_imap. split.
  - by intros (i & y & -> & Hy).
  - intros Hp. exists p.1, p.2. by destruct p.
Qed.

(** When the walk of [has_address_hazard] over slot-ordered candidates
    finds nothing, no candidate before the target has its address. *)
Lemma no_hazard_before l p :
  StronglySorted by_slot l -> p ∈ l ->
  has_address_hazard l p = false ->
  forall c, c ∈ l -> (c.1 < p.1)%nat ->
    Request.address c.2 <> Request.address p.2.
Proof.
  induction l as [|c0 l IH]; [by intros _ ?%elem_of_nil|].
  rewrite StronglySorted_cons. intros [Hc0 Hl] Hp Hwalk c Hc Hlt.
  rewrite list.Forall_forall in Hc0. simpl in Hwalk.
  case_bool_decide as Hslot.
  - apply elem_of_cons in Hc as [->|Hc]; [lia|].
    specialize (Hc0 c Hc). unfold by_slot in Hc0. lia.
  - destruct (Z.eqb_spec (Request.address c0.2) (Request.address p.2))
      as [|Hne]; [done|].
    apply elem_of_cons in Hp as [->|Hp]; [done|].
    apply elem_of_cons in Hc as [->|Hc]; [done|].
    by apply IH.
Qed.

Lemma find_grouped_Some l last todo p :
  find_grouped l last todo = Some p ->
  p ∈ todo /\ has_address_hazard l p = false.
Proof.
  induction todo as [|c todo IH]; simpl; [done|].
  destruct (bool_decide (Request.type c.2 = last)); simpl.
  - destruct (has_address_hazard l c) eqn:Hwalk; simpl.
    + intros [? ?]%IH. split; [by right|done].
    + intros [= ->]. split; [by left|done].
  - intros [? ?]%IH. split; [by right|done].
Qed.

End grouping.

(** C5, as the code has it.  For a bank whose queue is not empty and in
    which requests of one address have one row,
    [FrFcfsGrpScheduler::get_next] returns a request of the queue that
    no older queued request shares its address with. *)
Theorem grp_get_next_hazard_guard
    (s : FrFcfsGrpScheduler.t) (bank : Z) (open_row : option Z)
    (last_cmd : RequestType) (buffer : list Request.t) :
  BankBuffers.buffers_ (FrFcfsGrpScheduler.buf_ s) !! Z.to_nat bank
    = Some buffer ->
  buffer <> [] ->
  rows_follow_addresses buffer ->
  exists p s',
    FrFcfsGrpScheduler.get_next s bank open_row last_cmd = Some (Some p, s') /\
    no_older_same_address buffer p.
Proof.
  intros Hbuf Hne Hrows. unfold FrFcfsGrpScheduler.get_next. rewrite Hbuf.
  destruct buffer as [|front rest] eqn:Hshape; [done|]. rewrite <- Hshape in *.
  cbn -[FrFcfsGrpScheduler.pointers filter].
  set (row_hits := match open_row with
                   | Some row => filter _ (FrFcfsGrpScheduler.pointers buffer)
                   | None => []
                   end).
  assert (Hhits : forall p, p ∈ row_hits ->
            exists row, open_row = Some row /\ Request.row p.2 = row /\
                        buffer !! p.1 = Some p.2).
  { intros p Hp. subst row_hits. destruct open_row as [row|];
      [|by apply elem_of_nil in Hp].
    apply list_elem_of_filter in Hp as [Hrow Hp].
    apply elem_of_pointers in Hp. by exists row. }
  assert (Hall : forall row j x, open_row = Some row ->
            buffer !! j = Some x -> Request.row x = row -> (j, x) ∈ row_hits).
  { intros row j x -> Hx Hrow. subst row_hits.
    apply list_elem_of_filter. split; [done|]. by apply elem_of_pointers. }
  assert (Hsorted : StronglySorted by_slot row_hits).
  { subst row_hits. destruct open_row; [|constructor].
    apply filter_sorted, pointers_sorted. }
  (* a row hit is clear of older requests once it is clear of older hits *)
  assert (Hclear : forall p, p ∈ row_hits ->
            (forall c, c ∈ row_hits -> (c.1 < p.1)%nat ->
               Request.address c.2 <> Request.address p.2) ->
            no_older_same_address buffer p).
  { intros p Hp Holder. destruct (Hhits p Hp) as (row & Hopen & Hrow & Hslot).
    split; [done|]. intros j x Hlt Hx Haddr.
    assert (Request.row x = row) as Hxrow.
    { rewrite <- Hrow.
      apply Hrows; [by eapply list_elem_of_lookup_2..|done]. }
    by apply (Holder (j, x) (Hall row j x Hopen Hx Hxrow)). }
  clearbody row_hits. destruct row_hits as [|first_hit more] eqn:Hrh.
  - eexists _, _. split; [rewrite Hshape; reflexivity|].
    split; [by rewrite Hshape|]. simpl. lia.
  - rewrite <- Hrh in *.
    destruct (FrFcfsGrpScheduler.find_grouped row_hits _ row_hits)
      as [p|] eqn:Hgrp.
    + eexists _, _. split; [by rewrite Hshape|].
      apply find_grouped_Some in Hgrp as [Hp Hwalk].
      apply Hclear; [done|]. by apply no_hazard_before.
    + eexists _, _. split; [by rewrite Hshape|].
      apply Hclear; [rewrite Hrh; by left|].
      intros c Hc Hlt. exfalso. rewrite Hrh in Hc, Hsorted.
      apply StronglySorted_cons in Hsorted as [Hfirst _].
      rewrite list.Forall_forall in Hfirst.
      apply elem_of_cons in Hc as [->|Hc]; [lia|].
      specialize (Hfirst c Hc). unfold by_slot in Hfirst. lia.
Qed.

Lemma grp_get_next_hazard_guard_witness :
  exists p s',
    FrFcfsGrpScheduler.get_next
      (Sample.grp_holding
         [Sample.request 1 0 5 WRITE; Sample.request 2 64 5 READ;
          Sample.request 3 0 5 READ])
      0 (Some 5) WRITE = Some (Some p, s') /\
    p.1 = 1%nat /\ Request.id p.2 = 2.
Proof.
  destruct (grp_get_next_hazard_guard
              (Sample.grp_holding
                 [Sample.request 1 0 5 WRITE; Sample.request 2 64 5 READ;
                  Sample.request 3 0 5 READ])
              0 (Some 5) WRITE
              [Sample.request 1 0 5 WRITE; Sample.request 2 64 5 READ;
               Sample.request 3 0 5 READ])
    as (p & s' & Hnext & _).
  - reflexivity.
  - done.
  - intros x y Hx Hy _. list_cases Hx; list_cases Hy; reflexivity.
  - exists p, s'. split; [exact Hnext|].
    vm_compute in Hnext. by injection Hnext as <- _.
Defined.

(** C5 as worded fails on a queue that holds one address under two
    rows: with [(address 4096, row 1)] queued before
    [(address 4096, row 2)] and row 2 open, [get_next] returns the
    second request while the first is still queued. *)
Lemma grp_returns_blocked_request : ~ grp_never_returns_blocked.
Proof.
  intros Hnever.
  destruct (Hnever
              (Sample.grp_holding
                 [Sample.request 1 4096 1 READ; Sample.request 2 4096 2 READ])
              0 (Some 2) READ
              [Sample.request 1 4096 1 READ; Sample.request 2 4096 2 READ]
              (1%nat, Sample.request 2 4096 2 READ)
              _ eq_refl eq_refl) as [_ Hno].
  apply (Hno 0%nat (Sample.request 1 4096 1 READ)); [simpl; lia|done..].
Qed.

(** ** Concrete runs of the cycle-accurate controller *)

Section runs.

Import CycleAccurateLPDDR5Controller.

(** The LPDDR5-6400 controller with reads of bank 0 and of bank 1
    queued, nothing ticked yet: the first tick activates both banks. *)
Lemma two_banks_queued :
  reachable (Sample.lpddr5_config CYCLE_ACCURATE) Sample.two_queued /\
  submit (create (Sample.lpddr5_config CYCLE_ACCURATE))
    (Sample.read_request 0 64 None) = Some (Some 1, Sample.one_queued) /\
  submit Sample.one_queued (Sample.read_request 1024 64 None)
    = Some (Some 2, Sample.two_queued) /\
  fst <$> tick Sample.two_queued = Some [Issue ACT 0; Issue ACT 1].
Proof.
  split; [|split; [|split]; by vm_compute].
  apply (reachable_submit _ Sample.one_queued
           (Sample.read_request 1024 64 None) (Some 2)); [|by vm_compute].
  apply (reachable_submit _ (create (Sample.lpddr5_config CYCLE_ACCURATE))
           (Sample.read_request 0 64 None) (Some 1)); [|by vm_compute].
  apply reachable_create.
Qed.

End runs.

(** C1 as worded fails: with a request queued for bank 0 and one for
    bank 1, the first tick activates both banks. *)
Lemma two_activates_in_one_tick : ~ one_command_per_tick.
Proof.
  intros Hone.
  destruct two_banks_queued as (Hreach & _ & _ & Htick).
  destruct (CycleAccurateLPDDR5Controller.tick Sample.two_queued)
    as [[tr c3]|] eqn:Hrun; [|done].
  injection Htick as ->.
  specialize (Hone _ _ _ _ Hreach Hrun). simpl in Hone. lia.
Qed.

(** C3 at a concrete run.  One read is submitted and the controller is
    ticked until the queue is empty: the request is counted once in
    [reads] and twice in [page_hits] (by [stats_.page_hits++] and again
    by [record_request]), so [reads + writes = 1] while
    [page_hits + page_empty + page_conflicts = 2]. *)
Theorem page_hit_counted_twice :
  let config := Sample.lpddr5_config CYCLE_ACCURATE in
  exists c1 tr c2,
    CycleAccurateLPDDR5Controller.submit
      (CycleAccurateLPDDR5Controller.create config)
      (Sample.read_request 0 64 None) = Some (Some 1, c1) /\
    CycleAccurateLPDDR5Controller.tick_n 19 c1 = Some (tr, c2) /\
    CycleAccurateLPDDR5Controller.has_pending c2 = false /\
    CycleAccurateLPDDR5Controller.pending_count c2 = 0 /\
    let stats := CycleAccurateLPDDR5Controller.stats_ c2 in
    Statistics.reads stats + Statistics.writes stats = 1 /\
    Statistics.page_hits stats = 2 /\
    Statistics.page_empty stats = 0 /\
    Statistics.page_conflicts stats = 0.
Proof.
  intros config. eexists _, _, _.
  split; [by vm_compute|]. split; [by vm_compute|]. by vm_compute.
Qed.

(** C9 at a concrete run.  After one accepted request, [reset] zeroes
    the cycle, the banks and the statistics, and the scheduler still
    holds the request: [pending_count() == 1] and [has_pending()]. *)
Theorem reset_keeps_queued_request :
  let config := Sample.lpddr5_config CYCLE_ACCURATE in
  exists c1,
    CycleAccurateLPDDR5Controller.submit
      (CycleAccurateLPDDR5Controller.create config)
      (Sample.read_request 0 64 None) = Some (Some 1, c1) /\
    let c2 := CycleAccurateLPDDR5Controller.reset c1 in
    CycleAccurateLPDDR5Controller.current_cycle_ c2 = 0 /\
    CycleAccurateLPDDR5Controller.stats_ c2 = Statistics.initial /\
    CycleAccurateLPDDR5Controller.pending_count c2 = 1 /\
    CycleAccurateLPDDR5Controller.has_pending c2 = true.
Proof.
  intros config. eexists. split; [by vm_compute|]. by vm_compute.
Qed.

(** C8 as worded fails: over banks of 1024 rows, the address whose row
    bits are 2000 is accepted like any other. *)
Lemma row_out_of_range_accepted : ~ invalid_address_rejected.
Proof.
  intros Hreject.
  pose (config := Sample.small_rows_config).
  pose (request := Sample.read_request (2000 * 2 ^ 14) 64 None).
  assert (exists c1,
    CycleAccurateLPDDR5Controller.submit
      (CycleAccurateLPDDR5Controller.create config) request
    = Some (Some 1, c1)) as [c1 Hsubmit] by (eexists; by vm_compute).
  discriminate
    (Hreject config _ request _ _ (reachable_create config) Hsubmit).
  left. by vm_compute.
Qed.

(** ** The invariant of the scheduler buffers *)

Section scheduler_invariant.

Lemma land_mask_bound a m : 0 <= m -> 0 <= Z.land a m <= m.
Proof.
  intros Hm. split; [apply Z.land_nonneg; by right|].
  assert (Z.land (Z.ldiff m a) (Z.land a m) = 0) as Hdisjoint.
  { apply Z.bits_inj'. intros n Hn.
    rewrite !Z.land_spec, Z.ldiff_spec, Z.bits_0.
    by destruct (Z.testbit m n), (Z.testbit a n). }
  assert (Z.ldiff m a + Z.land a m = m) as Hsum.
  { rewrite Z.add_nocarry_lxor, Z.lxor_lor by done.
    rewrite (Z.land_comm a m). apply Z.lor_ldiff_and. }
  assert (0 <= Z.ldiff m a) by (apply Z.ldiff_nonneg; by left).
  lia.
Qed.

Lemma u64_small x : 0 <= x < 2 ^ 64 -> u64 x = x.
Proof. intros. unfold u64. by apply Z.mod_small. Qed.

Lemma u8_small x : 0 <= x < 2 ^ 8 -> u8 x = x.
Proof. intros. unfold u8. by apply Z.mod_small. Qed.

Lemma concat_replicate_nil {A} n : concat (replicate n (@nil A)) = [].
Proof. induction n as [|n IH]; [done|]. simpl. exact IH. Qed.

Lemma length_concat_insert {A} (bs : list (list A)) i q q' :
  bs !! i = Some q ->
  (length (concat (<[i:=q']> bs)) + length q
   = length (concat bs) + length q')%nat.
Proof.
  revert i. induction bs as [|b bs IH]; intros [|i]; simpl; try done.
  - intros [= ->]. rewrite !length_app. lia.
  - intros Hq. specialize (IH i Hq). rewrite !length_app. lia.
Qed.

Lemma erase_id_Some rid q q' :
  BankBuffers.erase_id rid q = Some q' ->
  length q = S (length q') /\ forall r, r ∈ q' -> r ∈ q.
Proof.
  revert q'. induction q as [|x q IH]; intros q'; simpl; [done|].
  destruct (Request.id x =? rid).
  - intros [= ->]. split; [done|]. intros r Hr. by right.
  - destruct (BankBuffers.erase_id rid q) as [q0|]; [|done]. simpl.
    intros [= <-]. destruct (IH q0 eq_refl) as [Hlen Hsub].
    split; [simpl; lia|]. intros r [->|Hr]%elem_of_cons; [by left|].
    right. by apply Hsub.
Qed.

Lemma erase_id_elem r q :
  r ∈ q -> is_Some (BankBuffers.erase_id (Request.id r) q).
Proof.
  induction q as [|x q IH]; [by intros ?%elem_of_nil|].
  intros Hr. simpl. destruct (Z.eqb_spec (Request.id x) (Request.id r)) as [|Hne];
    [by eexists|].
  apply elem_of_cons in Hr as [->|Hr]; [done|].
  destruct (IH Hr) as [q' ->]. by eexists.
Qed.

Lemma sched_wf_create config :
  0 <= SchedulerConfig.num_banks config ->
  0 <= SchedulerConfig.buffer_size config ->
  sched_wf (Z.to_nat (SchedulerConfig.num_banks config))
    (SchedulerConfig.buffer_size config) (FrFcfsScheduler.create config).
Proof.
  intros Hn Hd. split; simpl.
  - apply length_replicate.
  - apply length_replicate.
  - intros i q r [-> _]%lookup_replicate. by intros ?%elem_of_nil.
  - by rewrite concat_replicate_nil.
  - done.
  - done.
Qed.

Lemma store_wf n depth s r :
  sched_wf n depth s ->
  0 <= Request.bank r -> (Z.to_nat (Request.bank r) < n)%nat ->
  FrFcfsScheduler.has_space s 1 = true -> depth < 2 ^ 32 ->
  exists q s',
    BankBuffers.buffers_ (FrFcfsScheduler.buf_ s) !! Z.to_nat (Request.bank r)
      = Some q /\
    FrFcfsScheduler.store s r = Some s' /\
    sched_wf n depth s' /\
    BankBuffers.buffers_ (FrFcfsScheduler.buf_ s')
      = <[Z.to_nat (Request.bank r) := q ++ [r]]>
          (BankBuffers.buffers_ (FrFcfsScheduler.buf_ s)) /\
    FrFcfsScheduler.occupancy s' = FrFcfsScheduler.occupancy s + 1.
Proof.
  intros [Hbuf Hdep Hbank Hocc Hsize Hle] Hr0 Hr Hspace Hdepth.
  destruct (lookup_lt_is_Some_2 (BankBuffers.buffers_ (FrFcfsScheduler.buf_ s))
              (Z.to_nat (Request.bank r))) as [q Hq]; [lia|].
  destruct (lookup_lt_is_Some_2 (BankBuffers.buffer_depths_ (FrFcfsScheduler.buf_ s))
              (Z.to_nat (Request.bank r))) as [d Hd]; [lia|].
  unfold FrFcfsScheduler.has_space, BankBuffers.has_space in Hspace.
  rewrite Hsize in Hspace. apply Z.leb_le in Hspace.
  assert (0 <= BankBuffers.total_occupancy_ (FrFcfsScheduler.buf_ s)) as Hpos
    by (rewrite Hocc; lia).
  rewrite u64_small in Hspace by lia.
  exists q. eexists.
  unfold FrFcfsScheduler.store, BankBuffers.store. rewrite Hq, Hd. simpl.
  split; [done|]. split; [done|]. split; [|split; [done|]].
  - split; simpl.
    + by rewrite length_insert.
    + by rewrite length_insert.
    + intros i q0 r0 Hq0 Hr0'.
      destruct (decide (i = Z.to_nat (Request.bank r))) as [->|Hne].
      * rewrite list_lookup_insert_eq in Hq0 by lia. injection Hq0 as <-.
        apply elem_of_app in Hr0' as [Hold|Hnew%list_elem_of_singleton].
        -- by apply (Hbank _ q).
        -- subst r0. lia.
      * rewrite list_lookup_insert_ne in Hq0 by done. by apply (Hbank _ q0).
    + rewrite u64_small by lia. rewrite Hocc.
      pose proof (length_concat_insert _ _ _ (q ++ [r]) Hq) as Hlen.
      rewrite length_app in Hlen. simpl in Hlen. lia.
    + done.
    + rewrite u64_small by lia. lia.
  - unfold FrFcfsScheduler.occupancy, BankBuffers.occupancy. simpl.
    apply u64_small. lia.
Qed.

Lemma remove_wf n depth s r i q :
  sched_wf n depth s -> depth < 2 ^ 32 ->
  BankBuffers.buffers_ (FrFcfsScheduler.buf_ s) !! i = Some q -> r ∈ q ->
  exists s',
    FrFcfsScheduler.remove s r = Some s' /\
    sched_wf n depth s' /\
    FrFcfsScheduler.occupancy s' = FrFcfsScheduler.occupancy s - 1.
Proof.
  intros [Hbuf Hdep Hbank Hocc Hsize Hle] Hdepth Hq Hr.
  pose proof (Hbank i q r Hq Hr) as Hi.
  assert (Z.to_nat (Request.bank r) = i) as Hidx by lia.
  assert (i < n)%nat as Hin by (rewrite <- Hbuf; by eapply lookup_lt_Some).
  destruct (lookup_lt_is_Some_2 (BankBuffers.buffer_depths_ (FrFcfsScheduler.buf_ s)) i)
    as [d Hd]; [lia|].
  destruct (erase_id_elem r q Hr) as [q' Hq'].
  destruct (erase_id_Some _ _ _ Hq') as [Hlen Hsub].
  pose proof (length_concat_insert _ _ _ q' Hq) as Hcat.
  eexists. unfold FrFcfsScheduler.remove, BankBuffers.remove.
  rewrite Hidx, Hq. simpl. rewrite Hq', Hd. simpl.
  split; [done|]. split.
  - split; simpl.
    + by rewrite length_insert.
    + by rewrite length_insert.
    + intros j q0 r0 Hq0 Hr0.
      destruct (decide (j = i)) as [->|Hne].
      * rewrite list_lookup_insert_eq in Hq0 by lia. injection Hq0 as <-.
        apply (Hbank _ q); [done|]. by apply Hsub.
      * rewrite list_lookup_insert_ne in Hq0 by done. by apply (Hbank _ q0).
    + rewrite u64_small by lia. lia.
    + done.
    + rewrite u64_small by lia. lia.
  - unfold FrFcfsScheduler.occupancy, BankBuffers.occupancy. simpl.
    apply u64_small. lia.
Qed.

Lemma get_next_total n depth s bank open_row last_cmd :
  sched_wf n depth s -> 0 <= bank -> (Z.to_nat bank < n)%nat ->
  exists q next s',
    BankBuffers.buffers_ (FrFcfsScheduler.buf_ s) !! Z.to_nat bank = Some q /\
    FrFcfsScheduler.get_next s bank open_row last_cmd = Some (next, s') /\
    FrFcfsScheduler.buf_ s' = FrFcfsScheduler.buf_ s /\
    FrFcfsScheduler.config_ s' = FrFcfsScheduler.config_ s /\
    (forall r, next = Some r -> r ∈ q).
Proof.
  intros [Hbuf _ _ _ _ _] Hb0 Hb.
  destruct (lookup_lt_is_Some_2 (BankBuffers.buffers_ (FrFcfsScheduler.buf_ s))
              (Z.to_nat bank)) as [q Hq]; [lia|].
  exists q. unfold FrFcfsScheduler.get_next. rewrite Hq.
  destruct q as [|front rest]; cbn -[FrFcfsScheduler.find_row_hit].
  - eexists _, _. by repeat split.
  - destruct (open_row ≫= _) as [hit|] eqn:Hfind.
    + eexists _, _. repeat split; try done. intros r [= <-].
      destruct open_row as [row|]; [|done].
      change (FrFcfsScheduler.find_row_hit row (front :: rest) = Some hit)
        in Hfind.
      apply find_row_hit_first in Hfind as (older & newer & -> & _).
      apply elem_of_app. right. by left.
    + eexists _, _. repeat split; try done. intros r [= <-]. by left.
Qed.

End scheduler_invariant.

(** ** The invariant of the cycle-accurate controller *)

Section controller_invariant.

Import CycleAccurateLPDDR5Controller.

Lemma wf_create config : config_ok config -> wf (create config).
Proof.
  intros [Hbanks Hdepth]. split; simpl.
  - done.
  - rewrite length_replicate. lia.
  - rewrite length_replicate, u8_small by lia.
    apply (sched_wf_create
      (SchedulerConfig.mk FR_FCFS BANKWISE
         (ControllerConfig.queue_depth config) 16 16 8 4
         (bank_count config))); simpl; lia.
Qed.

(** A state that has the configuration, the number of banks and a
    scheduler in order is in order. *)
Lemma wf_with c c' :
  wf c -> config_ c' = config_ c ->
  length (banks_ c') = length (banks_ c) ->
  sched_wf (length (banks_ c)) (ControllerConfig.queue_depth (config_ c))
    (scheduler_ c') ->
  wf c'.
Proof.
  intros [Hcfg Hbanks Hsched] Hc Hlen Hs. split.
  - by rewrite Hc.
  - by rewrite Hc, Hlen.
  - by rewrite Hc, Hlen.
Qed.

Lemma factors_positive a b : 0 < a * b -> 0 <= b -> 1 <= a /\ 1 <= b.
Proof.
  intros Hab Hb.
  assert (b <> 0) by (intros ->; lia).
  assert (0 < a) by (apply (Z.mul_pos_cancel_r a b); lia).
  lia.
Qed.

Lemma factor_le a b : 1 <= a -> 1 <= b -> b <= a * b /\ a <= a * b.
Proof. intros. nia. Qed.

Lemma banks_per_rank_range o :
  0 <= OrganizationParams.banks_per_rank o < 2 ^ 8.
Proof. unfold OrganizationParams.banks_per_rank, u8. by apply Z.mod_pos_bound. Qed.

(** The bank [decode_address] computes has a request list. *)
Lemma decoded_bank_range c request :
  wf c ->
  0 <= Request.bank (decode_address c request)
    < OrganizationParams.banks_per_rank
        (ControllerConfig.organization (config_ c)) /\
  (Z.to_nat (Request.bank (decode_address c request)) < length (banks_ c))%nat.
Proof.
  intros [[Hcount _] Hbanks _]. unfold bank_count in *.
  set (org := ControllerConfig.organization (config_ c)) in *.
  pose proof (banks_per_rank_range org) as Hbpr.
  destruct (factors_positive _ _ (proj1 Hcount) (proj1 Hbpr)) as [Hc1 Hb1].
  destruct (factor_le _ _ Hc1 Hb1) as [Hble _].
  unfold decode_address. fold org. simpl. unfold mask_below, int_to_u64.
  rewrite u64_small by lia.
  pose proof (land_mask_bound (Request.address request ≫ 10)
                (OrganizationParams.banks_per_rank org - 1)) as Hland.
  rewrite u8_small by lia. split; [lia|]. lia.
Qed.

End controller_invariant.

(** What [submit] returns and what it leaves behind, case by case. *)
Lemma submit_outcome
    (c : CycleAccurateLPDDR5Controller.t) (request : Request.t) :
  wf c ->
  let stored :=
    CycleAccurateLPDDR5Controller.decode_address c
      (Request.set_submit_cycle
         (CycleAccurateLPDDR5Controller.current_cycle_ c)
         (Request.set_id (CycleAccurateLPDDR5Controller.next_id_ c) request)) in
  let buffers c :=
    BankBuffers.buffers_
      (FrFcfsScheduler.buf_ (CycleAccurateLPDDR5Controller.scheduler_ c)) in
  exists ret c',
    CycleAccurateLPDDR5Controller.submit c request = Some (ret, c') /\
    wf c' /\
    (ret = None <->
     CycleAccurateLPDDR5Controller.pending_count c
     = ControllerConfig.queue_depth (CycleAccurateLPDDR5Controller.config_ c)) /\
    (ret = None -> c' = c) /\
    (ret <> None ->
     ret = Some (CycleAccurateLPDDR5Controller.next_id_ c) /\
     Request.id stored = CycleAccurateLPDDR5Controller.next_id_ c /\
     Request.submit_cycle stored
       = CycleAccurateLPDDR5Controller.current_cycle_ c /\
     CycleAccurateLPDDR5Controller.next_id_ c'
       = u64 (CycleAccurateLPDDR5Controller.next_id_ c + 1) /\
     (exists q,
        buffers c !! Z.to_nat (Request.bank stored) = Some q /\
        buffers c' = <[Z.to_nat (Request.bank stored) := q ++ [stored]]> (buffers c)) /\
     CycleAccurateLPDDR5Controller.pending_count c'
       = CycleAccurateLPDDR5Controller.pending_count c + 1 /\
     (ids_below c ->
      forall r, r ∈ queued c ->
        Request.id r <> CycleAccurateLPDDR5Controller.next_id_ c) /\
     CycleAccurateLPDDR5Controller.banks_ c'
       = CycleAccurateLPDDR5Controller.banks_ c /\
     CycleAccurateLPDDR5Controller.current_cycle_ c'
       = CycleAccurateLPDDR5Controller.current_cycle_ c /\
     CycleAccurateLPDDR5Controller.stats_ c'
       = CycleAccurateLPDDR5Controller.stats_ c).
Proof.
  intros Hwf stored buffers.
  pose proof Hwf as [[Hcount Hdepth] Hbanks Hsched].
  pose proof Hsched as [_ _ _ Hocc Hsize Hle].
  assert (0 <= CycleAccurateLPDDR5Controller.pending_count c) as Hpos.
  { unfold CycleAccurateLPDDR5Controller.pending_count,
      FrFcfsScheduler.occupancy, BankBuffers.occupancy. rewrite Hocc. lia. }
  unfold CycleAccurateLPDDR5Controller.submit,
    CycleAccurateLPDDR5Controller.stamp. fold stored.
  destruct (FrFcfsScheduler.has_space _ 1) eqn:Hspace; simpl.
  - (* accepted *)
    destruct (decoded_bank_range c
                (Request.set_submit_cycle
                   (CycleAccurateLPDDR5Controller.current_cycle_ c)
                   (Request.set_id (CycleAccurateLPDDR5Controller.next_id_ c)
                      request)) Hwf) as [Hb0 Hb].
    fold stored in Hb0, Hb.
    destruct (store_wf _ _ _ stored Hsched) as (q & s' & Hq & Hstore & Hs' & Hbuf & Hocc');
      [lia|done|done|lia|].
    rewrite Hstore. simpl. eexists _, _. split; [done|].
    split; [by eapply wf_with|].
    split.
    { split; [done|]. intros Hfull. exfalso.
      unfold FrFcfsScheduler.has_space, BankBuffers.has_space in Hspace.
      apply Z.leb_le in Hspace. rewrite Hsize in Hspace.
      unfold CycleAccurateLPDDR5Controller.pending_count,
        FrFcfsScheduler.occupancy, BankBuffers.occupancy in *.
      rewrite u64_small in Hspace by lia. lia. }
    split; [done|]. intros _.
    repeat split; try done.
    + exists q. by split.
    + intros Hbelow r Hr. specialize (Hbelow r Hr). lia.
  - (* rejected *)
    eexists _, _. split; [done|]. split; [done|].
    split; [|split; [done|by intros []]].
    split; [intros _|done].
    unfold FrFcfsScheduler.has_space, BankBuffers.has_space in Hspace.
    apply Z.leb_gt in Hspace. rewrite Hsize in Hspace.
    unfold CycleAccurateLPDDR5Controller.pending_count,
      FrFcfsScheduler.occupancy, BankBuffers.occupancy in *.
    rewrite u64_small in Hspace by lia. lia.
Qed.

(** ** [submit], without looking through the queued pointers *)

Section submit_shape.

Import CycleAccurateLPDDR5Controller.

Lemma well_shaped_of_wf c : wf c -> well_shaped c.
Proof.
  intros [Hcfg Hbanks [Hbuf Hdep _ Hocc Hsize Hle]].
  split; [done|done|by split].
Qed.

Lemma well_shaped_create config : config_ok config -> well_shaped (create config).
Proof. intros Hok. by apply well_shaped_of_wf, wf_create. Qed.

Lemma well_shaped_with c c' :
  well_shaped c -> config_ c' = config_ c ->
  length (banks_ c') = length (banks_ c) ->
  sched_shape (length (banks_ c))
    (ControllerConfig.queue_depth (config_ c)) (scheduler_ c') ->
  well_shaped c'.
Proof.
  intros [Hcfg Hbanks _] Hc Hlen Hs. split.
  - by rewrite Hc.
  - by rewrite Hc, Hlen.
  - by rewrite Hc, Hlen.
Qed.

(** The fields [decode_address] cuts out of an address. *)
Lemma decode_address_fields c request :
  0 < bank_count (config_ c) < 2 ^ 8 ->
  let org := ControllerConfig.organization (config_ c) in
  let address := Request.address request in
  let decoded := decode_address c request in
  Request.column decoded = address mod 2 ^ 10 /\
  Request.bank decoded
  = Z.land (address / 2 ^ 10) (OrganizationParams.banks_per_rank org - 1) /\
  0 <= Request.bank decoded < OrganizationParams.banks_per_rank org /\
  Request.row decoded = (address / 2 ^ 14) mod 2 ^ 16 /\
  Request.channel decoded
  = Z.land (address / 2 ^ 30) (OrganizationParams.num_channels org - 1) /\
  0 <= Request.channel decoded < OrganizationParams.num_channels org /\
  Request.bank decoded < bank_count (config_ c).
Proof.
  intros Hcount org address decoded. unfold bank_count in Hcount.
  fold org in Hcount.
  pose proof (banks_per_rank_range org) as Hbpr.
  destruct (factors_positive _ _ (proj1 Hcount) (proj1 Hbpr)) as [Hc1 Hb1].
  destruct (factor_le _ _ Hc1 Hb1) as [Hble Hcle].
  assert (Request.column decoded = address mod 2 ^ 10) as Hcol.
  { subst decoded. simpl. change (1 ≪ 10 - 1) with (Z.ones 10).
    rewrite Z.land_ones by lia. fold address.
    pose proof (Z.mod_pos_bound address (2 ^ 10)).
    unfold u16. apply Z.mod_small. lia. }
  assert (Request.bank decoded
          = Z.land (address / 2 ^ 10)
              (OrganizationParams.banks_per_rank org - 1)) as Hbank.
  { subst decoded. simpl. fold org address. unfold mask_below, int_to_u64.
    rewrite u64_small by lia. rewrite Z.shiftr_div_pow2 by lia.
    pose proof (land_mask_bound (address / 2 ^ 10)
                  (OrganizationParams.banks_per_rank org - 1)).
    apply u8_small. lia. }
  assert (Request.row decoded = (address / 2 ^ 14) mod 2 ^ 16) as Hrow.
  { subst decoded. simpl. fold address. change (1 ≪ 16 - 1) with (Z.ones 16).
    rewrite Z.land_ones by lia. rewrite !Z.shiftr_div_pow2 by lia.
    rewrite Z.div_div by lia. change (2 ^ 10 * 2 ^ 4) with (2 ^ 14).
    pose proof (Z.mod_pos_bound (address / 2 ^ 14) (2 ^ 16)).
    unfold u32. apply Z.mod_small. lia. }
  assert (Request.channel decoded
          = Z.land (address / 2 ^ 30)
              (OrganizationParams.num_channels org - 1)) as Hchan.
  { subst decoded. simpl. fold org address. unfold mask_below, int_to_u64.
    rewrite u64_small by lia. rewrite !Z.shiftr_div_pow2 by lia.
    rewrite !Z.div_div by lia. change (2 ^ 10 * 2 ^ 4 * 2 ^ 16) with (2 ^ 30).
    pose proof (land_mask_bound (address / 2 ^ 30)
                  (OrganizationParams.num_channels org - 1)).
    apply u8_small. lia. }
  pose proof (land_mask_bound (address / 2 ^ 10)
                (OrganizationParams.banks_per_rank org - 1)).
  pose proof (land_mask_bound (address / 2 ^ 30)
                (OrganizationParams.num_channels org - 1)).
  unfold bank_count. fold org.
  repeat split; try done; lia.
Qed.

(** What [submit] returns and what it does to the lists and the
    counters, case by case. *)
Lemma submit_shape c request :
  well_shaped c ->
  let bank :=
    Z.to_nat
      (Z.land (Request.address request / 2 ^ 10)
         (OrganizationParams.banks_per_rank
            (ControllerConfig.organization (config_ c)) - 1)) in
  exists ret c',
    submit c request = Some (ret, c') /\
    well_shaped c' /\
    (ret = None <->
     pending_count c = ControllerConfig.queue_depth (config_ c)) /\
    (ret = None -> c' = c) /\
    (ret <> None ->
     ret = Some (next_id_ c) /\
     next_id_ c' = u64 (next_id_ c + 1) /\
     (exists q,
        buffers_of c !! bank = Some q /\
        buffers_of c' = <[bank := q ++ [stamp c request]]> (buffers_of c)) /\
     pending_count c' = pending_count c + 1 /\
     banks_ c' = banks_ c /\
     current_cycle_ c' = current_cycle_ c /\
     stats_ c' = stats_ c /\
     config_ c' = config_ c).
Proof.
  intros Hshape bank.
  pose proof Hshape as [[Hcount Hdepth] Hbanks [Hbuf Hdep Hocc Hsize Hle]].
  assert (0 <= pending_count c) as Hpos.
  { unfold pending_count, FrFcfsScheduler.occupancy, BankBuffers.occupancy.
    rewrite Hocc. lia. }
  destruct (decode_address_fields c
              (Request.set_submit_cycle (current_cycle_ c)
                 (Request.set_id (next_id_ c) request)) Hcount)
    as (_ & Hbank & Hrange & _ & _ & _ & Hlt).
  change (Request.address
            (Request.set_submit_cycle (current_cycle_ c)
               (Request.set_id (next_id_ c) request)))
    with (Request.address request) in Hbank.
  fold (stamp c request) in Hbank, Hrange, Hlt.
  assert (Z.to_nat (Request.bank (stamp c request)) = bank) as Hidx
    by (subst bank; by rewrite Hbank).
  unfold submit.
  destruct (FrFcfsScheduler.has_space _ 1) eqn:Hspace; simpl.
  - (* accepted *)
    unfold FrFcfsScheduler.has_space, BankBuffers.has_space in Hspace.
    rewrite Hsize in Hspace. apply Z.leb_le in Hspace.
    unfold pending_count, FrFcfsScheduler.occupancy, BankBuffers.occupancy
      in Hpos |- *.
    rewrite u64_small in Hspace by lia.
    destruct (lookup_lt_is_Some_2
                (BankBuffers.buffers_ (FrFcfsScheduler.buf_ (scheduler_ c)))
                bank) as [q Hq]; [lia|].
    destruct (lookup_lt_is_Some_2
                (BankBuffers.buffer_depths_ (FrFcfsScheduler.buf_ (scheduler_ c)))
                bank) as [d Hd]; [lia|].
    unfold FrFcfsScheduler.store, BankBuffers.store.
    rewrite Hidx, Hq, Hd. simpl.
    eexists _, _. split; [done|]. split.
    { eapply well_shaped_with; [exact Hshape|done|done|]. split; simpl.
      - by rewrite length_insert.
      - by rewrite length_insert.
      - rewrite u64_small by lia. rewrite Hocc.
        pose proof (length_concat_insert _ _ _ (q ++ [stamp c request]) Hq)
          as Hlen.
        rewrite length_app in Hlen. simpl in Hlen. lia.
      - done.
      - rewrite u64_small by lia. lia. }
    split; [split; [done|lia]|]. split; [done|]. intros _.
    unfold buffers_of. simpl.
    rewrite (u64_small (BankBuffers.total_occupancy_ _ + 1)) by lia.
    repeat split; try done. by exists q.
  - (* refused *)
    unfold FrFcfsScheduler.has_space, BankBuffers.has_space in Hspace.
    rewrite Hsize in Hspace. apply Z.leb_gt in Hspace.
    unfold pending_count, FrFcfsScheduler.occupancy, BankBuffers.occupancy
      in Hpos |- *.
    rewrite u64_small in Hspace by lia.
    eexists _, _. split; [done|]. split; [done|].
    split; [split; [intros _; lia|done]|]. split; [done|]. by intros [].
Qed.

End submit_shape.

(** C7 against the code.  The id [submit] hands out is the value of the
    id counter, and [reset] restarts the counter at 1 without taking
    the pending requests out of the scheduler: a request submitted
    after a [reset] gets the id of a request that is still pending. *)
Theorem submit_reuses_id_after_reset :
  let config := Sample.lpddr5_config CYCLE_ACCURATE in
  exists c1 c2,
    CycleAccurateLPDDR5Controller.submit
      (CycleAccurateLPDDR5Controller.create config)
      (Sample.read_request 0 64 None) = Some (Some 1, c1) /\
    CycleAccurateLPDDR5Controller.pending_count c1 = 1 /\
    CycleAccurateLPDDR5Controller.pending_count
      (CycleAccurateLPDDR5Controller.reset c1) = 1 /\
    CycleAccurateLPDDR5Controller.submit
      (CycleAccurateLPDDR5Controller.reset c1)
      (Sample.read_request 1024 64 None) = Some (Some 1, c2) /\
    CycleAccurateLPDDR5Controller.pending_count c2 = 2.
Proof.
  intros config. eexists _, _.
  split; [by vm_compute|]. split; [by vm_compute|]. split; [by vm_compute|].
  split; by vm_compute.
Qed.

(** C8, as the code has it.  [submit] has no address check: on a
    controller of the right shape (1 to 255 banks, the counters of the
    scheduler in step with its lists) whose scheduler has space, every
    request is accepted, whatever its address, and one pointer is
    appended to the list of the bank its address decodes to.
    [decode_address] cuts the fields out of the address: the column is
    [address mod 2^10]; the bank is [(address >> 10) & (banks_per_rank
    - 1)], so below [banks_per_rank]; the row is the 16 bits from bit
    14, never compared with [rows_per_bank]; the channel is [(address
    >> 30) & (num_channels - 1)], so below [num_channels]. *)
Theorem submit_accepts_any_address
    (c : CycleAccurateLPDDR5Controller.t) (request : Request.t) :
  well_shaped c ->
  CycleAccurateLPDDR5Controller.pending_count c
    < ControllerConfig.queue_depth (CycleAccurateLPDDR5Controller.config_ c) ->
  let org :=
    ControllerConfig.organization (CycleAccurateLPDDR5Controller.config_ c) in
  let address := Request.address request in
  let decoded := CycleAccurateLPDDR5Controller.decode_address c request in
  let bank :=
    Z.land (address / 2 ^ 10) (OrganizationParams.banks_per_rank org - 1) in
  (exists c' q slot,
     CycleAccurateLPDDR5Controller.submit c request
     = Some (Some (CycleAccurateLPDDR5Controller.next_id_ c), c') /\
     buffers_of c !! Z.to_nat bank = Some q /\
     buffers_of c' = <[Z.to_nat bank := q ++ [slot]]> (buffers_of c)) /\
  Request.column decoded = address mod 2 ^ 10 /\
  Request.bank decoded = bank /\
  0 <= bank < OrganizationParams.banks_per_rank org /\
  Request.row decoded = (address / 2 ^ 14) mod 2 ^ 16 /\
  Request.channel decoded
  = Z.land (address / 2 ^ 30) (OrganizationParams.num_channels org - 1) /\
  0 <= Request.channel decoded < OrganizationParams.num_channels org.
Proof.
  intros Hshape Hroom org address decoded bank.
  destruct (submit_shape c request Hshape)
    as (ret & c' & Hsubmit & _ & Hfull & _ & Haccept).
  assert (ret <> None) as Hret by (rewrite Hfull; lia).
  destruct (Haccept Hret) as (-> & _ & (q & Hq & Hbufs) & _).
  split; [by exists c', q, (CycleAccurateLPDDR5Controller.stamp c request)|].
  destruct (decode_address_fields c request
              (proj1 (shape_config c Hshape)))
    as (Hcol & Hbank & Hrange & Hrow & Hchan & Hcrange & _).
  fold org address decoded in Hcol, Hbank, Hrange, Hrow, Hchan, Hcrange.
  fold bank in Hbank. rewrite Hbank in Hrange.
  split; [done|]. split; [done|]. split; [done|]. split; [done|]. by split.
Qed.

Lemma submit_accepts_any_address_witness :
  exists c',
    CycleAccurateLPDDR5Controller.submit
      (CycleAccurateLPDDR5Controller.create Sample.small_rows_config)
      (Sample.read_request (2000 * 2 ^ 14 + 5 * 2 ^ 10 + 3) 64 None)
    = Some (Some 1, c') /\
    let decoded :=
      CycleAccurateLPDDR5Controller.decode_address
        (CycleAccurateLPDDR5Controller.create Sample.small_rows_config)
        (Sample.read_request (2000 * 2 ^ 14 + 5 * 2 ^ 10 + 3) 64 None) in
    Request.row decoded = 2000 /\ Request.bank decoded = 5 /\
    Request.column decoded = 3.
Proof.
  destruct (submit_accepts_any_address
              (CycleAccurateLPDDR5Controller.create Sample.small_rows_config)
              (Sample.read_request (2000 * 2 ^ 14 + 5 * 2 ^ 10 + 3) 64 None))
    as ((c' & q & slot & Hsubmit & _) & Hcol & Hbank & _ & Hrow & _).
  - apply well_shaped_create. repeat split; by vm_compute.
  - by vm_compute.
  - exists c'. split; [exact Hsubmit|]. cbv zeta.
    rewrite Hrow, Hbank, Hcol. by vm_compute.
Defined.

(** ** One tick of the cycle-accurate controller *)

Section tick_steps.

Import CycleAccurateLPDDR5Controller.

(** The iteration of [issue_commands] for bank [i], read backwards: it
    keeps the cycle and the configuration, touches no bank but [i],
    puts at most one command on the bus, for bank [i], and a RD leaves
    the bank as [start_read] builds it. *)
Lemma issue_bank_inv i c tr c' :
  issue_bank i c = Some (tr, c') ->
  current_cycle_ c' = current_cycle_ c /\
  config_ c' = config_ c /\
  next_id_ c' = next_id_ c /\
  length (banks_ c') = length (banks_ c) /\
  (forall j, j <> i -> banks_ c' !! j = banks_ c !! j) /\
  (length (commands tr) <= 1)%nat /\
  (forall cmd j, Issue cmd j ∈ tr -> j = i /\ cmd <> REF) /\
  (Issue RD i ∈ tr ->
   exists b,
     banks_ c !! i = Some b /\ LPDDR5Bank.state b = ACTIVE /\
     banks_ c' !! i = Some (start_read (timing c) (current_cycle_ c) b)).
Proof.
  unfold issue_bank, issue_cas. intros Hstep.
  destruct (banks_ c !! i) as [b|] eqn:Hb; [|done]. simpl in Hstep.
  destruct (FrFcfsScheduler.get_next _ _ _ _) as [[next s]|]; [|done].
  simpl in Hstep.
  assert (i < length (banks_ c))%nat as Hi by (by eapply lookup_lt_Some).
  repeat case_match; simplify_option_eq;
    (split; [done|]); (split; [done|]); (split; [done|]);
    (split; [by rewrite ?length_insert|]);
    (split; [by intros j Hj; rewrite ?list_lookup_insert_ne|]);
    (split; [simpl; lia|]).
  all: split;
    [ intros cmd j Hin; repeat (apply elem_of_cons in Hin as [Hin|Hin]);
      try (by apply elem_of_nil in Hin); by simplify_eq
    | intros Hin; repeat (apply elem_of_cons in Hin as [Hin|Hin]);
      try (by apply elem_of_nil in Hin); try done ].
  all: exists b; rewrite list_lookup_insert_eq by done; by repeat split.
Qed.

End tick_steps.

Section tick_totality.

Import CycleAccurateLPDDR5Controller.

Lemma sched_wf_same_buf n depth s s' :
  sched_wf n depth s ->
  FrFcfsScheduler.buf_ s' = FrFcfsScheduler.buf_ s ->
  FrFcfsScheduler.config_ s' = FrFcfsScheduler.config_ s ->
  sched_wf n depth s'.
Proof.
  intros [? ? ? ? ? ?] Hbuf Hcfg. split; rewrite ?Hbuf, ?Hcfg; done.
Qed.

(** On a controller in order the iteration for a bank that exists is
    defined and leaves the controller in order. *)
Lemma issue_bank_total i c :
  wf c -> (i < length (banks_ c))%nat ->
  exists tr c', issue_bank i c = Some (tr, c') /\ wf c'.
Proof.
  intros Hwf Hi. pose proof Hwf as [[Hcount Hdepth] Hbanks Hsched].
  destruct (lookup_lt_is_Some_2 (banks_ c) i Hi) as [b Hb].
  assert (u8 (Z.of_nat i) = Z.of_nat i) as Hu8 by (apply u8_small; lia).
  unfold issue_bank. rewrite Hb, Hu8. simpl.
  match goal with
  | |- context [FrFcfsScheduler.get_next ?s ?bk ?row ?last] =>
      destruct (get_next_total _ _ s bk row last Hsched)
        as (q & next & s' & Hq & Hnext & Hbuf & Hcfg & Hin); [lia|lia|]
  end.
  rewrite Hnext. simpl.
  assert (sched_wf (length (banks_ c))
            (ControllerConfig.queue_depth (config_ c)) s') as Hs'
    by (by eapply sched_wf_same_buf).
  assert (forall c', config_ c' = config_ c ->
            length (banks_ c') = length (banks_ c) ->
            scheduler_ c' = s' -> wf c') as Hkeep.
  { intros c' ? ? Hsc. eapply wf_with; [exact Hwf|done|done|by rewrite Hsc]. }
  destruct next as [req|];
    [|eexists _, _; split; [done|by apply Hkeep]].
  rewrite Nat2Z.id in Hq.
  destruct (remove_wf _ _ s' req i q Hs') as (s2 & Hremove & Hs2 & _);
    [lia|by rewrite Hbuf|by apply Hin|].
  repeat case_match;
    try (eexists _, _; split; [done|];
         apply Hkeep; simpl; by rewrite ?length_insert).
  all: unfold issue_cas; simpl; rewrite Hremove; simpl.
  all: eexists _, _; (split; [done|]).
  all: eapply wf_with; [exact Hwf|done|simpl; by rewrite length_insert|done].
Qed.

End tick_totality.

Section traces.

Lemma commands_app tr1 tr2 : commands (tr1 ++ tr2) = commands tr1 ++ commands tr2.
Proof. apply omap_app. Qed.

Lemma elem_of_commands cmd j tr : (cmd, j) ∈ commands tr <-> Issue cmd j ∈ tr.
Proof.
  unfold commands. rewrite list_elem_of_omap. split.
  - intros ([cmd' j'|cb lat] & Hin & Hcmd); simpl in Hcmd; [|done].
    by injection Hcmd as -> ->.
  - intros Hin. by exists (Issue cmd j).
Qed.

Lemma commands_on_app j tr1 tr2 :
  commands_on j (tr1 ++ tr2) = commands_on j tr1 ++ commands_on j tr2.
Proof.
  unfold commands_on. by rewrite commands_app, filter_app, fmap_app.
Qed.

Lemma commands_on_le j tr :
  (length (commands_on j tr) <= length (commands tr))%nat.
Proof. unfold commands_on. rewrite length_fmap. apply length_filter. Qed.

Lemma commands_on_none j tr :
  (forall cmd, Issue cmd j ∉ tr) -> commands_on j tr = [].
Proof.
  intros Hnone. unfold commands_on.
  destruct (filter _ (commands tr)) as [|[cmd k] rest] eqn:Hfilter; [done|].
  assert ((cmd, k) ∈ filter (fun cb : Command * nat => cb.2 = j) (commands tr))
    as Hin by (rewrite Hfilter; by left).
  apply list_elem_of_filter in Hin as [Hk Hin]. simpl in Hk. subst k.
  apply elem_of_commands in Hin. by destruct (Hnone cmd).
Qed.

End traces.

Section tick_loop.

Import CycleAccurateLPDDR5Controller.

(** The loop of [issue_commands] over distinct bank indices, read
    backwards. *)
Lemma issue_loop_inv indices c tr c' :
  NoDup indices ->
  issue_loop indices c = Some (tr, c') ->
  current_cycle_ c' = current_cycle_ c /\
  config_ c' = config_ c /\
  next_id_ c' = next_id_ c /\
  length (banks_ c') = length (banks_ c) /\
  (forall j, j ∉ indices -> banks_ c' !! j = banks_ c !! j) /\
  (forall cmd j, Issue cmd j ∈ tr -> j ∈ indices /\ cmd <> REF) /\
  (forall j, (length (commands_on j tr) <= 1)%nat) /\
  (length (commands tr) <= length indices)%nat /\
  (forall i, Issue RD i ∈ tr ->
   exists b,
     banks_ c !! i = Some b /\ LPDDR5Bank.state b = ACTIVE /\
     banks_ c' !! i = Some (start_read (timing c) (current_cycle_ c) b)).
Proof.
  revert c tr c'. induction indices as [|i rest IH]; intros c tr c' Hnodup; simpl.
  - intros [= <- <-].
    split; [done|]. split; [done|]. split; [done|]. split; [done|].
    split; [done|]. split; [by intros cmd j ?%elem_of_nil|].
    split; [intros j; simpl; lia|]. split; [simpl; lia|].
    by intros i ?%elem_of_nil.
  - apply NoDup_cons in Hnodup as [Hi Hrest].
    destruct (issue_bank i c) as [[tr1 c1]|] eqn:Hstep; [|done]. simpl.
    destruct (issue_loop rest c1) as [[tr2 c2]|] eqn:Hloop; [|done]. simpl.
    intros [= <- <-].
    destruct (issue_bank_inv _ _ _ _ Hstep)
      as (Hcyc1 & Hcfg1 & Hid1 & Hlen1 & Hframe1 & Hone1 & Hon1 & Hrd1).
    destruct (IH _ _ _ Hrest Hloop)
      as (Hcyc2 & Hcfg2 & Hid2 & Hlen2 & Hframe2 & Hon2 & Hone2 & Hmany2 & Hrd2).
    assert (forall cmd, Issue cmd i ∉ tr2) as Hnot2.
    { intros cmd Hin. by destruct (Hon2 _ _ Hin). }
    split; [congruence|]. split; [congruence|]. split; [congruence|].
    split; [congruence|]. split; [|split; [|split; [|split]]].
    + intros j Hj. apply not_elem_of_cons in Hj as [Hji Hj].
      by rewrite Hframe2, Hframe1.
    + intros cmd j [Hin|Hin]%elem_of_app.
      * destruct (Hon1 _ _ Hin) as [-> ?]. split; [by left|done].
      * destruct (Hon2 _ _ Hin). split; [by right|done].
    + intros j. rewrite commands_on_app, length_app.
      destruct (decide (j = i)) as [->|Hne].
      * rewrite (commands_on_none i tr2) by done.
        pose proof (commands_on_le i tr1). simpl. lia.
      * rewrite (commands_on_none j tr1).
        -- apply (Hone2 j).
        -- intros cmd Hin. by destruct (Hon1 _ _ Hin).
    + rewrite commands_app, length_app. simpl. lia.
    + intros k [Hin|Hin]%elem_of_app.
      * destruct (Hon1 _ _ Hin) as [-> _].
        destruct (Hrd1 Hin) as (b & Hb & Hst & Hb').
        exists b. split; [done|]. split; [done|]. by rewrite Hframe2.
      * destruct (Hon2 _ _ Hin) as [Hk _].
        destruct (Hrd2 _ Hin) as (b & Hb & Hst & Hb').
        assert (k <> i) as Hki by (intros ->; done).
        exists b. rewrite <- Hframe1 by done. split; [done|]. split; [done|].
        unfold timing in *. by rewrite <- Hcfg1, <- Hcyc1.
Qed.

Lemma issue_loop_total indices c :
  wf c -> Forall (fun i => (i < length (banks_ c))%nat) indices ->
  exists tr c', issue_loop indices c = Some (tr, c') /\ wf c'.
Proof.
  revert c. induction indices as [|i rest IH]; intros c Hwf Hall; simpl.
  - by eexists _, _.
  - apply Forall_cons in Hall as [Hi Hall].
    destruct (issue_bank_total i c Hwf Hi) as (tr1 & c1 & Hstep & Hwf1).
    rewrite Hstep. simpl.
    destruct (issue_bank_inv _ _ _ _ Hstep) as (_ & _ & _ & Hlen & _).
    destruct (IH c1 Hwf1) as (tr2 & c2 & Hloop & Hwf2);
      [by rewrite Hlen|].
    rewrite Hloop. simpl. by eexists _, _.
Qed.

End tick_loop.

Section tick_whole.

Import CycleAccurateLPDDR5Controller.

Lemma tick_unfold c tr c' :
  tick c = Some (tr, c') <->
  issue_loop (seq 0 (length (banks_ c))) (entering_issue c) = Some (tr, c').
Proof.
  unfold tick, issue_commands, complete_transfers, check_timing_invariants.
  fold (entering_issue c).
  replace (length (banks_ (entering_issue c))) with (length (banks_ c))
    by (simpl; by rewrite length_fmap).
  destruct (issue_loop _ _) as [[tr0 c0]|]; simpl; [|done].
  by destruct (check_invariants_ c0).
Qed.

Lemma update_bank_keeps now b :
  LPDDR5Bank.next_act (update_bank now b) = LPDDR5Bank.next_act b /\
  LPDDR5Bank.next_rd (update_bank now b) = LPDDR5Bank.next_rd b /\
  LPDDR5Bank.next_wr (update_bank now b) = LPDDR5Bank.next_wr b /\
  LPDDR5Bank.next_pre (update_bank now b) = LPDDR5Bank.next_pre b /\
  (LPDDR5Bank.state (update_bank now b) = ACTIVE ->
   LPDDR5Bank.open_row (update_bank now b) = LPDDR5Bank.open_row b).
Proof.
  destruct b as [st orow until nact nrd nwr npre]. simpl.
  destruct (until <=? now), st; by repeat split.
Qed.

Lemma wf_entering_issue c : wf c -> wf (entering_issue c).
Proof.
  intros Hwf. eapply wf_with; [exact Hwf|done| |by destruct Hwf].
  simpl. by rewrite length_fmap.
Qed.

Lemma tick_total c : wf c -> exists tr c', tick c = Some (tr, c') /\ wf c'.
Proof.
  intros Hwf.
  destruct (issue_loop_total (seq 0 (length (banks_ c))) (entering_issue c))
    as (tr & c' & Hloop & Hwf').
  - by apply wf_entering_issue.
  - apply list.Forall_forall. intros i Hi%elem_of_seq.
    simpl. rewrite length_fmap. lia.
  - exists tr, c'. split; [by apply tick_unfold|done].
Qed.

Lemma reachable_wf config c :
  config_ok config -> reachable config c -> wf c /\ config_ c = config.
Proof.
  intros Hok. induction 1 as
    [|c request ret c' _ [IH Hcfg] Hsubmit
     |c tr c' _ [IH Hcfg] Htick
     |c _ [IH Hcfg]
     |c v _ [IH Hcfg] Hv].
  - split; [by apply wf_create|done].
  - destruct (submit_outcome c request IH)
      as (ret0 & c0 & Hsubmit0 & Hwf0 & _ & Hsame & Haccept).
    rewrite Hsubmit in Hsubmit0. injection Hsubmit0 as <- <-.
    split; [done|]. revert Hsubmit. unfold submit.
    destruct (negb _); [by intros [= _ <-]|].
    destruct (FrFcfsScheduler.store _ _); [|done]. simpl. by intros [= _ <-].
  - destruct (tick_total c IH) as (tr0 & c0 & Htick0 & Hwf0).
    rewrite Htick in Htick0. injection Htick0 as <- <-.
    split; [done|]. apply tick_unfold in Htick.
    destruct (issue_loop_inv _ _ _ _ (NoDup_seq _ _) Htick) as (_ & -> & _).
    done.
  - split; [|done]. eapply wf_with; [exact IH|done| |by destruct IH].
    simpl. by rewrite length_fmap.
  - split; [|done]. eapply wf_with; [exact IH|done|done|by destruct IH].
Qed.

End tick_whole.

Section bank_rules.

Import CycleAccurateLPDDR5Controller.

(** The iteration of [issue_commands] for bank [i], by what it does to
    the bank: a command it issues passed its gate and latches its
    timers, no command leaves the bank alone, and [next_pre] is written
    by neither. *)
Lemma issue_bank_rule i c tr c' :
  issue_bank i c = Some (tr, c') ->
  exists b,
    banks_ c !! i = Some b /\
    exists b',
    banks_ c' !! i = Some b' /\
    LPDDR5Bank.next_pre b' = LPDDR5Bank.next_pre b /\
    (forall cmd, Issue cmd i ∈ tr ->
       bank_rule (timing c) (current_cycle_ c) cmd b b') /\
    ((forall cmd, Issue cmd i ∉ tr) -> b' = b).
Proof.
  unfold issue_bank. intros Hstep.
  destruct (banks_ c !! i) as [b|] eqn:Hb; [|done]. simpl in Hstep.
  destruct (FrFcfsScheduler.get_next _ _ _ _) as [[next s]|]; [|done].
  simpl in Hstep.
  assert (i < length (banks_ c))%nat as Hi by (by eapply lookup_lt_Some).
  exists b. split; [done|].
  assert (forall c0 : t,
            banks_ c0 = banks_ c ->
            exists b',
              banks_ c0 !! i = Some b' /\
              LPDDR5Bank.next_pre b' = LPDDR5Bank.next_pre b /\
              (forall cmd, Issue cmd i ∈ [] ->
                 bank_rule (timing c) (current_cycle_ c) cmd b b') /\
              ((forall cmd, Issue cmd i ∉ []) -> b' = b)) as Hquiet.
  { intros c0 Hc0. exists b. rewrite Hc0. split; [done|]. split; [done|].
    split; [by intros cmd ?%elem_of_nil|done]. }
  destruct next as [req|]; [|injection Hstep as <- <-; by apply Hquiet].
  case_bool_decide as Hidle.
  { destruct (Z.leb_spec (LPDDR5Bank.next_act b) (current_cycle_ c)) as [Hgate|];
      [|injection Hstep as <- <-; by apply Hquiet].
    injection Hstep as <- <-. eexists. simpl.
    rewrite list_lookup_insert_eq by done.
    split; [done|]. split; [done|]. split.
    - intros cmd [[= ->]|?%elem_of_nil]%elem_of_cons; [|done].
      split; [done|]. split; [done|]. by eexists.
    - intros Hnone. destruct (Hnone ACT). by left. }
  case_bool_decide as Hactive; [|injection Hstep as <- <-; by apply Hquiet].
  destruct (LPDDR5Bank.open_row b =? Request.row req); cycle 1.
  { destruct (Z.leb_spec (LPDDR5Bank.next_pre b) (current_cycle_ c)) as [Hgate|];
      [|injection Hstep as <- <-; by apply Hquiet].
    injection Hstep as <- <-. eexists. simpl.
    rewrite list_lookup_insert_eq by done.
    split; [done|]. split; [done|]. split.
    - intros cmd [[= ->]|?%elem_of_nil]%elem_of_cons; [|done]. by repeat split.
    - intros Hnone. destruct (Hnone PRE). by left. }
  destruct (LPDDR5Bank.is_ready_for b (Request.type req) (current_cycle_ c))
    eqn:Hready; [|injection Hstep as <- <-; by apply Hquiet].
  unfold LPDDR5Bank.is_ready_for in Hready.
  rewrite bool_decide_false in Hready by (by intros []).
  unfold issue_cas in Hstep.
  destruct (FrFcfsScheduler.remove _ req) as [s'|]; [|done]. simpl in Hstep.
  injection Hstep as <- <-. eexists. simpl.
  rewrite list_lookup_insert_eq by done. split; [done|].
  destruct (Request.type req); apply Z.leb_le in Hready.
  - split; [done|]. split.
    + intros cmd Hin. apply elem_of_cons in Hin as [[= ->]|Hin].
      * by repeat split.
      * destruct (Request.callback req);
          [apply elem_of_cons in Hin as [[=]|Hin]|];
          by apply elem_of_nil in Hin.
    + intros Hnone. destruct (Hnone RD). by left.
  - split; [done|]. split.
    + intros cmd Hin. apply elem_of_cons in Hin as [[= ->]|Hin].
      * by repeat split.
      * destruct (Request.callback req);
          [apply elem_of_cons in Hin as [[=]|Hin]|];
          by apply elem_of_nil in Hin.
    + intros Hnone. destruct (Hnone WR). by left.
Qed.

Lemma issue_loop_rule indices c tr c' i b :
  NoDup indices ->
  issue_loop indices c = Some (tr, c') ->
  banks_ c !! i = Some b ->
  exists b',
    banks_ c' !! i = Some b' /\
    LPDDR5Bank.next_pre b' = LPDDR5Bank.next_pre b /\
    (forall cmd, Issue cmd i ∈ tr ->
       bank_rule (timing c) (current_cycle_ c) cmd b b') /\
    ((forall cmd, Issue cmd i ∉ tr) -> b' = b).
Proof.
  revert c tr c'. induction indices as [|i0 rest IH];
    intros c tr c' Hnodup; simpl.
  - intros [= <- <-] Hb. exists b. split; [done|]. split; [done|].
    split; [by intros cmd ?%elem_of_nil|done].
  - apply NoDup_cons in Hnodup as [Hi0 Hrest].
    destruct (issue_bank i0 c) as [[tr1 c1]|] eqn:Hstep; [|done]. simpl.
    destruct (issue_loop rest c1) as [[tr2 c2]|] eqn:Hloop; [|done]. simpl.
    intros [= <- <-] Hb.
    destruct (issue_bank_inv _ _ _ _ Hstep)
      as (Hcyc1 & Hcfg1 & _ & _ & Hframe1 & _ & Hon1 & _).
    destruct (issue_loop_inv _ _ _ _ Hrest Hloop)
      as (_ & _ & _ & _ & Hframe2 & Hon2 & _).
    destruct (decide (i = i0)) as [->|Hne].
    + destruct (issue_bank_rule _ _ _ _ Hstep)
        as (b0 & Hb0 & b1 & Hb1 & Hpre & Hrule & Hnone).
      rewrite Hb in Hb0. injection Hb0 as <-.
      exists b1. rewrite Hframe2 by done. split; [done|]. split; [done|].
      split.
      * intros cmd [Hin|Hin]%elem_of_app; [by apply Hrule|].
        by destruct (Hon2 _ _ Hin).
      * intros Hquiet. apply Hnone. intros cmd Hin.
        apply (Hquiet cmd). apply elem_of_app. by left.
    + destruct (IH c1 tr2 c2 Hrest Hloop) as (b' & Hb' & Hpre & Hrule & Hnone);
        [by rewrite Hframe1|].
      exists b'. split; [done|]. split; [done|]. split.
      * intros cmd [Hin|Hin]%elem_of_app.
        -- by destruct (Hon1 _ _ Hin).
        -- unfold timing in *. rewrite <- Hcfg1, <- Hcyc1. by apply Hrule.
      * intros Hquiet. apply Hnone. intros cmd Hin.
        apply (Hquiet cmd). apply elem_of_app. by right.
Qed.

(** One tick, bank by bank: the bank as [update_bank_states] leaves it
    at the new cycle, then at most one command by its rule. *)
Lemma tick_bank_rule c tr c' i b :
  tick c = Some (tr, c') ->
  banks_ c !! i = Some b ->
  let now := u64 (current_cycle_ c + 1) in
  exists b',
    banks_ c' !! i = Some b' /\
    LPDDR5Bank.next_pre b' = LPDDR5Bank.next_pre b /\
    (forall cmd, Issue cmd i ∈ tr ->
       bank_rule (timing c) now cmd (update_bank now b) b') /\
    ((forall cmd, Issue cmd i ∉ tr) -> b' = update_bank now b).
Proof.
  intros Htick Hb now. apply tick_unfold in Htick.
  destruct (issue_loop_rule _ _ _ _ i (update_bank now b) (NoDup_seq _ _) Htick)
    as (b' & Hb' & Hpre & Hrule & Hnone).
  { simpl. by rewrite list_lookup_fmap, Hb. }
  exists b'. split; [done|]. split; [|by split].
  rewrite Hpre. by destruct (update_bank_keeps now b) as (_ & _ & _ & -> & _).
Qed.

Lemma tick_commands_in_range c tr c' cmd i :
  tick c = Some (tr, c') -> Issue cmd i ∈ tr ->
  is_Some (banks_ c !! i) /\ cmd <> REF.
Proof.
  intros Htick Hin. apply tick_unfold in Htick.
  destruct (issue_loop_inv _ _ _ _ (NoDup_seq _ _) Htick)
    as (_ & _ & _ & _ & _ & Hon & _).
  destruct (Hon _ _ Hin) as [Hi%elem_of_seq ?]. split; [|done].
  apply lookup_lt_is_Some_2. lia.
Qed.

End bank_rules.

(** C1, as the code has it.  Whatever the queued pointers point to, a
    [tick] that returns puts at most one command on the bus for each
    bank: the commands of one cycle are at most as many as the banks,
    each goes to a bank of its own that exists, and none is a REF.
    Nothing gates the banks against each other. *)
Theorem one_command_per_bank_per_tick
    (c : CycleAccurateLPDDR5Controller.t) (tr : list Event)
    (c' : CycleAccurateLPDDR5Controller.t) :
  CycleAccurateLPDDR5Controller.tick c = Some (tr, c') ->
  (forall i, (length (commands_on i tr) <= 1)%nat) /\
  (length (commands tr)
   <= length (CycleAccurateLPDDR5Controller.banks_ c))%nat /\
  (forall cmd i, (cmd, i) ∈ commands tr ->
     cmd <> REF /\
     (i < length (CycleAccurateLPDDR5Controller.banks_ c))%nat).
Proof.
  intros Htick. apply tick_unfold in Htick.
  destruct (issue_loop_inv _ _ _ _ (NoDup_seq _ _) Htick)
    as (_ & _ & _ & _ & _ & Hon & Hone & Hmany & _).
  split; [done|]. split; [by rewrite length_seq in Hmany|].
  intros cmd i Hin%elem_of_commands. destruct (Hon _ _ Hin) as [Hi%elem_of_seq ?].
  split; [done|lia].
Qed.

Lemma one_command_per_bank_per_tick_witness :
  CycleAccurateLPDDR5Controller.tick Sample.two_queued
  = Some ([Issue ACT 0; Issue ACT 1], Sample.two_activated) /\
  (forall i, (length (commands_on i [Issue ACT 0; Issue ACT 1]) <= 1)%nat) /\
  length (commands [Issue ACT 0; Issue ACT 1]) = 2%nat.
Proof.
  split; [by vm_compute|]. split; [|done].
  apply (one_command_per_bank_per_tick Sample.two_queued
           [Issue ACT 0; Issue ACT 1] Sample.two_activated).
  by vm_compute.
Defined.

(** C2 against the code.  No statement of the controller assigns
    [next_pre]: the constructor and [reset] leave it 0 in every bank
    and a [tick] that returns leaves it in every bank as it found it,
    whatever the tick issues and whatever the queued pointers point to.
    In particular the bank a RD goes to at cycle [now] is left READING
    with [state_until = now + tBurst], [next_rd = now + tCCD_S] (never
    [tCCD_L]) and [next_wr = now + tRTW], and with [next_pre] and
    [next_act] untouched: [next_pre = now + tRTP] is not latched, and
    [tRTP] is read nowhere. *)
Theorem rd_never_latches_next_pre
    (c : CycleAccurateLPDDR5Controller.t) (tr : list Event)
    (c' : CycleAccurateLPDDR5Controller.t) :
  CycleAccurateLPDDR5Controller.tick c = Some (tr, c') ->
  let now := u64 (CycleAccurateLPDDR5Controller.current_cycle_ c + 1) in
  let tp := CycleAccurateLPDDR5Controller.timing c in
  (forall i b,
     CycleAccurateLPDDR5Controller.banks_ c !! i = Some b ->
     exists b',
       CycleAccurateLPDDR5Controller.banks_ c' !! i = Some b' /\
       LPDDR5Bank.next_pre b' = LPDDR5Bank.next_pre b) /\
  (forall i,
     Issue RD i ∈ tr ->
     exists b b',
       CycleAccurateLPDDR5Controller.banks_ c !! i = Some b /\
       CycleAccurateLPDDR5Controller.banks_ c' !! i = Some b' /\
       LPDDR5Bank.state b' = READING /\
       LPDDR5Bank.state_until b' = u64 (now + TimingParams.tBurst tp) /\
       LPDDR5Bank.next_rd b' = u64 (now + TimingParams.tCCD_S tp) /\
       LPDDR5Bank.next_wr b' = u64 (now + TimingParams.tRTW tp) /\
       LPDDR5Bank.next_act b' = LPDDR5Bank.next_act b /\
       LPDDR5Bank.next_pre b' = LPDDR5Bank.next_pre b) /\
  (forall config b,
     b ∈ CycleAccurateLPDDR5Controller.banks_
           (CycleAccurateLPDDR5Controller.create config) ->
     LPDDR5Bank.next_pre b = 0) /\
  (forall b,
     b ∈ CycleAccurateLPDDR5Controller.banks_
           (CycleAccurateLPDDR5Controller.reset c) ->
     LPDDR5Bank.next_pre b = 0).
Proof.
  intros Htick now tp. split; [|split; [|split]].
  - intros i b Hb.
    destruct (tick_bank_rule c tr c' i b Htick Hb) as (b' & Hb' & Hpre & _).
    by exists b'.
  - intros i Hrd.
    destruct (tick_commands_in_range c tr c' RD i Htick Hrd) as [[b Hb] _].
    destruct (tick_bank_rule c tr c' i b Htick Hb) as (b' & Hb' & Hpre & Hrule & _).
    destruct (Hrule RD Hrd) as (_ & _ & Heq).
    exists b, b'. split; [done|]. split; [done|].
    destruct (update_bank_keeps now b) as (Hact & _ & _ & Hkeep & _).
    fold now tp in Heq. rewrite Heq. simpl. by repeat split.
  - intros config b [-> _]%elem_of_replicate. done.
  - intros b (? & -> & _)%list_elem_of_fmap. done.
Qed.

Lemma rd_never_latches_next_pre_witness :
  exists c' b',
    CycleAccurateLPDDR5Controller.tick Sample.read_ready
    = Some ([Issue RD 0; Completion 7%nat 27], c') /\
    CycleAccurateLPDDR5Controller.banks_ c' !! 0%nat = Some b' /\
    LPDDR5Bank.state b' = READING /\
    LPDDR5Bank.next_rd b' = 23 /\
    LPDDR5Bank.next_pre b' = 0 /\
    19 + TimingParams.tRTP (CycleAccurateLPDDR5Controller.timing Sample.read_ready)
    = 31.
Proof.
  assert (exists c',
            CycleAccurateLPDDR5Controller.tick Sample.read_ready
            = Some ([Issue RD 0; Completion 7%nat 27], c')) as [c' Htick]
    by (eexists; by vm_compute).
  destruct (rd_never_latches_next_pre Sample.read_ready _ c' Htick)
    as (_ & Hrd & _).
  destruct (Hrd 0%nat) as (b & b' & Hb & Hb' & Hstate & _ & Hnext & _ & _ & Hpre);
    [by left|].
  exists c', b'. split; [exact Htick|]. split; [exact Hb'|].
  split; [exact Hstate|].
  vm_compute in Hb. injection Hb as <-.
  split; [rewrite Hnext; by vm_compute|]. split; [rewrite Hpre|]; reflexivity.
Defined.

(** * Further properties of the schedulers *)

Section buffer_operations.

(** What the loop of [remove] does to a list: the oldest request with
    the id is taken out, the others keep their order; without such a
    request the loop runs off the end. *)
Lemma erase_id_spec rid q :
  match BankBuffers.erase_id rid q with
  | Some q' =>
      exists older x newer,
        q = older ++ x :: newer /\ q' = older ++ newer /\
        Request.id x = rid /\
        Forall (fun y => Request.id y <> rid) older
  | None => Forall (fun y => Request.id y <> rid) q
  end.
Proof.
  induction q as [|y q IH]; simpl; [constructor|].
  destruct (Z.eqb_spec (Request.id y) rid) as [Heq|Hne].
  - exists [], y, q. by repeat split.
  - destruct (BankBuffers.erase_id rid q) as [q'|]; simpl.
    + destruct IH as (older & x & newer & -> & -> & Hx & Hall).
      exists (y :: older), x, newer. repeat split; [done|]. by constructor.
    + by constructor.
Qed.

End buffer_operations.

(** X1.  [FrFcfsScheduler::remove] matches by id within the list of the
    request's bank: it takes out the oldest queued request with that id
    (the others keep their order, the other banks are untouched, the
    depth of the bank and the occupancy go down by one), and when no
    queued request of the bank has the id it changes nothing. *)
Theorem remove_takes_oldest_with_id
    (s : FrFcfsScheduler.t) (request : Request.t) (q : list Request.t)
    (depth : Z) :
  let bank := Z.to_nat (Request.bank request) in
  BankBuffers.buffers_ (FrFcfsScheduler.buf_ s) !! bank = Some q ->
  BankBuffers.buffer_depths_ (FrFcfsScheduler.buf_ s) !! bank = Some depth ->
  ((forall y, y ∈ q -> Request.id y <> Request.id request) ->
   FrFcfsScheduler.remove s request = Some s) /\
  (forall older x newer,
     q = older ++ x :: newer ->
     Request.id x = Request.id request ->
     Forall (fun y => Request.id y <> Request.id request) older ->
     exists s',
       FrFcfsScheduler.remove s request = Some s' /\
       BankBuffers.buffers_ (FrFcfsScheduler.buf_ s')
         = <[bank := older ++ newer]> (BankBuffers.buffers_ (FrFcfsScheduler.buf_ s)) /\
       BankBuffers.buffer_depths_ (FrFcfsScheduler.buf_ s')
         = <[bank := u32 (depth - 1)]>
             (BankBuffers.buffer_depths_ (FrFcfsScheduler.buf_ s)) /\
       FrFcfsScheduler.occupancy s' = u64 (FrFcfsScheduler.occupancy s - 1)).
Proof.
  intros bank Hq Hd.
  unfold FrFcfsScheduler.remove, BankBuffers.remove. fold bank.
  rewrite Hq. simpl.
  pose proof (erase_id_spec (Request.id request) q) as Hspec.
  split.
  - intros Hnone.
    destruct (BankBuffers.erase_id _ q) as [q'|]; simpl.
    + destruct Hspec as (older & x & newer & -> & _ & Hx & _).
      destruct (Hnone x); [|done]. apply elem_of_app. right. by left.
    + by destruct s.
  - intros older x newer -> Hx Hold.
    destruct (BankBuffers.erase_id _ _) as [q'|]; simpl.
    + destruct Hspec as (older' & x' & newer' & Heq & -> & Hx' & Hold').
      assert (older' = older /\ newer' = newer) as [-> ->].
      { clear -Heq Hx Hx' Hold Hold'. revert older' Heq Hold'.
        induction older as [|y older IH]; intros [|y' older'] Heq Hold'; simpl in *.
        - by injection Heq as -> ->.
        - injection Heq as -> _. by apply Forall_cons in Hold' as [? _].
        - injection Heq as -> _. by apply Forall_cons in Hold as [? _].
        - injection Heq as -> Heq.
          apply Forall_cons in Hold as [_ Hold].
          apply Forall_cons in Hold' as [_ Hold'].
          by destruct (IH Hold older' Heq Hold') as [-> ->]. }
      rewrite Hd. simpl. by eexists.
    + rewrite list.Forall_forall in Hspec. destruct (Hspec x); [|done].
      apply elem_of_app. right. by left.
Qed.

Lemma remove_takes_oldest_with_id_witness :
  exists s',
    FrFcfsScheduler.remove
      (Sample.fr_fcfs_holding
         [Sample.request 1 0 7 READ; Sample.request 2 64 9 WRITE;
          Sample.request 2 128 9 READ])
      (Sample.request 2 128 9 READ) = Some s' /\
    BankBuffers.buffers_ (FrFcfsScheduler.buf_ s')
      = [[Sample.request 1 0 7 READ; Sample.request 2 128 9 READ]].
Proof.
  destruct (remove_takes_oldest_with_id
              (Sample.fr_fcfs_holding
                 [Sample.request 1 0 7 READ; Sample.request 2 64 9 WRITE;
                  Sample.request 2 128 9 READ])
              (Sample.request 2 128 9 READ)
              [Sample.request 1 0 7 READ; Sample.request 2 64 9 WRITE;
               Sample.request 2 128 9 READ] 3) as [_ Hfound];
    [reflexivity..|].
  destruct (Hfound [Sample.request 1 0 7 READ] (Sample.request 2 64 9 WRITE)
              [Sample.request 2 128 9 READ]) as (s' & Hremove & Hbuf & _).
  - reflexivity.
  - reflexivity.
  - repeat constructor. done.
  - exists s'. split; [exact Hremove|]. rewrite Hbuf. reflexivity.
Defined.

Section round_trip.

Lemma erase_id_appended r q :
  Forall (fun y => Request.id y <> Request.id r) q ->
  BankBuffers.erase_id (Request.id r) (q ++ [r]) = Some q.
Proof.
  induction q as [|y q IH]; intros Hall; simpl.
  - by rewrite Z.eqb_refl.
  - apply Forall_cons in Hall as [Hy Hall].
    destruct (Z.eqb_spec (Request.id y) (Request.id r)); [done|].
    by rewrite IH.
Qed.

End round_trip.

(** X2.  [store] then [remove] of a request whose id no queued request
    of its bank has gives the scheduler back as it was (the lists, the
    depths and the occupancy), as long as the two counters do not wrap. *)
Theorem store_remove_round_trip
    (s : FrFcfsScheduler.t) (request : Request.t) (q : list Request.t)
    (depth : Z) :
  let bank := Z.to_nat (Request.bank request) in
  BankBuffers.buffers_ (FrFcfsScheduler.buf_ s) !! bank = Some q ->
  BankBuffers.buffer_depths_ (FrFcfsScheduler.buf_ s) !! bank = Some depth ->
  Forall (fun y => Request.id y <> Request.id request) q ->
  0 <= depth < 2 ^ 32 - 1 ->
  0 <= FrFcfsScheduler.occupancy s < 2 ^ 64 - 1 ->
  exists s1,
    FrFcfsScheduler.store s request = Some s1 /\
    BankBuffers.buffers_ (FrFcfsScheduler.buf_ s1) !! bank = Some (q ++ [request]) /\
    FrFcfsScheduler.occupancy s1 = FrFcfsScheduler.occupancy s + 1 /\
    FrFcfsScheduler.remove s1 request = Some s.
Proof.
  intros bank Hq Hd Hfresh Hdepth Hocc.
  assert (bank < length (BankBuffers.buffers_ (FrFcfsScheduler.buf_ s)))%nat
    by (by eapply lookup_lt_Some).
  assert (bank < length (BankBuffers.buffer_depths_ (FrFcfsScheduler.buf_ s)))%nat
    by (by eapply lookup_lt_Some).
  destruct s as [cfg [bufs depths occ] sel hits].
  unfold FrFcfsScheduler.occupancy, BankBuffers.occupancy in *. simpl in *.
  unfold FrFcfsScheduler.store, FrFcfsScheduler.remove, BankBuffers.store,
    BankBuffers.remove. simpl. fold bank. rewrite Hq, Hd. simpl.
  eexists. split; [done|]. simpl.
  rewrite !list_lookup_insert_eq by done. simpl.
  split; [done|]. split; [apply u64_small; lia|].
  rewrite erase_id_appended by done. simpl.
  rewrite !list_insert_insert_eq.
  rewrite (list_insert_id bufs bank q Hq).
  unfold FrFcfsScheduler.with_buf. simpl. do 3 f_equal.
  - replace (u32 (u32 (depth + 1) - 1)) with depth; [by apply list_insert_id|].
    unfold u32. rewrite (Z.mod_small (depth + 1)) by lia.
    rewrite Z.mod_small by lia. lia.
  - rewrite (u64_small (occ + 1)) by lia. rewrite u64_small by lia. lia.
Qed.

Lemma store_remove_round_trip_witness :
  exists s1,
    FrFcfsScheduler.store
      (Sample.fr_fcfs_holding [Sample.request 1 0 7 READ])
      (Sample.request 2 64 9 WRITE) = Some s1 /\
    FrFcfsScheduler.remove s1 (Sample.request 2 64 9 WRITE)
      = Some (Sample.fr_fcfs_holding [Sample.request 1 0 7 READ]).
Proof.
  destruct (store_remove_round_trip
              (Sample.fr_fcfs_holding [Sample.request 1 0 7 READ])
              (Sample.request 2 64 9 WRITE)
              [Sample.request 1 0 7 READ] 1)
    as (s1 & Hstore & _ & _ & Hremove).
  - reflexivity.
  - reflexivity.
  - repeat constructor. done.
  - done.
  - done.
  - by exists s1.
Defined.

(** X3.  The FIFO scheduler serves a bank in arrival order: when the
    requests queued for a bank carry that bank, asking for the next
    request and removing it, once per queued request, yields the queue
    in the order stored and leaves the bank empty, whatever open row
    and last command are passed. *)
Theorem fifo_serves_in_arrival_order
    (q : list Request.t) (s : FifoScheduler.t) (bank : Z)
    (open_row : option Z) (last_cmd : RequestType) :
  0 <= bank ->
  BankBuffers.buffers_ (FifoScheduler.buf_ s) !! Z.to_nat bank = Some q ->
  (Z.to_nat bank
   < length (BankBuffers.buffer_depths_ (FifoScheduler.buf_ s)))%nat ->
  Forall (fun r => Request.bank r = bank) q ->
  exists s',
    fifo_serve (length q) s bank open_row last_cmd = Some (q, s') /\
    BankBuffers.buffers_ (FifoScheduler.buf_ s') !! Z.to_nat bank = Some [] /\
    forall j, j <> Z.to_nat bank ->
      BankBuffers.buffers_ (FifoScheduler.buf_ s') !! j
      = BankBuffers.buffers_ (FifoScheduler.buf_ s) !! j.
Proof.
  intros Hbank. revert s.
  induction q as [|front rest IH]; intros s Hq Hdepths Hall; simpl.
  - by exists s.
  - apply Forall_cons in Hall as [Hfront Hall].
    destruct (lookup_lt_is_Some_2 _ _ Hdepths) as [d Hd].
    unfold FifoScheduler.get_next. rewrite Hq. simpl.
    unfold FifoScheduler.remove, BankBuffers.remove. simpl.
    rewrite Hfront, Hq. simpl. rewrite Z.eqb_refl, Hd. simpl.
    match goal with
    | |- context [fifo_serve _ ?s1 _ _ _] =>
        destruct (IH s1) as (s' & Hserve & Hempty & Hother)
    end.
    + simpl. apply list_lookup_insert_eq. by eapply lookup_lt_Some.
    + simpl. by rewrite length_insert.
    + done.
    + rewrite Hserve. simpl. exists s'. split; [done|]. split; [done|].
      intros j Hj. rewrite (Hother j Hj). simpl.
      by apply list_lookup_insert_ne.
Qed.

Lemma fifo_serves_in_arrival_order_witness :
  exists s',
    fifo_serve 3
      (Sample.fifo_holding
         [Sample.request 1 0 7 READ; Sample.request 2 64 9 WRITE;
          Sample.request 3 128 7 READ])
      0 (Some 9) WRITE
    = Some ([Sample.request 1 0 7 READ; Sample.request 2 64 9 WRITE;
             Sample.request 3 128 7 READ], s').
Proof.
  destruct (fifo_serves_in_arrival_order
              [Sample.request 1 0 7 READ; Sample.request 2 64 9 WRITE;
               Sample.request 3 128 7 READ]
              (Sample.fifo_holding
                 [Sample.request 1 0 7 READ; Sample.request 2 64 9 WRITE;
                  Sample.request 3 128 7 READ])
              0 (Some 9) WRITE) as (s' & Hserve & _).
  - done.
  - reflexivity.
  - simpl. lia.
  - repeat constructor.
  - by exists s'.
Defined.

Section row_hits.

(** The counting loop started at [k] hits: true exactly when the list
    holds a request for the row and the count reaches two. *)
Lemma has_row_hit_from_spec k row q :
  0 <= k ->
  FrFcfsScheduler.has_row_hit_from k row q = true <->
  (1 <= row_count row q)%nat /\ 2 <= k + Z.of_nat (row_count row q).
Proof.
  unfold row_count. revert k.
  induction q as [|r q IH]; intros k Hk; simpl.
  - split; [done|]. simpl. lia.
  - rewrite filter_cons.
    destruct (Z.eqb_spec (Request.row r) row) as [Heq|Hne].
    + rewrite decide_True by done. simpl.
      destruct (Z.leb_spec 2 (k + 1)) as [Hle|Hgt].
      * split; [intros _; lia|done].
      * rewrite IH by lia. lia.
    + rewrite decide_False by done. by apply IH.
Qed.

End row_hits.

(** X4.  [has_row_hit(bank, row, type)] of the FR-FCFS schedulers is
    true exactly when the list of the bank holds at least two requests
    for the row (one more hit behind the current one), whatever the
    type; the FIFO scheduler always answers false. *)
Theorem has_row_hit_needs_two
    (fr : FrFcfsScheduler.t) (grp : FrFcfsGrpScheduler.t)
    (fifo : FifoScheduler.t) (bank row : Z) (type : RequestType)
    (qr qg : list Request.t) :
  BankBuffers.buffers_ (FrFcfsScheduler.buf_ fr) !! Z.to_nat bank = Some qr ->
  BankBuffers.buffers_ (FrFcfsGrpScheduler.buf_ grp) !! Z.to_nat bank = Some qg ->
  FrFcfsScheduler.has_row_hit fr bank row type
    = Some (bool_decide (2 <= row_count row qr)%nat) /\
  FrFcfsGrpScheduler.has_row_hit grp bank row type
    = Some (bool_decide (2 <= row_count row qg)%nat) /\
  FifoScheduler.has_row_hit fifo bank row type = false.
Proof.
  intros Hr Hg.
  unfold FrFcfsScheduler.has_row_hit, FrFcfsGrpScheduler.has_row_hit.
  rewrite Hr, Hg. simpl.
  assert (forall q, FrFcfsScheduler.has_row_hit_from 0 row q
                    = bool_decide (2 <= row_count row q)%nat) as Hloop.
  { intros q. apply eq_true_iff_eq.
    rewrite has_row_hit_from_spec by done.
    rewrite bool_decide_eq_true. lia. }
  by rewrite !Hloop.
Qed.

Lemma has_row_hit_needs_two_witness :
  FrFcfsScheduler.has_row_hit
    (Sample.fr_fcfs_holding
       [Sample.request 1 0 9 READ; Sample.request 2 64 7 WRITE;
        Sample.request 3 128 9 READ]) 0 9 READ = Some true /\
  FrFcfsGrpScheduler.has_row_hit
    (Sample.grp_holding [Sample.request 1 0 9 READ; Sample.request 2 64 7 WRITE])
    0 9 READ = Some false.
Proof.
  destruct (has_row_hit_needs_two
              (Sample.fr_fcfs_holding
                 [Sample.request 1 0 9 READ; Sample.request 2 64 7 WRITE;
                  Sample.request 3 128 9 READ])
              (Sample.grp_holding
                 [Sample.request 1 0 9 READ; Sample.request 2 64 7 WRITE])
              (Sample.fifo_holding []) 0 9 READ
              [Sample.request 1 0 9 READ; Sample.request 2 64 7 WRITE;
               Sample.request 3 128 9 READ]
              [Sample.request 1 0 9 READ; Sample.request 2 64 7 WRITE])
    as (Hr & Hg & _); [reflexivity..|].
  split; [exact Hr|exact Hg].
Defined.

Section grouping_choice.

Import FrFcfsGrpScheduler.

Implicit Types (buffer : list Request.t) (p c : Ptr) (l : list Ptr).

(** When the walk of [has_address_hazard] over slot-ordered candidates
    reports a hazard, a candidate before the target has its address. *)
Lemma hazard_found l p :
  StronglySorted by_slot l -> p ∈ l ->
  has_address_hazard l p = true ->
  exists c, c ∈ l /\ (c.1 < p.1)%nat /\
            Request.address c.2 = Request.address p.2.
Proof.
  induction l as [|c0 l IH]; [by intros _ ?%elem_of_nil|].
  rewrite StronglySorted_cons. intros [Hc0 Hl] Hp Hwalk.
  rewrite list.Forall_forall in Hc0. simpl in Hwalk.
  case_bool_decide as Hslot; [done|].
  apply elem_of_cons in Hp as [->|Hp]; [done|].
  destruct (Z.eqb_spec (Request.address c0.2) (Request.address p.2))
    as [Haddr|Hne].
  - exists c0. split; [by left|]. split; [|done]. by apply Hc0.
  - destruct (IH Hl Hp Hwalk) as (c & Hc & Hlt & Haddr).
    exists c. split; [by right|done].
Qed.

(** The grouping walk returns the first candidate of the type that has
    no hazard. *)
Lemma find_grouped_first l last todo :
  match find_grouped l last todo with
  | Some p =>
      exists before after,
        todo = before ++ p :: after /\
        Request.type p.2 = last /\ has_address_hazard l p = false /\
        Forall (fun c => ~ (Request.type c.2 = last /\
                            has_address_hazard l c = false)) before
  | None =>
      Forall (fun c => ~ (Request.type c.2 = last /\
                          has_address_hazard l c = false)) todo
  end.
Proof.
  induction todo as [|c todo IH]; simpl; [constructor|].
  case_bool_decide as Htype; simpl.
  - destruct (has_address_hazard l c) eqn:Hwalk; simpl.
    + destruct (find_grouped l last todo) as [p|].
      * destruct IH as (before & after & -> & ? & ? & Hall).
        exists (c :: before), after. repeat split; try done.
        constructor; [|done]. intros [_ ?]; congruence.
      * constructor; [|done]. intros [_ ?]; congruence.
    + exists [], todo. by repeat split.
  - destruct (find_grouped l last todo) as [p|].
    + destruct IH as (before & after & -> & ? & ? & Hall).
      exists (c :: before), after. repeat split; try done.
      constructor; [|done]. by intros [? _].
    + constructor; [|done]. by intros [? _].
Qed.

(** Among the row hits, the candidates the grouping step looks for are
    the ones of the type for which the hazard walk finds nothing. *)
Lemma grouped_candidate_walk buffer row last c :
  c ∈ filter (fun p : Ptr => Request.row p.2 = row) (pointers buffer) ->
  grouped_candidate buffer row last c <->
  Request.type c.2 = last /\
  has_address_hazard
    (filter (fun p : Ptr => Request.row p.2 = row) (pointers buffer)) c = false.
Proof.
  intros Hc.
  assert (StronglySorted by_slot
            (filter (fun p : Ptr => Request.row p.2 = row) (pointers buffer)))
    as Hsorted by apply filter_sorted, pointers_sorted.
  pose proof Hc as [Hrow Hslot%elem_of_pointers]%list_elem_of_filter.
  split.
  - intros (_ & _ & Htype & Hclear). split; [done|].
    destruct (has_address_hazard _ c) eqn:Hwalk; [|done].
    destruct (hazard_found _ _ Hsorted Hc Hwalk) as (c' & Hc' & Hlt & Haddr).
    apply list_elem_of_filter in Hc' as [Hrow' Hslot'%elem_of_pointers].
    by destruct (Hclear c'.1 c'.2 Hlt Hslot' Hrow').
  - intros [Htype Hwalk]. repeat split; try done.
    intros j x Hlt Hx Hxrow.
    apply (no_hazard_before _ _ Hsorted Hc Hwalk (j, x)); [|done].
    apply list_elem_of_filter. split; [done|]. by apply elem_of_pointers.
Qed.

(** In a slot-ordered list, what stands before an element points to
    older slots, what stands after to newer ones. *)
Lemma sorted_split l before p after :
  StronglySorted by_slot l -> l = before ++ p :: after ->
  (forall c, c ∈ before -> (c.1 < p.1)%nat) /\
  (forall c, c ∈ after -> (p.1 < c.1)%nat).
Proof.
  intros Hsorted ->. apply StronglySorted_app in Hsorted as (Hcross & _ & Htail).
  apply StronglySorted_cons in Htail as [Hafter _].
  rewrite list.Forall_forall in Hafter. split; [|done].
  intros c Hc. apply (Hcross c p Hc). by left.
Qed.

End grouping_choice.

(** X5.  What [FrFcfsGrpScheduler::get_next] picks for a bank whose
    queue is not empty.  With a row open: the oldest queued request for
    that row that has the type of [last_command_] and no older request
    for the row at its address, when there is one; else the oldest
    request for the row, when there is one; else the oldest request.
    With no row open: the oldest request.  The [last_cmd] argument plays
    no part, and the queue is left as it was. *)
Theorem grp_get_next_choice
    (s : FrFcfsGrpScheduler.t) (bank : Z) (open_row : option Z)
    (last_cmd : RequestType) (buffer : list Request.t) :
  BankBuffers.buffers_ (FrFcfsGrpScheduler.buf_ s) !! Z.to_nat bank
    = Some buffer ->
  buffer <> [] ->
  exists p s',
    FrFcfsGrpScheduler.get_next s bank open_row last_cmd = Some (Some p, s') /\
    FrFcfsGrpScheduler.buf_ s' = FrFcfsGrpScheduler.buf_ s /\
    FrFcfsGrpScheduler.last_command_ s' = FrFcfsGrpScheduler.last_command_ s /\
    buffer !! p.1 = Some p.2 /\
    match open_row with
    | Some row =>
        let last := FrFcfsGrpScheduler.last_command_ s in
        ((exists c, grouped_candidate buffer row last c) ->
         grouped_candidate buffer row last p /\
         forall c, grouped_candidate buffer row last c -> (p.1 <= c.1)%nat) /\
        ((forall c, ~ grouped_candidate buffer row last c) ->
         (exists x, x ∈ buffer /\ Request.row x = row) ->
         first_row_hit buffer row p) /\
        ((forall x, x ∈ buffer -> Request.row x <> row) -> p.1 = 0%nat)
    | None => p.1 = 0%nat
    end.
Proof.
  intros Hbuf Hne. unfold FrFcfsGrpScheduler.get_next. rewrite Hbuf.
  destruct buffer as [|front rest] eqn:Hshape; [done|]. rewrite <- Hshape in *.
  assert (buffer !! 0%nat = Some front) as Hfront by (by rewrite Hshape).
  destruct open_row as [row|]; cycle 1.
  { rewrite Hshape. cbn. eexists _, _. by repeat split. }
  cbn -[FrFcfsGrpScheduler.pointers filter]. rewrite Hshape. cbn -[FrFcfsGrpScheduler.pointers filter].
  rewrite <- Hshape.
  set (row_hits := filter _ (FrFcfsGrpScheduler.pointers buffer)).
  assert (StronglySorted by_slot row_hits) as Hsorted
    by apply filter_sorted, pointers_sorted.
  assert (forall c, c ∈ row_hits <->
            Request.row c.2 = row /\ buffer !! c.1 = Some c.2) as Hhits.
  { intros c. subst row_hits. rewrite list_elem_of_filter.
    by rewrite elem_of_pointers. }
  assert (forall c, grouped_candidate buffer row
                      (FrFcfsGrpScheduler.last_command_ s) c -> c ∈ row_hits)
    as Hcand.
  { intros c (Hslot & Hrow & _). by apply Hhits. }
  assert (forall c, c ∈ row_hits ->
            grouped_candidate buffer row (FrFcfsGrpScheduler.last_command_ s) c
            <-> Request.type c.2 = FrFcfsGrpScheduler.last_command_ s /\
                FrFcfsGrpScheduler.has_address_hazard row_hits c = false)
    as Hiff.
  { intros c Hc. by apply grouped_candidate_walk. }
  clearbody row_hits. destruct row_hits as [|first_hit more] eqn:Hrh.
  - (* no request for the open row *)
    eexists _, _. split; [done|]. split; [done|]. split; [done|].
    split; [done|]. split; [|split; [|done]].
    + intros [c Hc]. apply Hcand in Hc. by apply elem_of_nil in Hc.
    + intros _ (x & Hx & Hrow). exfalso.
      apply list_elem_of_lookup in Hx as [j Hj].
      assert ((j, x) ∈ @nil FrFcfsGrpScheduler.Ptr) as Hin
        by (by apply Hhits).
      by apply elem_of_nil in Hin.
  - rewrite <- Hrh in *.
    assert (first_hit ∈ row_hits) as Hfirst by (rewrite Hrh; by left).
    pose proof (find_grouped_first row_hits
                  (FrFcfsGrpScheduler.last_command_ s) row_hits) as Hwalk.
    destruct (FrFcfsGrpScheduler.find_grouped row_hits _ row_hits) as [p|].
    + (* a grouped candidate *)
      destruct Hwalk as (before & after & Hsplit & Htype & Hclear & Hskipped).
      assert (p ∈ row_hits) as Hp
        by (rewrite Hsplit; apply elem_of_app; right; by left).
      assert (grouped_candidate buffer row
                (FrFcfsGrpScheduler.last_command_ s) p) as Hgood
        by (by apply (Hiff p Hp)).
      eexists _, _. split; [done|]. split; [done|]. split; [done|].
      split; [by apply Hhits|]. split; [|split].
      * intros _. split; [done|]. intros c Hc.
        pose proof (Hcand c Hc) as Hin.
        destruct (sorted_split _ _ _ _ Hsorted Hsplit) as [_ Hafter].
        pose proof Hin as Hin'. rewrite Hsplit in Hin'.
        apply elem_of_app in Hin' as [Hin'|Hin'].
        -- exfalso. rewrite list.Forall_forall in Hskipped.
           apply (Hskipped c Hin'). by apply (Hiff c Hin).
        -- apply elem_of_cons in Hin' as [->|Hin']; [done|].
           specialize (Hafter c Hin'). unfold by_slot in Hafter. lia.
      * intros Hnone. by destruct (Hnone p).
      * intros Hnone. exfalso. apply Hhits in Hp as [Hrow Hslot].
        apply (Hnone p.2); [|done]. by eapply list_elem_of_lookup_2.
    + (* no grouped candidate: the first row hit *)
      assert (first_row_hit buffer row first_hit) as Holdest.
      { pose proof Hfirst as [Hrow Hslot]%Hhits. repeat split; try done.
        intros j x Hlt Hx Hxrow.
        assert ((j, x) ∈ row_hits) as Hin by (by apply Hhits).
        destruct (sorted_split _ [] first_hit more Hsorted Hrh) as [_ Hafter].
        rewrite Hrh in Hin. apply elem_of_cons in Hin as [Heq|Hin].
        - rewrite <- Heq in Hlt. simpl in Hlt. lia.
        - specialize (Hafter _ Hin). unfold by_slot in Hafter.
          simpl in Hafter. lia. }
      eexists _, _. split; [done|]. split; [done|]. split; [done|].
      split; [by apply Hhits|]. split; [|split].
      * intros [c Hc]. exfalso. rewrite list.Forall_forall in Hwalk.
        apply (Hwalk c (Hcand c Hc)). by apply (Hiff c (Hcand c Hc)).
      * done.
      * intros Hnone. exfalso. apply Hhits in Hfirst as [Hrow Hslot].
        apply (Hnone first_hit.2); [|done]. by eapply list_elem_of_lookup_2.
Qed.

Lemma grp_get_next_choice_witness :
  exists p s',
    FrFcfsGrpScheduler.get_next
      (Sample.grp_holding
         [Sample.request 1 0 5 WRITE; Sample.request 2 64 5 READ;
          Sample.request 3 128 5 WRITE])
      0 (Some 5) WRITE = Some (Some p, s') /\
    p.1 = 1%nat /\ Request.type p.2 = READ.
Proof.
  destruct (grp_get_next_choice
              (Sample.grp_holding
                 [Sample.request 1 0 5 WRITE; Sample.request 2 64 5 READ;
                  Sample.request 3 128 5 WRITE])
              0 (Some 5) WRITE
              [Sample.request 1 0 5 WRITE; Sample.request 2 64 5 READ;
               Sample.request 3 128 5 WRITE])
    as (p & s' & Hnext & _).
  - reflexivity.
  - done.
  - exists p, s'. split; [exact Hnext|].
    vm_compute in Hnext. by injection Hnext as <- _.
Defined.

(** * Further properties of the statistics *)

Section statistics.

Import Statistics.

Lemma u64_add_l a b : u64 (u64 a + b) = u64 (a + b).
Proof. unfold u64. by rewrite Zplus_mod_idemp_l. Qed.

Lemma u64_add_r a b : u64 (a + u64 b) = u64 (a + b).
Proof. unfold u64. by rewrite Zplus_mod_idemp_r. Qed.

Lemma u64_range a : 0 <= u64 a < 2 ^ 64.
Proof. unfold u64. by apply Z.mod_pos_bound. Qed.

Lemma merge_comm s1 s2 : merge s1 s2 = merge s2 s1.
Proof.
  unfold merge. f_equal; try (f_equal; lia); lia.
Qed.

Lemma merge_assoc s1 s2 s3 : merge (merge s1 s2) s3 = merge s1 (merge s2 s3).
Proof.
  unfold merge. simpl.
  f_equal; rewrite ?u64_add_l, ?u64_add_r; try (f_equal; lia); lia.
Qed.

Lemma in_range_fields s :
  in_range s <->
  (0 <= reads s < 2 ^ 64 /\ 0 <= writes s < 2 ^ 64 /\
   0 <= page_hits s < 2 ^ 64 /\ 0 <= page_empty s < 2 ^ 64 /\
   0 <= page_conflicts s < 2 ^ 64 /\
   0 <= total_read_latency s < 2 ^ 64 /\ 0 <= total_write_latency s < 2 ^ 64 /\
   0 <= min_latency s < 2 ^ 64 /\ 0 <= max_latency s < 2 ^ 64) /\
  (0 <= busy_cycles s < 2 ^ 64 /\ 0 <= idle_cycles s < 2 ^ 64 /\
   0 <= stall_cycles s < 2 ^ 64 /\ 0 <= refreshes s < 2 ^ 64 /\
   0 <= refresh_cycles s < 2 ^ 64 /\
   0 <= read_to_write_turnarounds s < 2 ^ 64 /\
   0 <= write_to_read_turnarounds s < 2 ^ 64 /\
   0 <= active_cycles s < 2 ^ 64 /\ 0 <= precharge_cycles s < 2 ^ 64 /\
   0 <= powerdown_cycles s < 2 ^ 64).
Proof.
  unfold in_range. rewrite !Forall_cons, Forall_nil. tauto.
Qed.

(** One [record_request] is a merge with the statistics of that one
    request. *)
Lemma record_request_as_merge ty latency page_hit page_conflict s :
  in_range s -> 0 <= latency < 2 ^ 64 ->
  record_request ty latency page_hit page_conflict s
  = merge s (record_request ty latency page_hit page_conflict initial).
Proof.
  intros Hs Hlat. apply in_range_fields in Hs.
  destruct Hs as [(?&?&?&?&?&?&?&?&?) (?&?&?&?&?&?&?&?&?&?)].
  destruct s. simpl in *.
  assert (forall x, Z.min x (Z.min UINT64_MAX latency) = Z.min x latency)
    as Hmin by (intros x; unfold UINT64_MAX; lia).
  assert (forall x, Z.max x (Z.max 0 latency) = Z.max x latency)
    as Hmax by (intros x; lia).
  destruct ty, page_hit, page_conflict;
    cbv [record_request merge track_latency incr_page_hits
         incr_page_empty incr_page_conflicts count_read count_write
         with_counters initial reads writes page_hits page_empty
         page_conflicts total_read_latency total_write_latency
         min_latency max_latency busy_cycles idle_cycles stall_cycles
         refreshes refresh_cycles read_to_write_turnarounds
         write_to_read_turnarounds active_cycles precharge_cycles
         powerdown_cycles];
    rewrite ?Hmin, ?Hmax, ?Z.add_0_l, ?Z.add_0_r, ?u64_add_r;
    f_equal; symmetry; by apply u64_small.
Qed.

Lemma record_request_in_range ty latency page_hit page_conflict s :
  in_range s -> 0 <= latency < 2 ^ 64 ->
  in_range (record_request ty latency page_hit page_conflict s).
Proof.
  intros Hs Hlat. apply in_range_fields in Hs. apply in_range_fields.
  destruct Hs as [(?&?&?&?&?&?&?&?&?) (?&?&?&?&?&?&?&?&?&?)].
  destruct s. simpl in *.
  destruct ty, page_hit, page_conflict;
    cbv [record_request track_latency incr_page_hits
         incr_page_empty incr_page_conflicts count_read count_write
         with_counters reads writes page_hits page_empty
         page_conflicts total_read_latency total_write_latency
         min_latency max_latency busy_cycles idle_cycles stall_cycles
         refreshes refresh_cycles read_to_write_turnarounds
         write_to_read_turnarounds active_cycles precharge_cycles
         powerdown_cycles];
    repeat split; try apply u64_range; lia.
Qed.

Lemma record_all_in_range l s :
  in_range s -> Forall (fun x => 0 <= record_latency x < 2 ^ 64) l ->
  in_range (record_all l s).
Proof.
  revert s. induction l as [|[[[ty lat] h] c] l IH]; intros s Hs Hl; [done|].
  apply Forall_cons in Hl as [Hx Hl]. simpl.
  apply IH; [|done]. by apply record_request_in_range.
Qed.

Lemma initial_in_range : in_range initial.
Proof. apply in_range_fields. repeat split; by vm_compute. Qed.

Lemma record_all_as_merge l s :
  in_range s -> Forall (fun x => 0 <= record_latency x < 2 ^ 64) l ->
  l <> [] ->
  record_all l s = merge s (record_all l initial).
Proof.
  revert s. induction l as [|[[[ty lat] h] c] l IH]; intros s Hs Hl Hne; [done|].
  apply Forall_cons in Hl as [Hx Hl]. simpl in *.
  destruct l as [|y l].
  - simpl. by apply record_request_as_merge.
  - rewrite (IH (record_request ty lat h c s)); [|by apply record_request_in_range|done|done].
    rewrite (IH (record_request ty lat h c initial));
      [|apply record_request_in_range; [apply initial_in_range|done]|done|done].
    rewrite <- merge_assoc. f_equal. by apply record_request_as_merge.
Qed.

End statistics.

Section statistics_runs.

Import Statistics.

Lemma merge_initial_r s : in_range s -> merge s initial = s.
Proof.
  intros Hs. apply in_range_fields in Hs.
  destruct Hs as [(?&?&?&?&?&?&?&?&?) (?&?&?&?&?&?&?&?&?&?)].
  destruct s. simpl in *.
  cbv [merge initial reads writes page_hits page_empty
       page_conflicts total_read_latency total_write_latency
       min_latency max_latency busy_cycles idle_cycles stall_cycles
       refreshes refresh_cycles read_to_write_turnarounds
       write_to_read_turnarounds active_cycles precharge_cycles
       powerdown_cycles].
  rewrite !Z.add_0_r.
  f_equal; try (by apply u64_small); unfold UINT64_MAX; lia.
Qed.

Lemma u64_add_first a b c : u64 (u64 a + b + c) = u64 (a + b + c).
Proof. by rewrite <- Z.add_assoc, u64_add_l, Z.add_assoc. Qed.

Lemma u64_add_middle a b c : u64 (a + u64 b + c) = u64 (a + b + c).
Proof.
  rewrite (Z.add_comm a (u64 b)), u64_add_first. f_equal. lia.
Qed.

Lemma record_request_counts ty latency page_hit page_conflict s :
  let s' := record_request ty latency page_hit page_conflict s in
  u64 (reads s' + writes s') = u64 (reads s + writes s + 1) /\
  u64 (page_hits s' + page_empty s' + page_conflicts s')
  = u64 (page_hits s + page_empty s + page_conflicts s + 1).
Proof.
  destruct s.
  destruct ty, page_hit, page_conflict;
    cbv [record_request track_latency incr_page_hits
         incr_page_empty incr_page_conflicts count_read count_write
         with_counters reads writes page_hits page_empty page_conflicts];
    split;
    rewrite ?u64_add_first, ?u64_add_middle, ?u64_add_l, ?u64_add_r;
    f_equal; lia.
Qed.

Lemma min_max_after l s :
  let s' := record_all l s in
  (min_latency s' <= min_latency s /\
   (forall x, x ∈ l -> min_latency s' <= record_latency x) /\
   (min_latency s' = min_latency s \/
    exists x, x ∈ l /\ min_latency s' = record_latency x)) /\
  (max_latency s <= max_latency s' /\
   (forall x, x ∈ l -> record_latency x <= max_latency s') /\
   (max_latency s' = max_latency s \/
    exists x, x ∈ l /\ max_latency s' = record_latency x)).
Proof.
  revert s. induction l as [|[[[ty lat] h] c] l IH]; intros s.
  - simpl. split; (split; [done|]); (split; [by intros x ?%elem_of_nil|by left]).
  - specialize (IH (record_request ty lat h c s)). cbv zeta in IH |- *.
    change (record_all ((ty, lat, h, c) :: l) s)
      with (record_all l (record_request ty lat h c s)).
    assert (min_latency (record_request ty lat h c s) = Z.min (min_latency s) lat
            /\ max_latency (record_request ty lat h c s)
               = Z.max (max_latency s) lat) as [Hmin Hmax].
    { destruct s, ty, h, c; by cbv [record_request track_latency incr_page_hits
         incr_page_empty incr_page_conflicts count_read count_write
         with_counters min_latency max_latency]. }
    rewrite Hmin, Hmax in IH.
    destruct IH as [(Hle & Hall & Hwhich) (Hge & Hall' & Hwhich')].
    split.
    + split; [lia|]. split.
      * intros x [->|Hx]%elem_of_cons; [unfold record_latency; simpl; lia|].
        by apply Hall.
      * destruct Hwhich as [Heq|(x & Hx & Heq)].
        -- destruct (Z.min_spec (min_latency s) lat) as [[_ Hm]|[_ Hm]].
           ++ left. lia.
           ++ right. exists (ty, lat, h, c). split; [by left|].
              unfold record_latency. simpl. lia.
        -- right. exists x. split; [by right|done].
    + split; [lia|]. split.
      * intros x [->|Hx]%elem_of_cons; [unfold record_latency; simpl; lia|].
        by apply Hall'.
      * destruct Hwhich' as [Heq|(x & Hx & Heq)].
        -- destruct (Z.max_spec (max_latency s) lat) as [[_ Hm]|[_ Hm]].
           ++ right. exists (ty, lat, h, c). split; [by left|].
              unfold record_latency. simpl. lia.
           ++ left. lia.
        -- right. exists x. split; [by right|done].
Qed.

End statistics_runs.

(** X6.  [record_request] classifies every request once: after any
    calls, [reads + writes] and
    [page_hits + page_empty + page_conflicts] have both grown by the
    number of calls (as 64-bit sums), so statistics in which the two
    agree keep them equal; from fresh statistics [total_requests()] is
    the number of calls. *)
Theorem record_request_keeps_balance (l : list Record) (s : Statistics.t) :
  let s' := record_all l s in
  u64 (Statistics.reads s' + Statistics.writes s')
  = u64 (Statistics.reads s + Statistics.writes s + Z.of_nat (length l)) /\
  u64 (Statistics.page_hits s' + Statistics.page_empty s'
       + Statistics.page_conflicts s')
  = u64 (Statistics.page_hits s + Statistics.page_empty s
         + Statistics.page_conflicts s + Z.of_nat (length l)) /\
  (u64 (Statistics.reads s + Statistics.writes s)
   = u64 (Statistics.page_hits s + Statistics.page_empty s
          + Statistics.page_conflicts s) ->
   u64 (Statistics.reads s' + Statistics.writes s')
   = u64 (Statistics.page_hits s' + Statistics.page_empty s'
          + Statistics.page_conflicts s')) /\
  Statistics.total_requests (record_all l Statistics.initial)
  = u64 (Z.of_nat (length l)).
Proof.
  assert (forall l s,
    u64 (Statistics.reads (record_all l s) + Statistics.writes (record_all l s))
    = u64 (Statistics.reads s + Statistics.writes s + Z.of_nat (length l)) /\
    u64 (Statistics.page_hits (record_all l s)
         + Statistics.page_empty (record_all l s)
         + Statistics.page_conflicts (record_all l s))
    = u64 (Statistics.page_hits s + Statistics.page_empty s
           + Statistics.page_conflicts s + Z.of_nat (length l))) as Hcount.
  { clear. induction l as [|[[[ty lat] h] c] l IH]; intros s.
    - simpl. by rewrite !Z.add_0_r.
    - destruct (IH (Statistics.record_request ty lat h c s)) as [Hrw Hpage].
      destruct (record_request_counts ty lat h c s) as [Hrw1 Hpage1].
      simpl in *. split.
      + rewrite Hrw, <- u64_add_l, Hrw1, u64_add_l. f_equal. lia.
      + rewrite Hpage, <- u64_add_l, Hpage1, u64_add_l. f_equal. lia. }
  intros s'. destruct (Hcount l s) as [Hrw Hpage].
  split; [done|]. split; [done|]. split.
  - intros Hbalanced. subst s'. rewrite Hrw, Hpage.
    rewrite <- u64_add_l, Hbalanced, u64_add_l. done.
  - unfold Statistics.total_requests.
    destruct (Hcount l Statistics.initial) as [-> _]. done.
Qed.

(** X7.  On fresh statistics, after at least one [record_request] with
    latencies that fit 64 bits, [min_latency] and [max_latency] are the
    smallest and the largest latency recorded; before any call
    [min_latency] is the largest [uint64_t] and [max_latency] is 0. *)
Theorem latency_extremes (l : list Record) :
  Forall (fun x => 0 <= record_latency x < 2 ^ 64) l ->
  l <> [] ->
  let s := record_all l Statistics.initial in
  (forall x, x ∈ l ->
     Statistics.min_latency s <= record_latency x <= Statistics.max_latency s) /\
  (exists x, x ∈ l /\ record_latency x = Statistics.min_latency s) /\
  (exists x, x ∈ l /\ record_latency x = Statistics.max_latency s) /\
  Statistics.min_latency (record_all [] Statistics.initial) = UINT64_MAX /\
  Statistics.max_latency (record_all [] Statistics.initial) = 0.
Proof.
  intros Hrange Hne s.
  destruct (min_max_after l Statistics.initial)
    as [(Hle & Hall & Hwhich) (Hge & Hall' & Hwhich')].
  fold s in Hle, Hall, Hwhich, Hge, Hall', Hwhich'.
  rewrite list.Forall_forall in Hrange.
  destruct l as [|x0 l0] eqn:Hl; [done|]. rewrite <- Hl in *.
  assert (x0 ∈ l) as Hx0 by (rewrite Hl; by left).
  change (Statistics.min_latency Statistics.initial) with UINT64_MAX in *.
  change (Statistics.max_latency Statistics.initial) with 0 in *.
  split; [|split; [|split; [|done]]].
  - intros x Hx. split; [by apply Hall|by apply Hall'].
  - destruct Hwhich as [Heq|(x & Hx & Heq)]; [|by exists x].
    exists x0. split; [done|].
    pose proof (Hall x0 Hx0). pose proof (Hrange x0 Hx0).
    unfold UINT64_MAX in Heq. lia.
  - destruct Hwhich' as [Heq|(x & Hx & Heq)]; [|by exists x].
    exists x0. split; [done|].
    pose proof (Hall' x0 Hx0). pose proof (Hrange x0 Hx0). lia.
Qed.

Lemma latency_extremes_witness :
  let s :=
    record_all [(READ, 100, true, false); (WRITE, 150, false, true);
                (READ, 60, false, false)] Statistics.initial in
  Statistics.min_latency s = 60 /\ Statistics.max_latency s = 150.
Proof.
  destruct (latency_extremes
              [(READ, 100, true, false); (WRITE, 150, false, true);
               (READ, 60, false, false)]) as (_ & _ & _ & _ & _).
  - repeat constructor; done.
  - done.
  - by vm_compute.
Defined.

(** X8.  [merge] adds statistics up: it is commutative and associative,
    fresh statistics are neutral for statistics that fit 64 bits, and
    merging the statistics of two runs of [record_request] gives the
    statistics of the two runs one after the other. *)
Theorem merge_adds_runs (l1 l2 : list Record) (s1 s2 s3 : Statistics.t) :
  Forall (fun x => 0 <= record_latency x < 2 ^ 64) l1 ->
  Forall (fun x => 0 <= record_latency x < 2 ^ 64) l2 ->
  Statistics.in_range s1 ->
  Statistics.merge (record_all l1 Statistics.initial)
                   (record_all l2 Statistics.initial)
  = record_all (l1 ++ l2) Statistics.initial /\
  Statistics.merge s1 Statistics.initial = s1 /\
  Statistics.merge s1 s2 = Statistics.merge s2 s1 /\
  Statistics.merge (Statistics.merge s1 s2) s3
  = Statistics.merge s1 (Statistics.merge s2 s3).
Proof.
  intros Hl1 Hl2 Hs1.
  split; [|split; [by apply merge_initial_r|split;
    [apply merge_comm|apply merge_assoc]]].
  unfold record_all at 3. rewrite foldl_app.
  fold (record_all l1 Statistics.initial).
  fold (record_all l2 (record_all l1 Statistics.initial)).
  assert (Statistics.in_range (record_all l1 Statistics.initial)) as Hr1
    by (apply record_all_in_range; [apply initial_in_range|done]).
  destruct l2 as [|y l2].
  - simpl. by apply merge_initial_r.
  - symmetry. by apply record_all_as_merge.
Qed.

Lemma merge_adds_runs_witness :
  Statistics.merge
    (record_all [(READ, 100, true, false)] Statistics.initial)
    (record_all [(WRITE, 150, false, true)] Statistics.initial)
  = record_all [(READ, 100, true, false); (WRITE, 150, false, true)]
      Statistics.initial.
Proof.
  destruct (merge_adds_runs [(READ, 100, true, false)]
              [(WRITE, 150, false, true)]
              Statistics.initial Statistics.initial Statistics.initial)
    as [Hruns _].
  - repeat constructor; done.
  - repeat constructor; done.
  - apply initial_in_range.
  - exact Hruns.
Defined.

(** * Further properties of the cycle-accurate controller *)

Section decoding.

Lemma mod_split a b c :
  0 < b -> 0 < c -> a mod (b * c) = a mod b + b * ((a / b) mod c).
Proof. intros. apply Z.rem_mul_r; lia. Qed.

End decoding.

(** X9.  With sixteen banks per rank [decode_address] loses nothing of
    the low 30 address bits: the column is bits 0..9, the bank bits
    10..13 and the row bits 14..29, so that
    [column + 2^10 * bank + 2^14 * row] is the address modulo [2^30];
    the fields it does not decode (id, type, callback, rank, bank group)
    are kept. *)
Theorem decode_address_round_trip
    (c : CycleAccurateLPDDR5Controller.t) (request : Request.t) :
  OrganizationParams.banks_per_rank
    (ControllerConfig.organization (CycleAccurateLPDDR5Controller.config_ c))
  = 16 ->
  let d := CycleAccurateLPDDR5Controller.decode_address c request in
  Request.column d = Request.address request mod 2 ^ 10 /\
  Request.bank d = (Request.address request / 2 ^ 10) mod 2 ^ 4 /\
  Request.row d = (Request.address request / 2 ^ 14) mod 2 ^ 16 /\
  Request.column d + 2 ^ 10 * Request.bank d + 2 ^ 14 * Request.row d
  = Request.address request mod 2 ^ 30 /\
  Request.address d = Request.address request /\
  Request.id d = Request.id request /\
  Request.type d = Request.type request /\
  Request.callback d = Request.callback request /\
  Request.rank d = Request.rank request /\
  Request.bank_group d = Request.bank_group request.
Proof.
  intros Hbpr d. subst d. unfold CycleAccurateLPDDR5Controller.decode_address.
  rewrite Hbpr. cbn [Request.set_decoded Request.column Request.bank Request.row
    Request.address Request.id Request.type Request.callback Request.rank
    Request.bank_group].
  set (a := Request.address request).
  assert (u16 (Z.land a (1 ≪ 10 - 1)) = a mod 2 ^ 10) as Hcol.
  { change (1 ≪ 10 - 1) with (Z.ones 10). rewrite Z.land_ones by lia.
    unfold u16. apply Z.mod_small.
    pose proof (Z.mod_pos_bound a (2 ^ 10)). lia. }
  assert (u8 (Z.land (a ≫ 10) (CycleAccurateLPDDR5Controller.mask_below 16))
          = (a / 2 ^ 10) mod 2 ^ 4) as Hbank.
  { change (CycleAccurateLPDDR5Controller.mask_below 16) with (Z.ones 4).
    rewrite Z.land_ones, Z.shiftr_div_pow2 by lia.
    unfold u8. apply Z.mod_small.
    pose proof (Z.mod_pos_bound (a / 2 ^ 10) (2 ^ 4)). lia. }
  assert (u32 (Z.land ((a ≫ 10) ≫ 4) (1 ≪ 16 - 1)) = (a / 2 ^ 14) mod 2 ^ 16)
    as Hrow.
  { change (1 ≪ 16 - 1) with (Z.ones 16).
    rewrite Z.land_ones, !Z.shiftr_div_pow2, Z.div_div by lia.
    change (2 ^ 10 * 2 ^ 4) with (2 ^ 14).
    unfold u32. apply Z.mod_small.
    pose proof (Z.mod_pos_bound (a / 2 ^ 14) (2 ^ 16)). lia. }
  rewrite Hcol, Hbank, Hrow. repeat split.
  change (2 ^ 30) with (2 ^ 10 * (2 ^ 4 * 2 ^ 16)).
  rewrite (mod_split a) by lia. rewrite (mod_split (a / 2 ^ 10)) by lia.
  rewrite Z.div_div by lia. change (2 ^ 10 * 2 ^ 4) with (2 ^ 14). lia.
Qed.

Lemma decode_address_round_trip_witness :
  let d :=
    CycleAccurateLPDDR5Controller.decode_address
      (CycleAccurateLPDDR5Controller.create (Sample.lpddr5_config CYCLE_ACCURATE))
      (Sample.read_request (5 + 2 ^ 10 * 3 + 2 ^ 14 * 77) 64 None) in
  Request.column d = 5 /\ Request.bank d = 3 /\ Request.row d = 77.
Proof.
  destruct (decode_address_round_trip
              (CycleAccurateLPDDR5Controller.create
                 (Sample.lpddr5_config CYCLE_ACCURATE))
              (Sample.read_request (5 + 2 ^ 10 * 3 + 2 ^ 14 * 77) 64 None))
    as (Hcol & Hbank & Hrow & _).
  - reflexivity.
  - cbv zeta. rewrite Hcol, Hbank, Hrow. by vm_compute.
Defined.

Section pending.

Import CycleAccurateLPDDR5Controller.

Lemma concat_nil_length {A} (bs : list (list A)) :
  concat bs = [] <-> length (concat bs) = 0%nat.
Proof. split; [by intros ->|]. by destruct (concat bs). Qed.

End pending.

(** X10.  In every state a caller can reach (under a configuration with
    1 to 255 banks) the occupancy counter is the number of requests the
    scheduler holds and is at most [queue_depth]; [has_pending()] tells
    whether a request is held and [can_accept()] whether the occupancy
    is below [queue_depth]. *)
Theorem occupancy_counts_queued
    (config : ControllerConfig.t) (c : CycleAccurateLPDDR5Controller.t) :
  config_ok config ->
  reachable config c ->
  CycleAccurateLPDDR5Controller.pending_count c = Z.of_nat (length (queued c)) /\
  CycleAccurateLPDDR5Controller.pending_count c
    <= ControllerConfig.queue_depth config /\
  (CycleAccurateLPDDR5Controller.has_pending c = true <-> queued c <> []) /\
  (CycleAccurateLPDDR5Controller.can_accept c = true <->
   CycleAccurateLPDDR5Controller.pending_count c
     < ControllerConfig.queue_depth config).
Proof.
  intros Hok Hreach.
  destruct (reachable_wf _ _ Hok Hreach) as [[_ _ Hsched] Hcfg].
  destruct Hsched as [_ _ _ Hocc Hsize Hle]. rewrite Hcfg in *.
  destruct Hok as [_ Hdepth].
  unfold CycleAccurateLPDDR5Controller.pending_count,
    CycleAccurateLPDDR5Controller.has_pending,
    CycleAccurateLPDDR5Controller.can_accept,
    FrFcfsScheduler.has_any_pending, BankBuffers.has_any_pending,
    FrFcfsScheduler.has_space, BankBuffers.has_space,
    FrFcfsScheduler.occupancy, BankBuffers.occupancy, queued in *.
  split; [done|]. split; [done|]. split.
  - rewrite Z.ltb_lt, Hocc. rewrite concat_nil_length. lia.
  - rewrite Z.leb_le, Hsize. rewrite u64_small by lia. lia.
Qed.

Lemma occupancy_counts_queued_witness :
  CycleAccurateLPDDR5Controller.pending_count Sample.two_queued = 2 /\
  CycleAccurateLPDDR5Controller.has_pending Sample.two_queued = true.
Proof.
  destruct (occupancy_counts_queued (Sample.lpddr5_config CYCLE_ACCURATE)
              Sample.two_queued) as (Hcount & _ & _ & _).
  - repeat split; by vm_compute.
  - apply (reachable_submit _ Sample.one_queued
             (Sample.read_request 1024 64 None) (Some 2)); [|by vm_compute].
    apply (reachable_submit _
             (CycleAccurateLPDDR5Controller.create
                (Sample.lpddr5_config CYCLE_ACCURATE))
             (Sample.read_request 0 64 None) (Some 1)); [|by vm_compute].
    apply reachable_create.
  - rewrite Hcount. by vm_compute.
Defined.

(** ** One tick, without looking through the queued pointers *)

Section tick_shape.

Import CycleAccurateLPDDR5Controller.

Lemma cas_count_app tr1 tr2 :
  cas_count (tr1 ++ tr2) = (cas_count tr1 + cas_count tr2)%nat.
Proof.
  unfold cas_count. by rewrite commands_app, filter_app, length_app.
Qed.

Lemma completions_app tr1 tr2 :
  completions (tr1 ++ tr2) = completions tr1 ++ completions tr2.
Proof. apply omap_app. Qed.

(** The trace of a column command: the command and at most one
    callback. *)
Lemma cas_trace_counts ty i (callback : option CallbackId) latency :
  let tr :=
    Issue (match ty with READ => RD | WRITE => WR end) i
      :: match callback with
         | Some cb => [Completion cb latency]
         | None => []
         end in
  cas_count tr = 1%nat /\ (length (completions tr) <= 1)%nat.
Proof. destruct ty, callback; vm_compute; split; lia. Qed.

Lemma get_next_keeps s bank open_row last_cmd next s' :
  FrFcfsScheduler.get_next s bank open_row last_cmd = Some (next, s') ->
  FrFcfsScheduler.buf_ s' = FrFcfsScheduler.buf_ s /\
  FrFcfsScheduler.config_ s' = FrFcfsScheduler.config_ s.
Proof.
  unfold FrFcfsScheduler.get_next.
  destruct (_ !! _) as [[|front rest]|]; simpl; [by intros [= _ <-]| |done].
  destruct (open_row ≫= _); by intros [= _ <-].
Qed.

Lemma sched_shape_same n depth s s' :
  FrFcfsScheduler.buf_ s' = FrFcfsScheduler.buf_ s ->
  FrFcfsScheduler.config_ s' = FrFcfsScheduler.config_ s ->
  sched_shape n depth s -> sched_shape n depth s'.
Proof. intros Hbuf Hcfg [? ? ? ? ?]. split; by rewrite ?Hbuf, ?Hcfg. Qed.

(** [remove] on a scheduler of the right shape, for a request read
    through any pointer: it takes at most one pointer out, and the
    counters follow. *)
Lemma remove_shape n depth s r s' :
  sched_shape n depth s -> depth < 2 ^ 32 ->
  FrFcfsScheduler.remove s r = Some s' ->
  sched_shape n depth s' /\
  FrFcfsScheduler.occupancy s - 1 <= FrFcfsScheduler.occupancy s'
    <= FrFcfsScheduler.occupancy s.
Proof.
  intros [Hbuf Hdep Hocc Hsize Hle] Hdepth.
  unfold FrFcfsScheduler.remove, BankBuffers.remove,
    FrFcfsScheduler.occupancy, BankBuffers.occupancy.
  destruct (BankBuffers.buffers_ _ !! _) as [q|] eqn:Hq; [|done]. simpl.
  destruct (BankBuffers.erase_id _ q) as [q'|] eqn:Herase; simpl.
  - destruct (BankBuffers.buffer_depths_ _ !! _) as [d|]; [|done].
    simpl. intros [= <-]. simpl.
    destruct (erase_id_Some _ _ _ Herase) as [Hlen _].
    pose proof (length_concat_insert _ _ _ q' Hq) as Hcat.
    rewrite u64_small by lia. split; [|lia].
    split; simpl; rewrite ?length_insert; try done; lia.
  - intros [= <-]. simpl. split; [by split|lia].
Qed.

Lemma issue_bank_shape i c tr c' :
  well_shaped c ->
  issue_bank i c = Some (tr, c') ->
  well_shaped c' /\
  pending_count c - Z.of_nat (cas_count tr) <= pending_count c'
    <= pending_count c /\
  (length (completions tr) <= cas_count tr)%nat.
Proof.
  intros Hshape Hstep. pose proof Hshape as [[Hcount Hdepth] Hbanks Hsched].
  unfold issue_bank in Hstep.
  destruct (banks_ c !! i) as [b|] eqn:Hb; [|done]. simpl in Hstep.
  assert (i < length (banks_ c))%nat as Hi by (by eapply lookup_lt_Some).
  destruct (FrFcfsScheduler.get_next _ _ _ _) as [[next s]|] eqn:Hnext;
    [|done].
  simpl in Hstep.
  destruct (get_next_keeps _ _ _ _ _ _ Hnext) as [Hbuf Hcfg].
  pose proof (sched_shape_same _ _ _ s Hbuf Hcfg Hsched) as Hs.
  assert (forall c0 : t,
            config_ c0 = config_ c ->
            length (banks_ c0) = length (banks_ c) ->
            scheduler_ c0 = s ->
            well_shaped c0 /\
            pending_count c - Z.of_nat 0 <= pending_count c0
              <= pending_count c /\
            (0 <= 0)%nat) as Hquiet.
  { intros c0 Hc0 Hlen Hs0. split; [eapply well_shaped_with; by rewrite ?Hs0|].
    unfold pending_count, FrFcfsScheduler.occupancy. rewrite Hs0, Hbuf.
    split; lia. }
  destruct next as [req|];
    [|injection Hstep as <- <-; by apply Hquiet].
  case_bool_decide as Hidle.
  { destruct (LPDDR5Bank.next_act b <=? _); injection Hstep as <- <-;
      apply Hquiet; simpl; by rewrite ?length_insert. }
  case_bool_decide as Hactive;
    [|injection Hstep as <- <-; by apply Hquiet].
  destruct (LPDDR5Bank.open_row b =? Request.row req); cycle 1.
  { destruct (LPDDR5Bank.next_pre b <=? _); injection Hstep as <- <-;
      apply Hquiet; simpl; by rewrite ?length_insert. }
  destruct (LPDDR5Bank.is_ready_for _ _ _);
    [|injection Hstep as <- <-; by apply Hquiet].
  unfold issue_cas in Hstep.
  change (scheduler_ (with_scheduler c s)) with s in Hstep.
  destruct (FrFcfsScheduler.remove s req) as [s2|] eqn:Hremove; [|done].
  cbn [mbind option_bind] in Hstep. injection Hstep as <- <-.
  destruct (remove_shape _ _ _ _ _ Hs ltac:(lia) Hremove) as [Hs2 Hocc2].
  match goal with
  | |- context [Completion _ ?latency] =>
      destruct (cas_trace_counts (Request.type req) i (Request.callback req)
                  latency) as [Hcas Hdone]
  end.
  cbv zeta in Hcas, Hdone. rewrite Hcas.
  split; [eapply well_shaped_with; [exact Hshape|done| |done]|].
  { simpl. by rewrite length_insert. }
  split; [|exact Hdone].
  unfold pending_count in *. cbn [scheduler_].
  unfold FrFcfsScheduler.occupancy in *. rewrite Hbuf in Hocc2. lia.
Qed.

Lemma issue_loop_shape indices c tr c' :
  well_shaped c ->
  issue_loop indices c = Some (tr, c') ->
  well_shaped c' /\
  pending_count c - Z.of_nat (cas_count tr) <= pending_count c'
    <= pending_count c /\
  (length (completions tr) <= cas_count tr)%nat.
Proof.
  revert c tr c'. induction indices as [|i rest IH]; intros c tr c' Hshape;
    simpl.
  - intros [= <- <-]. split; [done|].
    change (cas_count []) with 0%nat. split; [lia|]. simpl. lia.
  - destruct (issue_bank i c) as [[tr1 c1]|] eqn:Hstep; [|done]. simpl.
    destruct (issue_loop rest c1) as [[tr2 c2]|] eqn:Hloop; [|done]. simpl.
    intros [= <- <-].
    destruct (issue_bank_shape _ _ _ _ Hshape Hstep) as (Hshape1 & Hocc1 & Hdone1).
    destruct (IH _ _ _ Hshape1 Hloop) as (Hshape2 & Hocc2 & Hdone2).
    split; [done|]. rewrite cas_count_app, completions_app, length_app.
    split; lia.
Qed.

Lemma overwrite_lengths {A} (g : nat -> nat -> A -> A) (bs : list (list A)) :
  length (concat (imap (fun i => imap (g i)) bs)) = length (concat bs).
Proof.
  revert g. induction bs as [|q bs IH]; intros g; [done|].
  rewrite imap_cons. simpl. rewrite !length_app, length_imap. f_equal.
  apply (IH (fun i => g (S i))).
Qed.

End tick_shape.

(** X11.  The counters of the scheduler follow its lists through a
    tick, whatever the queued pointers point to.  On a controller of
    the right shape a [tick] that returns leaves a controller of the
    right shape: the occupancy counter is still the number of queued
    pointers; it has not grown, and it has gone down by at most one
    for each RD or WR issued; at most one callback was called for each
    RD or WR; the id counter and the configuration are as they were and
    the cycle is one later.  Writing over the storage behind the
    pointers, [reset] and [set_cycle] change neither the shape nor the
    occupancy. *)
Theorem tick_keeps_counters
    (c : CycleAccurateLPDDR5Controller.t) (tr : list Event)
    (c' : CycleAccurateLPDDR5Controller.t) :
  well_shaped c ->
  CycleAccurateLPDDR5Controller.tick c = Some (tr, c') ->
  well_shaped c' /\
  CycleAccurateLPDDR5Controller.pending_count c - Z.of_nat (cas_count tr)
    <= CycleAccurateLPDDR5Controller.pending_count c'
    <= CycleAccurateLPDDR5Controller.pending_count c /\
  CycleAccurateLPDDR5Controller.pending_count c'
  = Z.of_nat (length (queued c')) /\
  (length (completions tr) <= cas_count tr)%nat /\
  CycleAccurateLPDDR5Controller.next_id_ c'
  = CycleAccurateLPDDR5Controller.next_id_ c /\
  CycleAccurateLPDDR5Controller.config_ c'
  = CycleAccurateLPDDR5Controller.config_ c /\
  CycleAccurateLPDDR5Controller.current_cycle_ c'
  = u64 (CycleAccurateLPDDR5Controller.current_cycle_ c + 1) /\
  (forall f,
     well_shaped (overwrite f c) /\
     CycleAccurateLPDDR5Controller.pending_count (overwrite f c)
     = CycleAccurateLPDDR5Controller.pending_count c) /\
  (well_shaped (CycleAccurateLPDDR5Controller.reset c) /\
   CycleAccurateLPDDR5Controller.pending_count
     (CycleAccurateLPDDR5Controller.reset c)
   = CycleAccurateLPDDR5Controller.pending_count c) /\
  (forall v,
     well_shaped (CycleAccurateLPDDR5Controller.set_cycle c v) /\
     CycleAccurateLPDDR5Controller.pending_count
       (CycleAccurateLPDDR5Controller.set_cycle c v)
     = CycleAccurateLPDDR5Controller.pending_count c).
Proof.
  intros Hshape Htick. apply tick_unfold in Htick.
  assert (well_shaped (entering_issue c)) as Hentering.
  { eapply well_shaped_with; [exact Hshape|done| |by destruct Hshape].
    simpl. by rewrite length_fmap. }
  destruct (issue_loop_shape _ _ _ _ Hentering Htick) as (Hshape' & Hocc & Hdone).
  destruct (issue_loop_inv _ _ _ _ (NoDup_seq _ _) Htick)
    as (Hcyc & Hcfg & Hid & _).
  split; [done|]. split; [exact Hocc|]. split.
  { destruct Hshape' as [_ _ [_ _ Hcount _ _]]. exact Hcount. }
  split; [done|]. split; [done|]. split; [done|]. split; [done|].
  split; [|split].
  - intros f. split; [|done].
    destruct Hshape as [Hok Hbanks [Hbuf Hdep Hcount Hsize Hle]].
    split; [done|done|]. split; simpl; try done.
    + by rewrite length_imap.
    + by rewrite overwrite_lengths.
  - split; [|done].
    eapply well_shaped_with; [exact Hshape|done| |by destruct Hshape].
    simpl. by rewrite length_fmap.
  - intros v. split; [|done].
    eapply well_shaped_with; [exact Hshape|done|done|by destruct Hshape].
Qed.

Lemma tick_keeps_counters_witness :
  exists c',
    CycleAccurateLPDDR5Controller.tick Sample.read_ready
    = Some ([Issue RD 0; Completion 7%nat 27], c') /\
    CycleAccurateLPDDR5Controller.pending_count Sample.read_ready = 1 /\
    CycleAccurateLPDDR5Controller.pending_count c' = 0 /\
    queued c' = [].
Proof.
  assert (well_shaped Sample.read_ready) as Hshape
    by (split; [split; by vm_compute|by vm_compute|split; by vm_compute]).
  assert (exists c',
            CycleAccurateLPDDR5Controller.tick Sample.read_ready
            = Some ([Issue RD 0; Completion 7%nat 27], c')) as [c' Htick]
    by (eexists; by vm_compute).
  destruct (tick_keeps_counters Sample.read_ready
              [Issue RD 0; Completion 7%nat 27] c' Hshape Htick)
    as (_ & _ & Hcount & _).
  exists c'. split; [exact Htick|]. split; [reflexivity|].
  clear Hshape Hcount. vm_compute in Htick. injection Htick as <-.
  split; reflexivity.
Defined.

(** X12.  Every command a tick issues passes the gate of its bank and
    latches the timers of [issue_commands], whatever the queued
    pointers point to.  With the bank taken as [update_bank_states]
    leaves it at the new cycle [now]: an ACT goes to an IDLE bank with
    [now >= next_act] and leaves it ACTIVATING with
    [state_until = next_rd = next_wr = now + tRCD] and
    [next_act = now + tRC]; a RD or WR goes to an ACTIVE bank with
    [now >= next_rd] or [now >= next_wr] and leaves it READING or
    WRITING on the same row until [now + tBurst], with [next_rd] and
    [next_wr] at [now + tCCD_S] and [now + tRTW], or [now + tWTR_S] and
    [now + tCCD_S]; a PRE goes to an ACTIVE bank with [now >= next_pre]
    and leaves it PRECHARGING with
    [state_until = next_act = now + tRP]; no REF is issued; and a bank
    that gets no command is as [update_bank_states] left it. *)
Theorem tick_commands_follow_bank_rule
    (c : CycleAccurateLPDDR5Controller.t) (tr : list Event)
    (c' : CycleAccurateLPDDR5Controller.t) :
  CycleAccurateLPDDR5Controller.tick c = Some (tr, c') ->
  let now := u64 (CycleAccurateLPDDR5Controller.current_cycle_ c + 1) in
  (forall cmd i,
     Issue cmd i ∈ tr ->
     exists b b',
       CycleAccurateLPDDR5Controller.banks_ c !! i = Some b /\
       CycleAccurateLPDDR5Controller.banks_ c' !! i = Some b' /\
       bank_rule (CycleAccurateLPDDR5Controller.timing c) now cmd
         (CycleAccurateLPDDR5Controller.update_bank now b) b') /\
  (forall i b,
     CycleAccurateLPDDR5Controller.banks_ c !! i = Some b ->
     (forall cmd, Issue cmd i ∉ tr) ->
     CycleAccurateLPDDR5Controller.banks_ c' !! i
     = Some (CycleAccurateLPDDR5Controller.update_bank now b)) /\
  length (CycleAccurateLPDDR5Controller.banks_ c')
  = length (CycleAccurateLPDDR5Controller.banks_ c).
Proof.
  intros Htick now. split; [|split].
  - intros cmd i Hin.
    destruct (tick_commands_in_range c tr c' cmd i Htick Hin) as [[b Hb] _].
    destruct (tick_bank_rule c tr c' i b Htick Hb) as (b' & Hb' & _ & Hrule & _).
    exists b, b'. split; [done|]. split; [done|]. by apply Hrule.
  - intros i b Hb Hquiet.
    destruct (tick_bank_rule c tr c' i b Htick Hb) as (b' & Hb' & _ & _ & Hnone).
    rewrite Hb'. f_equal. by apply Hnone.
  - apply tick_unfold in Htick.
    destruct (issue_loop_inv _ _ _ _ (NoDup_seq _ _) Htick)
      as (_ & _ & _ & -> & _).
    simpl. by rewrite length_fmap.
Qed.

Lemma tick_commands_follow_bank_rule_witness :
  exists b',
    CycleAccurateLPDDR5Controller.banks_ Sample.two_activated !! 1%nat
    = Some b' /\
    LPDDR5Bank.state b' = ACTIVATING /\
    LPDDR5Bank.state_until b' = 19 /\
    LPDDR5Bank.next_act b' = 61.
Proof.
  destruct (tick_commands_follow_bank_rule Sample.two_queued
              [Issue ACT 0; Issue ACT 1] Sample.two_activated)
    as (Hrule & _).
  - by vm_compute.
  - destruct (Hrule ACT 1%nat) as (b & b' & Hb & Hb' & _ & _ & row & Heq).
    { right. by left. }
    exists b'. split; [exact Hb'|]. rewrite Heq. clear.
    split; [reflexivity|]. split; vm_compute; reflexivity.
Defined.

(** X13.  [update_bank_states] settles the banks whose deadline has
    come: such a bank is left IDLE or ACTIVE (ACTIVATING, READING and
    WRITING become ACTIVE; PRECHARGING and REFRESHING become IDLE), a
    bank whose deadline lies ahead is untouched, no timer ever changes,
    the open row is zeroed only on leaving PRECHARGING, nothing but the
    banks is touched, and a second call changes nothing. *)
Theorem update_bank_states_settles
    (c : CycleAccurateLPDDR5Controller.t) (i : nat) (b : LPDDR5Bank.t) :
  let now := CycleAccurateLPDDR5Controller.current_cycle_ c in
  let c' := CycleAccurateLPDDR5Controller.update_bank_states c in
  CycleAccurateLPDDR5Controller.banks_ c !! i = Some b ->
  exists b',
    CycleAccurateLPDDR5Controller.banks_ c' !! i = Some b' /\
    (LPDDR5Bank.state_until b <= now ->
     (LPDDR5Bank.state b' = IDLE <->
      LPDDR5Bank.state b ∈ [IDLE; PRECHARGING; REFRESHING]) /\
     (LPDDR5Bank.state b' = ACTIVE <->
      LPDDR5Bank.state b ∈ [ACTIVE; ACTIVATING; READING; WRITING])) /\
    (now < LPDDR5Bank.state_until b -> b' = b) /\
    (LPDDR5Bank.open_row b' =
     if bool_decide (LPDDR5Bank.state b = PRECHARGING
                     /\ LPDDR5Bank.state_until b <= now)
     then 0 else LPDDR5Bank.open_row b) /\
    LPDDR5Bank.state_until b' = LPDDR5Bank.state_until b /\
    LPDDR5Bank.next_act b' = LPDDR5Bank.next_act b /\
    LPDDR5Bank.next_rd b' = LPDDR5Bank.next_rd b /\
    LPDDR5Bank.next_wr b' = LPDDR5Bank.next_wr b /\
    LPDDR5Bank.next_pre b' = LPDDR5Bank.next_pre b /\
    CycleAccurateLPDDR5Controller.update_bank_states c' = c' /\
    CycleAccurateLPDDR5Controller.scheduler_ c'
      = CycleAccurateLPDDR5Controller.scheduler_ c /\
    CycleAccurateLPDDR5Controller.stats_ c'
      = CycleAccurateLPDDR5Controller.stats_ c.
Proof.
  intros now c' Hb.
  exists (CycleAccurateLPDDR5Controller.update_bank now b).
  split; [subst c'; simpl; by rewrite list_lookup_fmap, Hb|].
  assert (forall x,
            CycleAccurateLPDDR5Controller.update_bank now
              (CycleAccurateLPDDR5Controller.update_bank now x)
            = CycleAccurateLPDDR5Controller.update_bank now x) as Hidem.
  { intros [st orow until nact nrd nwr npre]. simpl.
    destruct (until <=? now) eqn:Hdue, st; simpl; by rewrite ?Hdue. }
  destruct b as [st orow until nact nrd nwr npre]. simpl.
  destruct (Z.leb_spec until now) as [Hdue|Hahead].
  - split.
    { intros _.
      destruct st; simpl; rewrite !elem_of_cons, !elem_of_nil;
        intuition congruence. }
    split; [lia|].
    split.
    { destruct st; simpl; try done.
      by rewrite bool_decide_true. }
    repeat split; try (by destruct st).
    subst c'. unfold CycleAccurateLPDDR5Controller.update_bank_states,
      CycleAccurateLPDDR5Controller.with_banks. simpl. f_equal.
    rewrite <- list_fmap_compose. apply list_fmap_ext. intros j x _. simpl.
    apply Hidem.
  - split; [lia|]. split; [done|]. split.
    { rewrite bool_decide_false; [done|]. intros [_ ?]. lia. }
    repeat split.
    subst c'. unfold CycleAccurateLPDDR5Controller.update_bank_states,
      CycleAccurateLPDDR5Controller.with_banks. simpl. f_equal.
    rewrite <- list_fmap_compose. apply list_fmap_ext. intros j x _. simpl.
    apply Hidem.
Qed.

Lemma update_bank_states_settles_witness :
  exists b',
    CycleAccurateLPDDR5Controller.banks_
      (CycleAccurateLPDDR5Controller.update_bank_states
         (CycleAccurateLPDDR5Controller.set_cycle Sample.two_activated 19))
      !! 0%nat = Some b' /\
    LPDDR5Bank.state b' = ACTIVE.
Proof.
  destruct (update_bank_states_settles
              (CycleAccurateLPDDR5Controller.set_cycle Sample.two_activated 19)
              0 (LPDDR5Bank.mk ACTIVATING 0 19 61 19 19 0))
    as (b' & Hb' & Hdue & _).
  - by vm_compute.
  - exists b'. split; [exact Hb'|]. apply Hdue; [by vm_compute|].
    right. by left.
Defined.

(** X14.  The bank queries agree with each other and are bounds
    checked: [is_row_open(channel, bank, row)] holds exactly when
    [open_row(channel, bank)] is [row]; [open_row] answers only for a
    bank whose [bank_state] is ACTIVE (not while it is READING or
    WRITING); for an index past the banks the three answer IDLE, false
    and nothing. *)
Theorem bank_queries_agree
    (c : CycleAccurateLPDDR5Controller.t) (channel bank row : Z) :
  let idx :=
    Z.to_nat (channel
              * OrganizationParams.banks_per_rank
                  (ControllerConfig.organization
                     (CycleAccurateLPDDR5Controller.config_ c))
              + bank) in
  (CycleAccurateLPDDR5Controller.is_row_open c channel bank row = true <->
   CycleAccurateLPDDR5Controller.open_row c channel bank = Some row) /\
  (is_Some (CycleAccurateLPDDR5Controller.open_row c channel bank) <->
   (idx < length (CycleAccurateLPDDR5Controller.banks_ c))%nat /\
   CycleAccurateLPDDR5Controller.bank_state c channel bank = ACTIVE) /\
  (forall b, CycleAccurateLPDDR5Controller.banks_ c !! idx = Some b ->
     CycleAccurateLPDDR5Controller.bank_state c channel bank
     = LPDDR5Bank.state b) /\
  ((length (CycleAccurateLPDDR5Controller.banks_ c) <= idx)%nat ->
   CycleAccurateLPDDR5Controller.bank_state c channel bank = IDLE /\
   CycleAccurateLPDDR5Controller.is_row_open c channel bank row = false /\
   CycleAccurateLPDDR5Controller.open_row c channel bank = None).
Proof.
  intros idx.
  unfold CycleAccurateLPDDR5Controller.is_row_open,
    CycleAccurateLPDDR5Controller.open_row,
    CycleAccurateLPDDR5Controller.bank_state. fold idx.
  destruct (CycleAccurateLPDDR5Controller.banks_ c !! idx) as [b|] eqn:Hb.
  - pose proof (lookup_lt_Some _ _ _ Hb) as Hlt.
    split; [|split; [|split]].
    + case_bool_decide as Hst; simpl.
      * rewrite Z.eqb_eq. split; [by intros ->|by intros [= ->]].
      * done.
    + case_bool_decide as Hst.
      * split; [done|]. intros _. by eexists.
      * split; [by intros [? ?]|]. by intros [_ ?].
    + by intros b0 [= ->].
    + lia.
  - pose proof (lookup_ge_None_1 _ _ Hb) as Hge.
    split; [done|]. split; [|split; [done|done]].
    split; [by intros [? ?]|]. intros [? _]. lia.
Qed.

(** ** Request ids *)

Section request_ids.

Import CycleAccurateLPDDR5Controller.

(** The id an accepted [submit] returns is the id counter, which it
    advances; a refused one leaves the controller alone. *)
Lemma submit_id c request ret c' :
  submit c request = Some (ret, c') ->
  (ret = None /\ c' = c) \/
  (ret = Some (next_id_ c) /\ next_id_ c' = u64 (next_id_ c + 1)).
Proof.
  unfold submit. destruct (negb _); [intros [= <- <-]; by left|].
  destruct (FrFcfsScheduler.store _ _); [|done]. simpl.
  intros [= <- <-]. by right.
Qed.

Lemma tick_next_id c tr c' : tick c = Some (tr, c') -> next_id_ c' = next_id_ c.
Proof.
  intros Htick%tick_unfold.
  by destruct (issue_loop_inv _ _ _ _ (NoDup_seq _ _) Htick) as (_ & _ & -> & _).
Qed.

Lemma consecutive_cons a n :
  a :: ((fun k => a + 1 + Z.of_nat k) <$> seq 0 n)
  = (fun k => a + Z.of_nat k) <$> seq 0 (S n).
Proof.
  cbn [seq fmap list_fmap]. rewrite Z.add_0_r. f_equal.
  rewrite <- fmap_S_seq, <- list_fmap_compose. apply list_fmap_ext.
  intros ? k _. unfold compose. lia.
Qed.

Lemma consecutive_NoDup a n :
  NoDup ((fun k => a + Z.of_nat k) <$> seq 0 n).
Proof.
  apply NoDup_fmap_2; [|apply NoDup_seq]. intros x y ?. lia.
Qed.

Lemma run_ids ops c ids c' :
  run ops c = Some (ids, c') ->
  0 <= next_id_ c < 2 ^ 64 ->
  next_id_ c + Z.of_nat (length ids) <= 2 ^ 64 ->
  ids = (fun k => next_id_ c + Z.of_nat k) <$> seq 0 (length ids) /\
  next_id_ c' = u64 (next_id_ c + Z.of_nat (length ids)).
Proof.
  revert c ids c'. induction ops as [|[request| |f] rest IH];
    intros c ids c' Hrun Hid Hmax.
  - injection Hrun as <- <-. simpl. rewrite Z.add_0_r, u64_small by done.
    by split.
  - cbn [run] in Hrun.
    destruct (submit c request) as [[ret c1]|] eqn:Hsubmit; [|done].
    cbn [mbind option_bind] in Hrun.
    destruct (run rest c1) as [[ids2 c2]|] eqn:Hrest; [|done].
    cbn [mbind option_bind] in Hrun. injection Hrun as <- <-.
    destruct (submit_id _ _ _ _ Hsubmit) as [[-> ->]|[-> Hnext]].
    { by apply IH. }
    cbn [length] in Hmax |- *.
    destruct (decide (next_id_ c + 1 < 2 ^ 64)) as [Hroom|Hlast].
    + rewrite u64_small in Hnext by lia.
      destruct (IH _ _ _ Hrest) as [Hids Hnext2]; [lia|lia|].
      rewrite Hnext in Hids, Hnext2. split.
      * rewrite Hids at 1. apply consecutive_cons.
      * rewrite Hnext2. f_equal. lia.
    + assert (ids2 = []) as -> by (destruct ids2; [done|simpl in Hmax; lia]).
      assert (next_id_ c1 = 0) as Hzero.
      { rewrite Hnext. replace (next_id_ c + 1) with (2 ^ 64) by lia.
        unfold u64. apply Z.mod_same. lia. }
      destruct (IH _ _ _ Hrest) as [_ Hnext2]; [rewrite Hzero; simpl; lia..|].
      cbn [length] in Hnext2. rewrite Hzero in Hnext2.
      change (Z.of_nat 0) with 0 in Hnext2. split.
      * cbn [length seq fmap list_fmap]. by rewrite Z.add_0_r.
      * rewrite Hnext2.
        replace (next_id_ c + Z.of_nat (S (length (@nil Z)))) with (2 ^ 64)
          by (cbn [length]; lia).
        unfold u64. rewrite Z.mod_same by lia. apply Z.mod_0_l. lia.
  - cbn [run] in Hrun.
    destruct (tick c) as [[tr c1]|] eqn:Htick; [|done].
    cbn [mbind option_bind] in Hrun.
    rewrite <- (tick_next_id _ _ _ Htick). apply IH; [done|..];
      by rewrite (tick_next_id _ _ _ Htick).
  - cbn [run] in Hrun. by apply (IH (overwrite f c)).
Qed.

End request_ids.

(** X15.  Between two resets the ids come out of [submit] in sequence.
    Over any run of [submit]s and [tick]s, with the storage behind the
    queued pointers written over at any point, the ids returned by the
    accepted [submit]s are the id counter at the start and its
    successors, in order, so no two are equal, as long as the counter
    does not pass the end of its 64 bits; ticks and refused [submit]s
    use up no id. *)
Theorem ids_come_in_sequence
    (ops : list Op) (c : CycleAccurateLPDDR5Controller.t) (ids : list Z)
    (c' : CycleAccurateLPDDR5Controller.t) :
  run ops c = Some (ids, c') ->
  0 <= CycleAccurateLPDDR5Controller.next_id_ c < 2 ^ 64 ->
  CycleAccurateLPDDR5Controller.next_id_ c + Z.of_nat (length ids) <= 2 ^ 64 ->
  ids = (fun k => CycleAccurateLPDDR5Controller.next_id_ c + Z.of_nat k)
          <$> seq 0 (length ids) /\
  NoDup ids /\
  CycleAccurateLPDDR5Controller.next_id_ c'
  = u64 (CycleAccurateLPDDR5Controller.next_id_ c + Z.of_nat (length ids)).
Proof.
  intros Hrun Hid Hmax.
  destruct (run_ids ops c ids c' Hrun Hid Hmax) as [Hids Hnext].
  split; [done|]. split; [|done]. rewrite Hids. apply consecutive_NoDup.
Qed.

Lemma ids_come_in_sequence_witness :
  exists c',
    run [Submit (Sample.read_request 0 64 None); Tick;
         Overwrite (fun _ _ _ => Request.default);
         Submit (Sample.read_request 1024 64 None); Tick;
         Submit (Sample.write_request 2048 64 None)]
      (CycleAccurateLPDDR5Controller.create
         (Sample.lpddr5_config CYCLE_ACCURATE))
    = Some ([1; 2; 3], c') /\
    NoDup [1; 2; 3].
Proof.
  pose (start := CycleAccurateLPDDR5Controller.create
                   (Sample.lpddr5_config CYCLE_ACCURATE)).
  assert (0 <= CycleAccurateLPDDR5Controller.next_id_ start < 2 ^ 64) as Hid
    by (by vm_compute).
  assert (CycleAccurateLPDDR5Controller.next_id_ start
          + Z.of_nat (length [1; 2; 3]) <= 2 ^ 64) as Hmax
    by (by vm_compute).
  assert (exists c',
    run [Submit (Sample.read_request 0 64 None); Tick;
         Overwrite (fun _ _ _ => Request.default);
         Submit (Sample.read_request 1024 64 None); Tick;
         Submit (Sample.write_request 2048 64 None)] start
    = Some ([1; 2; 3], c')) as [c' Hrun] by (eexists; vm_compute; reflexivity).
  exists c'. split; [exact Hrun|].
  exact (proj1 (proj2 (ids_come_in_sequence _ start [1; 2; 3] c' Hrun Hid Hmax))).
Defined.

(** X22.  Backpressure of the cycle-accurate controller, on the
    counters alone.  On a controller of the right shape [submit]
    returns; it refuses exactly when the occupancy is the queue depth,
    which is exactly when [can_accept()] is false, and a refusal
    changes nothing; an accepted request gets the id counter, which
    advances, makes the occupancy one larger and [has_pending()] true,
    and touches neither banks, cycle nor statistics; the controller is
    of the right shape again, so the occupancy never passes the queue
    depth. *)
Theorem cycle_accurate_backpressure
    (c : CycleAccurateLPDDR5Controller.t) (request : Request.t) :
  well_shaped c ->
  let depth :=
    ControllerConfig.queue_depth (CycleAccurateLPDDR5Controller.config_ c) in
  exists ret c',
    CycleAccurateLPDDR5Controller.submit c request = Some (ret, c') /\
    well_shaped c' /\
    (ret = None <-> CycleAccurateLPDDR5Controller.pending_count c = depth) /\
    (ret = None <-> CycleAccurateLPDDR5Controller.can_accept c = false) /\
    (ret = None -> c' = c) /\
    (ret <> None ->
     ret = Some (CycleAccurateLPDDR5Controller.next_id_ c) /\
     CycleAccurateLPDDR5Controller.next_id_ c'
     = u64 (CycleAccurateLPDDR5Controller.next_id_ c + 1) /\
     CycleAccurateLPDDR5Controller.pending_count c'
     = CycleAccurateLPDDR5Controller.pending_count c + 1 /\
     CycleAccurateLPDDR5Controller.has_pending c' = true /\
     CycleAccurateLPDDR5Controller.banks_ c'
     = CycleAccurateLPDDR5Controller.banks_ c /\
     CycleAccurateLPDDR5Controller.current_cycle_ c'
     = CycleAccurateLPDDR5Controller.current_cycle_ c /\
     CycleAccurateLPDDR5Controller.stats_ c'
     = CycleAccurateLPDDR5Controller.stats_ c) /\
    CycleAccurateLPDDR5Controller.pending_count c' <= depth.
Proof.
  intros Hshape depth.
  destruct (submit_shape c request Hshape)
    as (ret & c' & Hsubmit & Hshape' & Hfull & Hsame & Haccept).
  pose proof Hshape as [[_ Hdepth] _ [_ _ Hocc Hsize Hle]].
  assert (0 <= CycleAccurateLPDDR5Controller.pending_count c <= depth) as Hpos.
  { unfold CycleAccurateLPDDR5Controller.pending_count,
      FrFcfsScheduler.occupancy, BankBuffers.occupancy.
    subst depth. rewrite Hocc in *. lia. }
  exists ret, c'. split; [done|]. split; [done|]. split; [done|].
  split.
  { rewrite Hfull. unfold CycleAccurateLPDDR5Controller.can_accept,
      CycleAccurateLPDDR5Controller.pending_count,
      FrFcfsScheduler.has_space, BankBuffers.has_space,
      FrFcfsScheduler.occupancy, BankBuffers.occupancy in *.
    rewrite Hsize, Z.leb_gt. fold depth. rewrite u64_small by lia. lia. }
  split; [done|]. split.
  - intros Hret.
    destruct (Haccept Hret) as (-> & Hnext & _ & Hcount & Hbanks & Hcyc & Hstats & _).
    repeat split; try done.
    unfold CycleAccurateLPDDR5Controller.has_pending,
      FrFcfsScheduler.has_any_pending, BankBuffers.has_any_pending.
    unfold CycleAccurateLPDDR5Controller.pending_count,
      FrFcfsScheduler.occupancy, BankBuffers.occupancy in Hcount, Hpos.
    apply Z.ltb_lt. lia.
  - destruct Hshape' as [_ _ [_ _ _ _ Hle']].
    destruct ret as [id|]; [|by rewrite (Hsame eq_refl)].
    destruct (Haccept ltac:(done)) as (_ & _ & _ & _ & _ & _ & _ & Hcfg).
    unfold CycleAccurateLPDDR5Controller.pending_count,
      FrFcfsScheduler.occupancy, BankBuffers.occupancy.
    rewrite Hcfg in Hle'. exact Hle'.
Qed.

Lemma cycle_accurate_backpressure_witness :
  let config :=
    ControllerConfig.mk LPDDR5 CYCLE_ACCURATE 6400 1
      timing_presets.lpddr5_6400 OrganizationParams.default
      ROW_BANK_COLUMN false true false in
  exists c1,
    CycleAccurateLPDDR5Controller.submit
      (CycleAccurateLPDDR5Controller.create config)
      (Sample.read_request 0 64 None) = Some (Some 1, c1) /\
    CycleAccurateLPDDR5Controller.submit c1 (Sample.read_request 64 64 None)
    = Some (None, c1).
Proof.
  intros config.
  assert (exists c1,
            CycleAccurateLPDDR5Controller.submit
              (CycleAccurateLPDDR5Controller.create config)
              (Sample.read_request 0 64 None) = Some (Some 1, c1))
    as [c1 Hfirst] by (eexists; by vm_compute).
  exists c1. split; [exact Hfirst|].
  destruct (cycle_accurate_backpressure
              (CycleAccurateLPDDR5Controller.create config)
              (Sample.read_request 0 64 None))
    as (ret0 & c0 & Hsubmit0 & Hshape1 & _).
  { apply well_shaped_create. repeat split; by vm_compute. }
  rewrite Hfirst in Hsubmit0. injection Hsubmit0 as <- <-.
  destruct (cycle_accurate_backpressure c1 (Sample.read_request 64 64 None)
              Hshape1)
    as (ret & c2 & Hsubmit & _ & Hfull & _ & Hsame & _).
  rewrite Hsubmit.
  assert (ret = None) as ->.
  { apply Hfull. vm_compute in Hfirst. injection Hfirst as <-. by vm_compute. }
  by rewrite (Hsame eq_refl).
Defined.

(** ** The behavioural controller *)

Section behavioral.

Import BehavioralLPDDR5Controller.

Lemma count_type_cons ty r l :
  count_type ty (r :: l)
  = ((if bool_decide (Request.type r = ty) then 1 else 0) + count_type ty l)%nat.
Proof.
  unfold count_type. rewrite filter_cons.
  case_bool_decide; by destruct (decide _).
Qed.

Lemma behavioral_submit_all_spec c requests :
  0 <= Statistics.reads (stats_ c) < 2 ^ 64 ->
  0 <= Statistics.writes (stats_ c) < 2 ^ 64 ->
  0 <= Statistics.total_read_latency (stats_ c) < 2 ^ 64 ->
  0 <= Statistics.total_write_latency (stats_ c) < 2 ^ 64 ->
  0 <= next_id_ c ->
  next_id_ c + Z.of_nat (length requests) < 2 ^ 64 ->
  let tp := ControllerConfig.timing (config_ c) in
  exists tr rets c',
    behavioral_submit_all c requests = (tr, rets, c') /\
    rets = (fun k => Some (next_id_ c + Z.of_nat k))
             <$> seq 0 (length requests) /\
    next_id_ c' = next_id_ c + Z.of_nat (length requests) /\
    tr = omap (fun r => (fun cb => Completion cb
                                     (fixed_latency tp (Request.type r)))
                          <$> Request.callback r) requests /\
    Statistics.reads (stats_ c')
    = u64 (Statistics.reads (stats_ c)
           + Z.of_nat (count_type READ requests)) /\
    Statistics.writes (stats_ c')
    = u64 (Statistics.writes (stats_ c)
           + Z.of_nat (count_type WRITE requests)) /\
    Statistics.total_read_latency (stats_ c')
    = u64 (Statistics.total_read_latency (stats_ c)
           + Z.of_nat (count_type READ requests)
             * TimingParams.fixed_read_latency tp) /\
    Statistics.total_write_latency (stats_ c')
    = u64 (Statistics.total_write_latency (stats_ c)
           + Z.of_nat (count_type WRITE requests)
             * TimingParams.fixed_write_latency tp) /\
    Statistics.with_counters (stats_ c')
      (Statistics.reads (stats_ c)) (Statistics.writes (stats_ c))
      (Statistics.page_hits (stats_ c')) (Statistics.page_empty (stats_ c'))
      (Statistics.page_conflicts (stats_ c'))
      (Statistics.total_read_latency (stats_ c))
      (Statistics.total_write_latency (stats_ c))
      (Statistics.min_latency (stats_ c')) (Statistics.max_latency (stats_ c'))
    = stats_ c /\
    current_cycle_ c' = current_cycle_ c /\
    config_ c' = config_ c.
Proof.
  revert c. induction requests as [|r rest IH];
    intros c Hrd Hwr Htrl Htwl Hid Hnext tp.
  - exists [], [], c. simpl. rewrite !Z.add_0_r, !u64_small by done.
    repeat split; try done. by destruct (stats_ c).
  - simpl length in Hnext.
    destruct (submit c r) as [[tr1 ret] c1] eqn:Hsubmit.
    assert (ret = Some (next_id_ c) /\
            next_id_ c1 = next_id_ c + 1 /\
            tr1 = match Request.callback r with
                  | Some cb => [Completion cb (fixed_latency tp (Request.type r))]
                  | None => []
                  end /\
            stats_ c1
            = match Request.type r with
              | READ => Statistics.count_read
                          (TimingParams.fixed_read_latency tp) (stats_ c)
              | WRITE => Statistics.count_write
                           (TimingParams.fixed_write_latency tp) (stats_ c)
              end /\
            current_cycle_ c1 = current_cycle_ c /\
            config_ c1 = config_ c) as (-> & Hid1 & -> & Hstats1 & Hcyc1 & Hcfg1).
    { unfold submit in Hsubmit. injection Hsubmit as <- <- <-. simpl.
      rewrite u64_small by lia. destruct r as [? ? ? [] ? ? [cb|]]; done. }
    destruct (IH c1) as (tr2 & rets2 & c2 & Heq & -> & Hid2 & -> & Hrd2 & Hwr2
                         & Htrl2 & Htwl2 & Hrest2 & Hcyc2 & Hcfg2).
    { rewrite Hstats1. destruct (Request.type r); simpl;
        [apply u64_range|done]. }
    { rewrite Hstats1. destruct (Request.type r); simpl;
        [done|apply u64_range]. }
    { rewrite Hstats1. destruct (Request.type r); simpl;
        [apply u64_range|done]. }
    { rewrite Hstats1. destruct (Request.type r); simpl;
        [done|apply u64_range]. }
    { lia. }
    { lia. }
    exists ((match Request.callback r with
             | Some cb => [Completion cb (fixed_latency tp (Request.type r))]
             | None => []
             end) ++
            omap (fun r => (fun cb => Completion cb
                                        (fixed_latency tp (Request.type r)))
                             <$> Request.callback r) rest),
      (Some (next_id_ c)
         :: ((fun k => Some (next_id_ c + Z.of_nat k))
               <$> seq 1 (length rest))), c2.
    rewrite Hcfg1 in *. fold tp in Heq, Htrl2, Htwl2 |- *.
    split.
    { cbn [behavioral_submit_all]. rewrite Hsubmit, Heq, Hid1. do 3 f_equal.
      rewrite <- fmap_S_seq, <- list_fmap_compose. apply list_fmap_ext.
      intros ? k _. unfold compose. f_equal. lia. }
    split; [simpl; by rewrite Z.add_0_r|].
    split; [simpl length; lia|].
    split; [simpl; by destruct (Request.callback r)|].
    rewrite Hstats1 in Hrd2, Hwr2, Htrl2, Htwl2, Hrest2.
    rewrite !count_type_cons, Hrd2, Hwr2, Htrl2, Htwl2, Hcyc2, Hcyc1.
    do 4 (split; [destruct (Request.type r); simpl; rewrite ?u64_add_l;
                  f_equal; lia|]).
    split; [|done]. clear -Hrest2.
    destruct (Request.type r), (stats_ c2), (stats_ c);
      cbn in Hrest2; injection Hrest2; intros; by subst.
Qed.

End behavioral.

(** X16.  The behavioural controller answers a batch of requests one
    by one: submitting the requests of a list in order (with the id
    counter not reaching the end of its 64 bits) returns consecutive
    ids from the id counter on, calls the callback of each request that
    carries one, in submission order, with the fixed latency of its
    type, counts the reads and writes and adds their fixed latencies to
    the latency totals (modulo 2^64), and leaves the page counters, the
    latency extremes, every other counter and the cycle as they were. *)
Theorem behavioral_submissions
    (c : BehavioralLPDDR5Controller.t) (requests : list Request.t) :
  let tp := ControllerConfig.timing (BehavioralLPDDR5Controller.config_ c) in
  let stats := BehavioralLPDDR5Controller.stats_ c in
  Statistics.in_range stats ->
  0 <= BehavioralLPDDR5Controller.next_id_ c ->
  BehavioralLPDDR5Controller.next_id_ c + Z.of_nat (length requests)
    < 2 ^ 64 ->
  exists tr rets c',
    behavioral_submit_all c requests = (tr, rets, c') /\
    rets = (fun k => Some (BehavioralLPDDR5Controller.next_id_ c + Z.of_nat k))
             <$> seq 0 (length requests) /\
    BehavioralLPDDR5Controller.next_id_ c'
    = BehavioralLPDDR5Controller.next_id_ c + Z.of_nat (length requests) /\
    tr = omap (fun r => (fun cb => Completion cb
                                     (fixed_latency tp (Request.type r)))
                          <$> Request.callback r) requests /\
    BehavioralLPDDR5Controller.stats_ c'
    = Statistics.with_counters stats
        (u64 (Statistics.reads stats + Z.of_nat (count_type READ requests)))
        (u64 (Statistics.writes stats + Z.of_nat (count_type WRITE requests)))
        (Statistics.page_hits stats) (Statistics.page_empty stats)
        (Statistics.page_conflicts stats)
        (u64 (Statistics.total_read_latency stats
              + Z.of_nat (count_type READ requests)
                * TimingParams.fixed_read_latency tp))
        (u64 (Statistics.total_write_latency stats
              + Z.of_nat (count_type WRITE requests)
                * TimingParams.fixed_write_latency tp))
        (Statistics.min_latency stats) (Statistics.max_latency stats) /\
    BehavioralLPDDR5Controller.current_cycle_ c'
    = BehavioralLPDDR5Controller.current_cycle_ c.
Proof.
  intros tp stats Hrange Hid Hnext.
  apply in_range_fields in Hrange as [(Hrd & Hwr & _ & _ & _ & Htrl & Htwl & _) _].
  destruct (behavioral_submit_all_spec c requests Hrd Hwr Htrl Htwl Hid Hnext)
    as (tr & rets & c' & Heq & Hrets & Hid' & Htr & Hrd' & Hwr' & Htrl' & Htwl'
        & Hrest & Hcyc & _).
  exists tr, rets, c'. repeat split; try done.
  fold stats tp in Hrd', Hwr', Htrl', Htwl', Hrest.
  rewrite <- Hrd', <- Hwr', <- Htrl', <- Htwl', <- Hrest.
  by destruct (BehavioralLPDDR5Controller.stats_ c').
Qed.

Lemma behavioral_submissions_witness :
  exists tr c',
    behavioral_submit_all
      (BehavioralLPDDR5Controller.create (Sample.lpddr5_config BEHAVIORAL))
      [Sample.read_request 0 64 (Some 7%nat);
       Sample.write_request 64 64 None;
       Sample.read_request 128 64 (Some 9%nat)]
    = (tr, [Some 1; Some 2; Some 3], c') /\
    Statistics.reads (BehavioralLPDDR5Controller.stats_ c') = 2.
Proof.
  destruct (behavioral_submissions
              (BehavioralLPDDR5Controller.create
                 (Sample.lpddr5_config BEHAVIORAL))
              [Sample.read_request 0 64 (Some 7%nat);
               Sample.write_request 64 64 None;
               Sample.read_request 128 64 (Some 9%nat)])
    as (tr & rets & c' & Heq & -> & _ & _ & Hstats & _).
  - exact initial_in_range.
  - by vm_compute.
  - by vm_compute.
  - exists tr, c'. split; [exact Heq|]. by rewrite Hstats.
Defined.

(** ** The transactional controller *)

Section transactional.

Import TransactionalLPDDR5Controller.

(** The loop of [tick] takes the longest prefix of the queue whose
    requests are due. *)
Lemma complete_ready_spec now pending stats :
  0 <= Statistics.reads stats < 2 ^ 64 ->
  0 <= Statistics.writes stats < 2 ^ 64 ->
  0 <= Statistics.total_read_latency stats < 2 ^ 64 ->
  0 <= Statistics.total_write_latency stats < 2 ^ 64 ->
  exists ready waiting stats',
    complete_ready now pending stats
    = (omap (completion_at now) ready, waiting, stats') /\
    pending = ready ++ waiting /\
    Forall (fun pr => complete_cycle pr <= now) ready /\
    (forall pr, head waiting = Some pr -> now < complete_cycle pr) /\
    stats'
    = Statistics.with_counters stats
        (u64 (Statistics.reads stats
              + Z.of_nat (count_type READ (request <$> ready))))
        (u64 (Statistics.writes stats
              + Z.of_nat (count_type WRITE (request <$> ready))))
        (Statistics.page_hits stats) (Statistics.page_empty stats)
        (Statistics.page_conflicts stats)
        (u64 (Statistics.total_read_latency stats
              + latency_sum READ now ready))
        (u64 (Statistics.total_write_latency stats
              + latency_sum WRITE now ready))
        (Statistics.min_latency stats) (Statistics.max_latency stats).
Proof.
  revert stats. induction pending as [|pr rest IH];
    intros stats Hrd Hwr Htrl Htwl.
  - exists [], [], stats. simpl. rewrite !Z.add_0_r, !u64_small by done.
    repeat split; try done. by destruct stats.
  - cbn [complete_ready].
    destruct (Z.leb_spec (complete_cycle pr) now) as [Hdue|Hwait]; cycle 1.
    { exists [], (pr :: rest), stats. simpl.
      rewrite !Z.add_0_r, !u64_small by done.
      repeat split; try done; [by intros ? [= <-]|by destruct stats]. }
    set (latency := u64 (now - Request.submit_cycle (request pr))).
    set (stats1 := match Request.type (request pr) with
                   | READ => Statistics.count_read latency stats
                   | WRITE => Statistics.count_write latency stats
                   end).
    destruct (IH stats1) as (ready & waiting & stats' & Heq & -> & Hready
                             & Hhead & ->).
    1-4: subst stats1; destruct (Request.type (request pr)); simpl;
      done || apply u64_range.
    exists (pr :: ready), waiting. eexists. rewrite Heq.
    split; [|split; [done|split; [by constructor|split; [done|]]]].
    { f_equal. f_equal.
      change (omap (completion_at now) (pr :: ready))
        with (match completion_at now pr with
              | Some y => y :: omap (completion_at now) ready
              | None => omap (completion_at now) ready
              end).
      change (completion_at now pr)
        with ((fun cb => Completion cb latency)
                <$> Request.callback (request pr)).
      by destruct (Request.callback (request pr)). }
    rewrite fmap_cons, !count_type_cons. cbn [latency_sum foldr].
    fold (latency_sum READ now ready) (latency_sum WRITE now ready).
    fold latency. subst stats1.
    destruct stats, (Request.type (request pr)); simpl;
      rewrite ?u64_add_l; f_equal; f_equal; lia.
Qed.

(** While the head of the queue is not due, ticks only count
    cycles. *)
Lemma tick_n_blocked c pr rest n :
  pending_ c = pr :: rest ->
  0 <= current_cycle_ c ->
  current_cycle_ c + Z.of_nat n < complete_cycle pr ->
  complete_cycle pr <= 2 ^ 64 ->
  tick_n n c = ([], set_cycle c (current_cycle_ c + Z.of_nat n)).
Proof.
  revert c. induction n as [|n IH]; intros c Hpending Hcyc Hn Hmax.
  - simpl. rewrite Z.add_0_r. by destruct c.
  - cbn [tick_n]. unfold tick. rewrite Hpending. cbn [complete_ready].
    rewrite u64_small by lia.
    destruct (Z.leb_spec (complete_cycle pr) (current_cycle_ c + 1)); [lia|].
    rewrite IH; simpl; [|done|lia|lia|done].
    unfold set_cycle. simpl. do 2 f_equal; [lia|done].
Qed.

End transactional.

(** X17.  A tick of the transactional controller completes the longest
    prefix of the queue whose requests are due, and nothing behind it:
    the queue before is the completed requests followed by the queue
    after, every completed request was due at the new cycle, the
    request left at the head is not, the callbacks of the completed
    requests are called in queue order with the cycles since their
    submission, and the read and write counts and latency totals grow
    by those of the completed requests (modulo 2^64) while no other
    counter changes. *)
Theorem transactional_tick_completes_due_prefix
    (c : TransactionalLPDDR5Controller.t) :
  let now := u64 (TransactionalLPDDR5Controller.current_cycle_ c + 1) in
  let stats := TransactionalLPDDR5Controller.stats_ c in
  Statistics.in_range stats ->
  exists ready tr c',
    TransactionalLPDDR5Controller.tick c = (tr, c') /\
    TransactionalLPDDR5Controller.pending_ c
    = ready ++ TransactionalLPDDR5Controller.pending_ c' /\
    Forall (fun pr => TransactionalLPDDR5Controller.complete_cycle pr <= now)
      ready /\
    (forall pr,
       head (TransactionalLPDDR5Controller.pending_ c') = Some pr ->
       now < TransactionalLPDDR5Controller.complete_cycle pr) /\
    tr = omap (completion_at now) ready /\
    TransactionalLPDDR5Controller.current_cycle_ c' = now /\
    TransactionalLPDDR5Controller.next_id_ c'
    = TransactionalLPDDR5Controller.next_id_ c /\
    TransactionalLPDDR5Controller.stats_ c'
    = Statistics.with_counters stats
        (u64 (Statistics.reads stats
              + Z.of_nat (count_type READ
                            (TransactionalLPDDR5Controller.request <$> ready))))
        (u64 (Statistics.writes stats
              + Z.of_nat (count_type WRITE
                            (TransactionalLPDDR5Controller.request <$> ready))))
        (Statistics.page_hits stats) (Statistics.page_empty stats)
        (Statistics.page_conflicts stats)
        (u64 (Statistics.total_read_latency stats
              + latency_sum READ now ready))
        (u64 (Statistics.total_write_latency stats
              + latency_sum WRITE now ready))
        (Statistics.min_latency stats) (Statistics.max_latency stats).
Proof.
  intros now stats Hrange.
  apply in_range_fields in Hrange as [(Hrd & Hwr & _ & _ & _ & Htrl & Htwl & _) _].
  destruct (complete_ready_spec now
              (TransactionalLPDDR5Controller.pending_ c) stats
              Hrd Hwr Htrl Htwl)
    as (ready & waiting & stats' & Heq & Hsplit & Hready & Hhead & Hstats).
  exists ready. unfold TransactionalLPDDR5Controller.tick.
  fold now stats. rewrite Heq. eexists _, _. split; [done|]. simpl.
  by repeat split.
Qed.

Lemma transactional_tick_completes_due_prefix_witness :
  let c :=
    TransactionalLPDDR5Controller.mk (Sample.lpddr5_config TRANSACTIONAL)
      9 4
      [TransactionalLPDDR5Controller.mk_pending
         (Sample.request 1 0 0 READ) 10;
       TransactionalLPDDR5Controller.mk_pending
         (Sample.request 2 64 0 WRITE) 30;
       TransactionalLPDDR5Controller.mk_pending
         (Sample.request 3 128 0 READ) 10]
      Statistics.initial false [] in
  exists ready tr c',
    TransactionalLPDDR5Controller.tick c = (tr, c') /\
    TransactionalLPDDR5Controller.pending_ c
    = ready ++ TransactionalLPDDR5Controller.pending_ c'.
Proof.
  intros c.
  destruct (transactional_tick_completes_due_prefix c initial_in_range)
    as (ready & tr & c' & Htick & Hsplit & _).
  by exists ready, tr, c'.
Defined.

(** X18.  Head-of-line blocking.  While the request at the head of the
    queue is not due, ticks of the transactional controller complete
    nothing, whatever the completion cycles of the requests behind it:
    [n] ticks that end before the completion cycle of the head leave
    the queue, the statistics and the id counter as they were, call no
    callback and advance the cycle by [n]. *)
Theorem transactional_head_of_line_blocking
    (c : TransactionalLPDDR5Controller.t)
    (pr : TransactionalLPDDR5Controller.PendingRequest)
    (rest : list TransactionalLPDDR5Controller.PendingRequest) (n : nat) :
  TransactionalLPDDR5Controller.pending_ c = pr :: rest ->
  0 <= TransactionalLPDDR5Controller.current_cycle_ c ->
  TransactionalLPDDR5Controller.current_cycle_ c + Z.of_nat n
    < TransactionalLPDDR5Controller.complete_cycle pr ->
  TransactionalLPDDR5Controller.complete_cycle pr <= 2 ^ 64 ->
  TransactionalLPDDR5Controller.tick_n n c
  = ([], TransactionalLPDDR5Controller.set_cycle c
           (TransactionalLPDDR5Controller.current_cycle_ c + Z.of_nat n)).
Proof. exact (tick_n_blocked c pr rest n). Qed.

Lemma transactional_head_of_line_blocking_witness :
  let c :=
    TransactionalLPDDR5Controller.mk (Sample.lpddr5_config TRANSACTIONAL)
      9 3
      [TransactionalLPDDR5Controller.mk_pending
         (Sample.request 1 0 0 WRITE) 30;
       TransactionalLPDDR5Controller.mk_pending
         (Sample.request 2 64 0 READ) 10]
      Statistics.initial false [] in
  TransactionalLPDDR5Controller.tick_n 20 c
  = ([], TransactionalLPDDR5Controller.set_cycle c 29).
Proof.
  intros c.
  apply (transactional_head_of_line_blocking c
           (TransactionalLPDDR5Controller.mk_pending
              (Sample.request 1 0 0 WRITE) 30)
           [TransactionalLPDDR5Controller.mk_pending
              (Sample.request 2 64 0 READ) 10] 20);
    by vm_compute.
Defined.

Section transactional_runs.

Import TransactionalLPDDR5Controller.

Lemma tick_n_snoc n c :
  tick_n (S n) c
  = let '(tr1, c1) := tick_n n c in
    let '(tr2, c2) := tick c1 in
    (tr1 ++ tr2, c2).
Proof.
  revert c. induction n as [|n IH]; intros c.
  - simpl. destruct (tick c) as [tr c1]. by rewrite app_nil_r.
  - assert (forall m c0,
              tick_n (S m) c0
              = let '(tr1, c1) := tick c0 in
                let '(tr2, c2) := tick_n m c1 in (tr1 ++ tr2, c2)) as Hunfold
      by done.
    rewrite (Hunfold (S n) c), (Hunfold n c).
    destruct (tick c) as [tr1 c1]. rewrite IH.
    destruct (tick_n n c1) as [tr2 c2]. destruct (tick c2) as [tr3 c3].
    by rewrite app_assoc.
Qed.

(** A tick takes requests from the head of the queue and adds none. *)
Lemma tick_pending c :
  exists ready, pending_ c = ready ++ pending_ (tick c).2.
Proof.
  unfold tick.
  generalize (u64 (current_cycle_ c + 1)) as now.
  generalize (stats_ c) as stats. intros stats now.
  assert (exists ready,
            pending_ c = ready ++ (complete_ready now (pending_ c) stats).1.2)
    as [ready Hready].
  { generalize (pending_ c) as pending. intros pending. revert stats.
    induction pending as [|pr rest IH]; intros stats; [by exists []|].
    cbn [complete_ready]. destruct (complete_cycle pr <=? now).
    - match goal with
      | |- context [complete_ready now rest ?s] =>
          destruct (IH s) as [ready Hready];
          destruct (complete_ready now rest s) as [[tr pending'] stats']
      end.
      exists (pr :: ready). simpl in *. by rewrite Hready at 1.
    - by exists []. }
  exists ready.
  by destruct (complete_ready now (pending_ c) stats) as [[tr pending'] stats'].
Qed.

End transactional_runs.

(** X19.  On an idle transactional controller a request completes
    after exactly its estimated latency.  A request submitted to a
    controller with an empty queue and room for it, with an estimate of
    [latency] cycles (at least 1, the cycle counter not reaching the
    end of its 64 bits), is accepted under the next id and calls no
    callback at submission; any fewer than [latency] ticks leave it
    pending and call nothing; the tick number [latency] calls its
    callback with [latency], counts it as a read or write of that
    latency and leaves the queue empty. *)
Theorem transactional_completes_on_time
    (c : TransactionalLPDDR5Controller.t) (request : Request.t)
    (latency : Z) :
  let now := TransactionalLPDDR5Controller.current_cycle_ c in
  let stats := TransactionalLPDDR5Controller.stats_ c in
  TransactionalLPDDR5Controller.pending_ c = [] ->
  0 < ControllerConfig.queue_depth (TransactionalLPDDR5Controller.config_ c) ->
  1 <= latency -> 0 <= now -> now + latency < 2 ^ 64 ->
  exists c1,
    TransactionalLPDDR5Controller.submit c request latency
    = (Some (TransactionalLPDDR5Controller.next_id_ c), c1) /\
    TransactionalLPDDR5Controller.has_pending c1 = true /\
    (forall n : nat,
       Z.of_nat n < latency ->
       TransactionalLPDDR5Controller.tick_n n c1
       = ([], TransactionalLPDDR5Controller.set_cycle c1 (now + Z.of_nat n))) /\
    TransactionalLPDDR5Controller.tick_n (Z.to_nat latency) c1
    = (match Request.callback request with
       | Some cb => [Completion cb latency]
       | None => []
       end,
       TransactionalLPDDR5Controller.mk
         (TransactionalLPDDR5Controller.config_ c) (now + latency)
         (TransactionalLPDDR5Controller.next_id_ c1) []
         (match Request.type request with
          | READ => Statistics.count_read latency stats
          | WRITE => Statistics.count_write latency stats
          end)
         (TransactionalLPDDR5Controller.tracing_ c)
         (TransactionalLPDDR5Controller.violations_ c)).
Proof.
  intros now stats Hidle Hdepth Hlat Hnow Hmax.
  unfold TransactionalLPDDR5Controller.submit. rewrite Hidle.
  destruct (Z.leb_spec
              (ControllerConfig.queue_depth
                 (TransactionalLPDDR5Controller.config_ c))
              (Z.of_nat (length (@nil TransactionalLPDDR5Controller.PendingRequest))));
    [simpl in *; lia|].
  fold now. rewrite (u64_small (now + latency)) by lia.
  eexists. split; [done|]. split; [done|].
  match goal with
  | |- context [TransactionalLPDDR5Controller.tick_n _ ?x] => set (c1 := x)
  end.
  assert (forall n : nat,
            Z.of_nat n < latency ->
            TransactionalLPDDR5Controller.tick_n n c1
            = ([], TransactionalLPDDR5Controller.set_cycle c1
                     (now + Z.of_nat n))) as Hblocked.
  { intros n Hn.
    apply (tick_n_blocked c1
             (TransactionalLPDDR5Controller.mk_pending
                (Request.set_submit_cycle now
                   (Request.set_id
                      (TransactionalLPDDR5Controller.next_id_ c) request))
                (now + latency)) [] n); simpl; [done|done|lia|lia]. }
  split; [exact Hblocked|].
  replace (Z.to_nat latency) with (S (Z.to_nat (latency - 1))) by lia.
  rewrite tick_n_snoc, Hblocked by lia.
  unfold TransactionalLPDDR5Controller.tick. simpl.
  replace (now + Z.of_nat (Z.to_nat (latency - 1)) + 1) with (now + latency)
    by lia.
  rewrite (u64_small (now + latency)) by lia.
  destruct (Z.leb_spec (now + latency) (now + latency)); [|lia].
  replace (now + latency - now) with latency by lia.
  rewrite (u64_small latency) by lia.
  destruct request as [? ? ? [] ? ? [cb|]]; done.
Qed.

Lemma transactional_completes_on_time_witness :
  exists c1,
    TransactionalLPDDR5Controller.submit
      (TransactionalLPDDR5Controller.create
         (Sample.lpddr5_config TRANSACTIONAL))
      (Sample.read_request 0 64 (Some 5%nat)) 80
    = (Some 1, c1) /\
    fst (TransactionalLPDDR5Controller.tick_n 80 c1)
    = [Completion 5%nat 80].
Proof.
  destruct (transactional_completes_on_time
              (TransactionalLPDDR5Controller.create
                 (Sample.lpddr5_config TRANSACTIONAL))
              (Sample.read_request 0 64 (Some 5%nat)) 80)
    as (c1 & Hsubmit & _ & _ & Hdone).
  - reflexivity.
  - by vm_compute.
  - lia.
  - by vm_compute.
  - by vm_compute.
  - exists c1. split; [exact Hsubmit|].
    change 80%nat with (Z.to_nat 80). rewrite Hdone. reflexivity.
Defined.

(** X20.  Backpressure of the transactional controller.  On a
    controller holding no more requests than its queue depth, [submit]
    refuses exactly when [can_accept] is false, that is when the queue
    holds [queue_depth] requests, and a refusal changes nothing (no id
    is used up); an accepted request gets the next id, is stamped with
    the cycle and goes to the back of the queue, behind every request
    already pending, without touching the statistics or the cycle; and
    neither a submit nor a tick lets the queue grow past its depth. *)
Theorem transactional_backpressure
    (c : TransactionalLPDDR5Controller.t) (request : Request.t)
    (latency : Z) :
  let depth :=
    ControllerConfig.queue_depth (TransactionalLPDDR5Controller.config_ c) in
  TransactionalLPDDR5Controller.pending_count c <= depth ->
  exists ret c',
    TransactionalLPDDR5Controller.submit c request latency = (ret, c') /\
    (ret = None <-> TransactionalLPDDR5Controller.pending_count c = depth) /\
    (ret = None <-> TransactionalLPDDR5Controller.can_accept c = false) /\
    (ret = None -> c' = c) /\
    (ret <> None ->
     ret = Some (TransactionalLPDDR5Controller.next_id_ c) /\
     TransactionalLPDDR5Controller.pending_ c'
     = TransactionalLPDDR5Controller.pending_ c
       ++ [TransactionalLPDDR5Controller.mk_pending
             (Request.set_submit_cycle
                (TransactionalLPDDR5Controller.current_cycle_ c)
                (Request.set_id
                   (TransactionalLPDDR5Controller.next_id_ c) request))
             (u64 (TransactionalLPDDR5Controller.current_cycle_ c + latency))] /\
     TransactionalLPDDR5Controller.next_id_ c'
     = u64 (TransactionalLPDDR5Controller.next_id_ c + 1) /\
     TransactionalLPDDR5Controller.has_pending c' = true /\
     TransactionalLPDDR5Controller.pending_count c'
     = TransactionalLPDDR5Controller.pending_count c + 1 /\
     TransactionalLPDDR5Controller.stats_ c'
     = TransactionalLPDDR5Controller.stats_ c /\
     TransactionalLPDDR5Controller.current_cycle_ c'
     = TransactionalLPDDR5Controller.current_cycle_ c) /\
    TransactionalLPDDR5Controller.pending_count c' <= depth /\
    TransactionalLPDDR5Controller.pending_count
      (TransactionalLPDDR5Controller.tick c').2
    <= TransactionalLPDDR5Controller.pending_count c'.
Proof.
  intros depth Hroom.
  unfold TransactionalLPDDR5Controller.pending_count in *.
  assert (forall c0,
            Z.of_nat (length (TransactionalLPDDR5Controller.pending_
                                (TransactionalLPDDR5Controller.tick c0).2))
            <= Z.of_nat (length (TransactionalLPDDR5Controller.pending_ c0)))
    as Htick.
  { intros c0. destruct (tick_pending c0) as [ready Hready].
    apply (f_equal length) in Hready. rewrite length_app in Hready. lia. }
  unfold TransactionalLPDDR5Controller.submit,
    TransactionalLPDDR5Controller.can_accept. fold depth.
  destruct (Z.leb_spec depth
              (Z.of_nat (length (TransactionalLPDDR5Controller.pending_ c))))
    as [Hfull|Hfree].
  - exists None, c. split; [done|].
    split; [split; [lia|done]|].
    split; [split; [intros _; apply Z.ltb_ge; lia|done]|].
    split; [done|]. split; [done|]. split; [lia|apply Htick].
  - eexists _, _. split; [done|].
    split; [split; [done|lia]|].
    split; [split; [done|intros ?%Z.ltb_ge; lia]|].
    split; [done|].
    split.
    { intros _. simpl.
      unfold TransactionalLPDDR5Controller.has_pending. simpl.
      rewrite length_app. simpl.
      repeat split; try done; [|lia].
      by destruct (TransactionalLPDDR5Controller.pending_ c). }
    split; [simpl; rewrite length_app; simpl; lia|apply Htick].
Qed.

Lemma transactional_backpressure_witness :
  let c :=
    TransactionalLPDDR5Controller.mk
      (ControllerConfig.mk LPDDR5 TRANSACTIONAL 6400 1
         timing_presets.lpddr5_6400 OrganizationParams.default
         ROW_BANK_COLUMN false true false)
      9 2
      [TransactionalLPDDR5Controller.mk_pending
         (Sample.request 1 0 0 READ) 30]
      Statistics.initial false [] in
  TransactionalLPDDR5Controller.submit c (Sample.read_request 64 64 None) 80
  = (None, c).
Proof.
  intros c.
  destruct (transactional_backpressure c (Sample.read_request 64 64 None) 80)
    as (ret & c' & Hsubmit & Hfull & _ & Hsame & _).
  - by vm_compute.
  - rewrite Hsubmit.
    assert (ret = None) as -> by (apply Hfull; by vm_compute).
    by rewrite (Hsame eq_refl).
Defined.

Section transactional_drain.

Import TransactionalLPDDR5Controller.

Lemma latest_complete_cons pr l :
  latest_complete (pr :: l) = Z.max (complete_cycle pr) (latest_complete l).
Proof. done. Qed.

Lemma latest_complete_nonneg l : 0 <= latest_complete l.
Proof.
  induction l as [|pr l IH]; [done|]. rewrite latest_complete_cons. lia.
Qed.

Lemma latest_complete_app l1 l2 :
  latest_complete (l1 ++ l2)
  = Z.max (latest_complete l1) (latest_complete l2).
Proof.
  induction l1 as [|pr l1 IH].
  - pose proof (latest_complete_nonneg l2).
    change (latest_complete []) with 0. simpl app. lia.
  - change ((pr :: l1) ++ l2) with (pr :: (l1 ++ l2)).
    rewrite !latest_complete_cons, IH. lia.
Qed.

Lemma latest_complete_le l m :
  0 <= m -> Forall (fun pr => complete_cycle pr <= m) l ->
  latest_complete l <= m.
Proof.
  intros Hm. induction 1 as [|pr l Hpr _ IH]; [done|].
  rewrite latest_complete_cons. lia.
Qed.

Lemma latest_complete_head pr l :
  complete_cycle pr <= latest_complete (pr :: l).
Proof. rewrite latest_complete_cons. lia. Qed.

Lemma callbacks_app tr1 tr2 :
  callbacks (tr1 ++ tr2) = callbacks tr1 ++ callbacks tr2.
Proof. unfold callbacks. by rewrite completions_app, fmap_app. Qed.

Lemma callbacks_completion_at now ready :
  callbacks (omap (completion_at now) ready)
  = omap (fun pr => Request.callback (request pr)) ready.
Proof.
  induction ready as [|pr ready IH]; [done|].
  change (omap (completion_at now) (pr :: ready))
    with (match completion_at now pr with
          | Some y => y :: omap (completion_at now) ready
          | None => omap (completion_at now) ready
          end).
  change (omap (fun pr => Request.callback (request pr)) (pr :: ready))
    with (match Request.callback (request pr) with
          | Some y => y :: omap (fun pr => Request.callback (request pr)) ready
          | None => omap (fun pr => Request.callback (request pr)) ready
          end).
  unfold completion_at at 1.
  destruct (Request.callback (request pr)) as [cb|]; [|exact IH].
  rewrite <- IH. reflexivity.
Qed.

Lemma count_type_app ty l1 l2 :
  count_type ty (l1 ++ l2) = (count_type ty l1 + count_type ty l2)%nat.
Proof. unfold count_type. by rewrite filter_app, length_app. Qed.

Lemma drain_spec fuel c :
  0 <= Statistics.reads (stats_ c) < 2 ^ 64 ->
  0 <= Statistics.writes (stats_ c) < 2 ^ 64 ->
  0 <= Statistics.total_read_latency (stats_ c) < 2 ^ 64 ->
  0 <= Statistics.total_write_latency (stats_ c) < 2 ^ 64 ->
  0 <= current_cycle_ c ->
  Z.max (current_cycle_ c + 1) (latest_complete (pending_ c)) < 2 ^ 64 ->
  (pending_ c <> [] ->
   Z.max 1 (latest_complete (pending_ c) - current_cycle_ c)
   <= Z.of_nat fuel) ->
  exists tr c',
    drain fuel c = Some (tr, c') /\
    pending_ c' = [] /\
    callbacks tr
    = omap (fun pr => Request.callback (request pr)) (pending_ c) /\
    current_cycle_ c'
    = (if bool_decide (pending_ c = []) then current_cycle_ c
       else Z.max (current_cycle_ c + 1) (latest_complete (pending_ c))) /\
    Statistics.reads (stats_ c')
    = u64 (Statistics.reads (stats_ c)
           + Z.of_nat (count_type READ (request <$> pending_ c))) /\
    Statistics.writes (stats_ c')
    = u64 (Statistics.writes (stats_ c)
           + Z.of_nat (count_type WRITE (request <$> pending_ c))) /\
    next_id_ c' = next_id_ c.
Proof.
  revert c. induction fuel as [|fuel IH];
    intros c Hrd Hwr Htrl Htwl Hnow Hmax Hfuel.
  - destruct (pending_ c) as [|pr rest] eqn:Hpending; [|specialize (Hfuel ltac:(done)); lia].
    exists [], c. simpl. rewrite Hpending. simpl.
    rewrite !Z.add_0_r, !u64_small by done. by repeat split.
  - destruct (pending_ c) as [|pr rest] eqn:Hpending.
    { exists [], c. simpl. rewrite Hpending. simpl.
      rewrite !Z.add_0_r, !u64_small by done. by repeat split. }
    specialize (Hfuel ltac:(done)).
    rewrite bool_decide_false by done.
    destruct (complete_ready_spec (current_cycle_ c + 1) (pr :: rest)
                (stats_ c) Hrd Hwr Htrl Htwl)
      as (ready & waiting & stats' & Heq & Hsplit & Hready & Hhead & Hstats).
    assert (tick c
            = (omap (completion_at (current_cycle_ c + 1)) ready,
               mk (config_ c) (current_cycle_ c + 1) (next_id_ c) waiting
                  stats' (tracing_ c) (violations_ c))) as Htick.
    { unfold tick. rewrite (u64_small (current_cycle_ c + 1)) by lia.
      by rewrite Hpending, Heq. }
    cbn [drain]. rewrite Hpending, Htick.
    assert (latest_complete ready <= current_cycle_ c + 1) as Hlatest
      by (apply latest_complete_le; [lia|done]).
    rewrite Hsplit, latest_complete_app in Hmax, Hfuel |- *.
    rewrite fmap_app, !count_type_app, omap_app.
    destruct waiting as [|w ws].
    { assert (drain fuel
                (mk (config_ c) (current_cycle_ c + 1) (next_id_ c) []
                    stats' (tracing_ c) (violations_ c))
              = Some ([], mk (config_ c) (current_cycle_ c + 1) (next_id_ c) []
                             stats' (tracing_ c) (violations_ c))) as ->
        by (by destruct fuel).
      cbn [mbind option_bind].
      eexists _, _. split; [done|]. split; [done|].
      rewrite !app_nil_r, callbacks_completion_at.
      change (latest_complete []) with 0.
      change (count_type READ (request <$> [])) with 0%nat.
      change (count_type WRITE (request <$> [])) with 0%nat.
      rewrite !Nat.add_0_r.
      split; [done|]. split; [cbn [current_cycle_]; lia|].
      cbn [stats_ next_id_]. rewrite Hstats. by repeat split. }
    pose proof (Hhead w eq_refl) as Hw.
    pose proof (latest_complete_head w ws) as Hlw.
    destruct (IH (mk (config_ c) (current_cycle_ c + 1) (next_id_ c) (w :: ws)
                     stats' (tracing_ c) (violations_ c)))
      as (tr2 & c2 & Hdrain & Hempty & Hcalls & Hcycle & Hrd2 & Hwr2 & Hid2).
    1-4: cbn [stats_]; rewrite Hstats; apply u64_range.
    { cbn [current_cycle_]. lia. }
    { cbn [current_cycle_ pending_]. lia. }
    { cbn [current_cycle_ pending_]. intros _. lia. }
    rewrite Hdrain. cbn [mbind option_bind].
    cbn [current_cycle_ pending_ stats_ next_id_] in Hcalls, Hcycle, Hrd2, Hwr2, Hid2.
    rewrite bool_decide_false in Hcycle by done.
    eexists _, c2. split; [done|]. split; [done|].
    split; [by rewrite callbacks_app, callbacks_completion_at, Hcalls|].
    split; [rewrite Hcycle; lia|].
    rewrite Hrd2, Hwr2, Hstats. cbn [Statistics.with_counters Statistics.reads Statistics.writes].
    rewrite !u64_add_l. repeat split; try done; f_equal; lia.
Qed.

End transactional_drain.

(** X21.  [drain] of the transactional controller empties the queue
    and answers every pending request once, in queue order.  With the
    cycle counter not reaching the end of its 64 bits, the loop ends
    within max(1, latest completion cycle - current cycle) ticks; it
    calls the callbacks of the pending requests in the order in which
    they were queued, counts each pending read and write once, leaves
    the id counter alone, and stops at the later of the next cycle and
    the latest completion cycle of the queue (at the current cycle when
    nothing was pending). *)
Theorem transactional_drain_answers_all
    (c : TransactionalLPDDR5Controller.t) (fuel : nat) :
  let now := TransactionalLPDDR5Controller.current_cycle_ c in
  let pending := TransactionalLPDDR5Controller.pending_ c in
  let stats := TransactionalLPDDR5Controller.stats_ c in
  Statistics.in_range stats ->
  0 <= now ->
  Z.max (now + 1) (latest_complete pending) < 2 ^ 64 ->
  Z.max 1 (latest_complete pending - now) <= Z.of_nat fuel ->
  exists tr c',
    TransactionalLPDDR5Controller.drain fuel c = Some (tr, c') /\
    TransactionalLPDDR5Controller.has_pending c' = false /\
    callbacks tr
    = omap (fun pr => Request.callback
                        (TransactionalLPDDR5Controller.request pr)) pending /\
    TransactionalLPDDR5Controller.current_cycle_ c'
    = (if bool_decide (pending = []) then now
       else Z.max (now + 1) (latest_complete pending)) /\
    Statistics.reads (TransactionalLPDDR5Controller.stats_ c')
    = u64 (Statistics.reads stats
           + Z.of_nat (count_type READ
                         (TransactionalLPDDR5Controller.request <$> pending))) /\
    Statistics.writes (TransactionalLPDDR5Controller.stats_ c')
    = u64 (Statistics.writes stats
           + Z.of_nat (count_type WRITE
                         (TransactionalLPDDR5Controller.request <$> pending))) /\
    TransactionalLPDDR5Controller.next_id_ c'
    = TransactionalLPDDR5Controller.next_id_ c.
Proof.
  intros now pending stats Hrange Hnow Hmax Hfuel.
  apply in_range_fields in Hrange as [(Hrd & Hwr & _ & _ & _ & Htrl & Htwl & _) _].
  destruct (drain_spec fuel c Hrd Hwr Htrl Htwl Hnow Hmax (fun _ => Hfuel))
    as (tr & c' & Hdrain & Hempty & Hrest).
  exists tr, c'. split; [done|]. split; [|done].
  unfold TransactionalLPDDR5Controller.has_pending. by rewrite Hempty.
Qed.

Lemma transactional_drain_answers_all_witness :
  let c :=
    TransactionalLPDDR5Controller.mk (Sample.lpddr5_config TRANSACTIONAL)
      9 4
      [TransactionalLPDDR5Controller.mk_pending
         (Request.mk 1 0 64 WRITE NORMAL 0 (Some 11%nat) 0 0 0 0 0 0) 30;
       TransactionalLPDDR5Controller.mk_pending
         (Request.mk 2 64 64 READ NORMAL 0 (Some 12%nat) 0 0 0 0 0 0) 10;
       TransactionalLPDDR5Controller.mk_pending
         (Request.mk 3 128 64 READ NORMAL 5 (Some 13%nat) 0 0 0 0 0 0) 40]
      Statistics.initial false [] in
  exists tr c',
    TransactionalLPDDR5Controller.drain 31 c = Some (tr, c') /\
    callbacks tr = [11; 12; 13]%nat /\
    TransactionalLPDDR5Controller.current_cycle_ c' = 40.
Proof.
  intros c.
  destruct (transactional_drain_answers_all c 31)
    as (tr & c' & Hdrain & _ & Hcalls & Hcycle & _).
  - exact initial_in_range.
  - by vm_compute.
  - by vm_compute.
  - by vm_compute.
  - exists tr, c'. split; [exact Hdrain|]. split; [exact Hcalls|exact Hcycle].
Defined.
